(** * Satellite image receiver: availability resolvers, tile geometry and
      the tile compositor

    A shallow embedding of the request handlers of the repository:

    - [Gibs]: the provider C route [GET /api/fetch-gibs-image]
      (the second handler of
      [src/app/api/fetch-copernicus-image/copernicus-availability/route.ts]);
    - [Nasa]: the provider A route [GET /api/fetch-image]
      (the first handler of [unnamed/part_000]);
    - [Explorer]: the availability and fetch handlers of
      [src/app/InteractiveMapExplorer.tsx], GIBS branches;
    - [Panel]: their provider A and Copernicus branches;
    - [Copernicus]: the availability route (the first handler of
      [.../copernicus-availability/route.ts]) and the image route
      ([unnamed/part_001]);
    - [Imagery]: the provider A route written with axios (the second
      handler of [unnamed/part_000]);
    - [SatelliteImage]: the fetch handler of [src/app/SatelliteImage.tsx];
    - [Text]: [truncate] of the provider A route;
    - [Codec]: what sharp does with bytes that are not an encoded image;
    - [Formula]: the tile column of the specification, evaluated exactly.

    Conventions.  A JavaScript number that holds an integer (a [parseInt]
    result, a [Date.getTime()] value, a loop counter) is a [JS.number]:
    [NaN] or an exact [Z].  Sums, differences, [parseInt] and the printed
    digits are those of the integers; they are those of the doubles of
    the code as long as the values stay in the safe-integer range,
    |z| <= 2^53, and the theorems that depend on such a value say so in a
    hypothesis.  The numbers of the tile formula are IEEE-754 doubles
    ([float]).  A rejected promise or a
    thrown exception is the [Throw] case of [JS.Outcome]; [try]/[catch] is
    [JS.try_catch].  The external world (upstream HTTP servers, the sharp
    image library, date-fns, the JavaScript engine's transcendental
    functions) is passed to the handlers as a record of functions.  Writes
    to the request log ([appendLog], [logUserAction]) catch their own
    errors and return nothing, and are left out. *)

From Stdlib Require Import ZArith List String Ascii Bool Lia.
From Stdlib Require Import DecimalString.
From Stdlib Require Import Floats QArith Qround Qpower.
From Stdlib Require Import DecimalPos DecimalZ DecimalN Finite Sorted Permutation.
Import ListNotations.

#[local] Set Warnings "-register-all".
Local Open Scope string_scope.
Local Open Scope Z_scope.

(** ** The fragment of JavaScript the handlers use *)

Module JS.

(** An integer-valued JavaScript number.  The operations below are those
    of the integers; they are the operations of the code on doubles as
    long as arguments and results are safe integers, at most 2^53 in
    magnitude. *)
Inductive number : Type :=
| NaN
| Num (z : Z).

(** [!n] is [negb (truthy n)]: [0] and [NaN] are the falsy numbers. *)
Definition truthy (n : number) : bool :=
  match n with
  | NaN => false
  | Num z => negb (z =? 0)
  end.

(** The falsy numbers, as a proposition. *)
Definition falsy (n : number) : Prop := n = NaN \/ n = Num 0.

(** [a < b]: false as soon as one side is [NaN]. *)
Definition lt (a b : number) : bool :=
  match a, b with
  | Num x, Num y => x <? y
  | _, _ => false
  end.

(** [a > b] *)
Definition gt (a b : number) : bool := lt b a.

Definition add (a b : number) : number :=
  match a, b with
  | Num x, Num y => Num (x + y)
  | _, _ => NaN
  end.

Definition sub (a b : number) : number :=
  match a, b with
  | Num x, Num y => Num (x - y)
  | _, _ => NaN
  end.

(** [Math.abs] *)
Definition Math_abs (a : number) : number :=
  match a with
  | NaN => NaN
  | Num x => Num (Z.abs x)
  end.

(** [Math.ceil(a / 256)] and [Math.floor(a / 2)] on an integer-valued [a]:
    the quotient is rounded up, respectively down. *)
Definition ceil_div (a : number) (d : Z) : number :=
  match a with
  | NaN => NaN
  | Num x => Num (- ((- x) / d))
  end.

Definition floor_div (a : number) (d : Z) : number :=
  match a with
  | NaN => NaN
  | Num x => Num (x / d)
  end.

(** [String(n)], as a template literal prints a number: the decimal
    digits of a safe integer. *)
Definition toString (n : number) : string :=
  match n with
  | NaN => "NaN"
  | Num z => NilZero.string_of_int (Z.to_int z)
  end.

(** [s || d] on a possibly missing string: [null] and [""] are falsy. *)
Definition orElse (s : option string) (d : string) : string :=
  match s with
  | Some (String c r) => String c r
  | _ => d
  end.

(** *** [parseInt(s, 10)]

    Leading white space (the ASCII white space characters), a sign, and
    the longest run of decimal digits; the value is that of the digits,
    which is what the code returns when it is a safe integer. *)

Definition isWhiteSpace (c : ascii) : bool :=
  let n := nat_of_ascii c in
  ((9 <=? n) && (n <=? 13))%nat || (n =? 32)%nat.

Definition digitValue (c : ascii) : option Z :=
  let n := Z.of_nat (nat_of_ascii c) in
  if (48 <=? n) && (n <=? 57) then Some (n - 48) else None.

Fixpoint trimStart (s : string) : string :=
  match s with
  | String c r => if isWhiteSpace c then trimStart r else s
  | EmptyString => EmptyString
  end.

(** The value of the longest prefix of decimal digits, [None] when the
    prefix is empty. *)
Fixpoint digits (acc : option Z) (s : string) : option Z :=
  match s with
  | String c r =>
      match digitValue c with
      | Some d =>
          digits (Some (10 * match acc with Some a => a | None => 0 end + d)) r
      | None => acc
      end
  | EmptyString => acc
  end.

Definition parseInt (s : string) : number :=
  let t := trimStart s in
  let '(negative, body) :=
    match t with
    | String "-" r => (true, r)
    | String "+" r => (false, r)
    | _ => (false, t)
    end in
  match digits None body with
  | None => NaN
  | Some v => Num (if negative then - v else v)
  end.

(** *** Exceptions and rejected promises *)

Inductive Exn : Type :=
| NetworkError          (* [fetch] rejected: no response was received *)
| RangeError            (* e.g. "Invalid time value" *)
| LibraryError.         (* an error raised by the image library *)

Inductive Outcome (A : Type) : Type :=
| Ret (a : A)
| Throw (e : Exn).

Arguments Ret {A} a.
Arguments Throw {A} e.

Definition bind {A B : Type} (m : Outcome A) (k : A -> Outcome B) : Outcome B :=
  match m with
  | Ret a => k a
  | Throw e => Throw e
  end.

(** [try { body } catch (err) { handler }] *)
Definition try_catch {A : Type} (body : Outcome A) (handler : Exn -> Outcome A)
  : Outcome A :=
  match body with
  | Ret a => Ret a
  | Throw e => handler e
  end.

(** [await Promise.all(ps)] on already settled promises: the values in
    order, or a rejection as soon as one of them is rejected. *)
Fixpoint Promise_all {A : Type} (ps : list (Outcome A)) : Outcome (list A) :=
  match ps with
  | [] => Ret []
  | p :: rest =>
      match p, Promise_all rest with
      | Ret a, Ret l => Ret (a :: l)
      | Throw e, _ => Throw e
      | Ret _, Throw e => Throw e
      end
  end.

(** A loop body run over a list, stopping at the first exception. *)
Fixpoint mapM {A B : Type} (f : A -> Outcome B) (l : list A) : Outcome (list B) :=
  match l with
  | [] => Ret []
  | a :: rest =>
      bind (f a) (fun b => bind (mapM f rest) (fun bs => Ret (b :: bs)))
  end.

(** [l.map((v, i) => f(v, i))] *)
Fixpoint mapi_from {A B : Type} (i : Z) (f : A -> Z -> B) (l : list A) : list B :=
  match l with
  | [] => []
  | a :: rest => f a i :: mapi_from (i + 1) f rest
  end.

Definition mapi {A B : Type} (f : A -> Z -> B) (l : list A) : list B :=
  mapi_from 0 f l.

(** The values [0, 1, ..., n-1] of a [for (let i = 0; i < n; i++)] loop. *)
Definition range (n : Z) : list Z :=
  map Z.of_nat (seq 0 (Z.to_nat n)).

(** [l.join(sep)] *)
Fixpoint join (sep : string) (l : list string) : string :=
  match l with
  | [] => ""
  | [a] => a
  | a :: rest => a ++ sep ++ join sep rest
  end.

End JS.

Notation "x <- m ;; k" := (JS.bind m (fun x => k))
  (at level 61, m at next level, right associativity).

(** ** HTTP exchanges and the image library, as the route handlers see them *)

Module Http.

(** Bytes, one [Z] in 0..255 per byte. *)
Definition Buffer : Type := list Z.

(** [Buffer.alloc(size, fill)] *)
Definition Buffer_alloc (size fill : Z) : Buffer := repeat fill (Z.to_nat size).

(** What [await fetch(url)] resolves to, with the bytes that
    [arrayBuffer()], [blob()] or [text()] then read. *)
Record Reply : Type := mkReply { reply_status : Z; reply_body : Buffer }.

(** [res.ok] *)
Definition ok (r : Reply) : bool :=
  (200 <=? reply_status r) && (reply_status r <=? 299).

(** The upstream servers: [fetch(url)] resolves to a reply or is rejected. *)
Definition Upstream : Type := string -> JS.Outcome Reply.

(** The decoded query string of a request, in order. *)
Definition Query : Type := list (string * string).

(** [searchParams.get(name)]: the first value, [None] for [null]. *)
Fixpoint get (q : Query) (name : string) : option string :=
  match q with
  | [] => None
  | (k, v) :: rest => if String.eqb k name then Some v else get rest name
  end.

(** JSON values the handlers send. *)
Inductive Json : Type :=
| JNull
| JStr (s : string)
| JArr (items : list Json)
| JObj (fields : list (string * Json)).

Inductive Payload : Type :=
| JsonPayload (j : Json)
| BinaryPayload (b : Buffer).

(** What a handler returns: [NextResponse.json(j, { status })] or
    [new NextResponse(bytes, { headers })]. *)
Record Response : Type := mkResponse {
  status : Z;
  headers : list (string * string);
  payload : Payload
}.

Definition json (st : Z) (j : Json) : Response :=
  {| status := st; headers := []; payload := JsonPayload j |}.

Definition errorJson (st : Z) (msg : string) : Response :=
  json st (JObj [("error", JStr msg)]).

Definition image (contentType : string) (hs : list (string * string)) (b : Buffer)
  : Response :=
  {| status := 200;
     headers := ("Content-Type", contentType) :: hs;
     payload := BinaryPayload b |}.

(** [headers.get(name)] *)
Fixpoint header (name : string) (hs : list (string * string)) : option string :=
  match hs with
  | [] => None
  | (k, v) :: rest => if String.eqb k name then Some v else header name rest
  end.

(** *** The sharp calls of the compositor

    [sharp({ create }).composite(overlays).jpeg().toBuffer()], with an
    optional [.resize(w, h)] before [.jpeg()], is one call of [toBuffer];
    it may throw.  [imageSize] is the pixel size the library reads from an
    encoded image, [None] for bytes it does not recognise. *)

Record Create : Type := mkCreate {
  width : Z;
  height : Z;
  channels : Z;
  background : Z * Z * Z
}.

Record Overlay : Type := mkOverlay { input : Buffer; left : Z; top : Z }.

Record Sharp : Type := mkSharp {
  toBuffer : Create -> list Overlay -> option (Z * Z) -> JS.Outcome Buffer;
  imageSize : Buffer -> option (Z * Z)
}.

(** An overlay the library can read, no larger than the canvas. *)
Definition fits (S : Sharp) (c : Create) (o : Overlay) : Prop :=
  exists w h, imageSize S (input o) = Some (w, h) /\ w <= width c /\ h <= height c.

(** The part of sharp's documented behaviour the compositor relies on:
    the output has the size asked for by [resize], or the size of the
    created canvas without it; and compositing images that are no larger
    than a canvas that keeps its size succeeds. *)
Record SharpContract (S : Sharp) : Prop := mkSharpContract {
  output_size :
    forall c os rz b,
      toBuffer S c os rz = JS.Ret b ->
      imageSize S b =
        Some (match rz with Some wh => wh | None => (width c, height c) end);
  composite_succeeds :
    forall c os rz,
      (rz = None \/ rz = Some (width c, height c)) ->
      Forall (fits S c) os ->
      exists b, toBuffer S c os rz = JS.Ret b
}.

End Http.

(** ** Provider C: [GET /api/fetch-gibs-image] *)

Module Gibs.

Import Http.

(** One [Layer] of the parsed capabilities document: [Identifier[0]] and,
    when present, the [name] attribute and text of each [Dimension]. *)
Record CapLayer : Type := mkCapLayer {
  identifier : string;
  dimensions : option (list (string * string))
}.

Record World : Type := mkWorld {
  fetch : Upstream;
  sharp : Sharp;
  (** [new Date().toISOString().slice(0, 10)] *)
  today : string;
  (** [parseStringPromise(xml)] followed by
      [parsed.Capabilities.Contents[0].Layer]; throws on other input *)
  capabilityLayers : Buffer -> JS.Outcome (list CapLayer)
}.

Definition layerEntry (label value description start : string) : Json :=
  JObj [("label", JStr label); ("value", JStr value);
        ("description", JStr description);
        ("timeRange", JObj [("start", JStr start); ("end", JNull)])].

Definition GIBS_LAYERS : list (string * Json) :=
  [ ("MODIS_Terra_CorrectedReflectance_TrueColor",
     layerEntry "MODIS Terra True Color"
       "MODIS_Terra_CorrectedReflectance_TrueColor"
       "Daily true color imagery from MODIS Terra (250m, 2000-present)"
       "2000-02-24");
    ("MODIS_Aqua_CorrectedReflectance_TrueColor",
     layerEntry "MODIS Aqua True Color"
       "MODIS_Aqua_CorrectedReflectance_TrueColor"
       "Daily true color imagery from MODIS Aqua (250m, 2002-present)"
       "2002-07-04");
    ("VIIRS_SNPP_CorrectedReflectance_TrueColor",
     layerEntry "VIIRS SNPP True Color"
       "VIIRS_SNPP_CorrectedReflectance_TrueColor"
       "Daily true color imagery from VIIRS Suomi NPP (375m, 2012-present)"
       "2012-01-20") ].

(** [GIBS_LAYERS.find(l => l.value === layer)] *)
Definition findLayer (layer : option string) : option Json :=
  match layer with
  | None => None
  | Some v =>
      match filter (fun e => String.eqb (fst e) v) GIBS_LAYERS with
      | e :: _ => Some (snd e)
      | [] => None
      end
  end.

(** [s.split(',')] *)
Fixpoint split_comma (s : string) : list string :=
  match s with
  | EmptyString => [EmptyString]
  | String c r =>
      if Ascii.eqb c "," then EmptyString :: split_comma r
      else
        match split_comma r with
        | first :: others => String c first :: others
        | [] => [String c EmptyString]
        end
  end.

(** The inner loop over [lyr.Dimension]: the first one named "Time". *)
Fixpoint timeDimension (dims : list (string * string)) : option (list string) :=
  match dims with
  | [] => None
  | (name, text) :: rest =>
      if String.eqb name "Time" then Some (split_comma text)
      else timeDimension rest
  end.

(** The outer loop over the layers; [dates] is the variable it updates. *)
Fixpoint timeDates (layer : string) (layers : list CapLayer) (dates : list string)
  : list string :=
  match layers with
  | [] => dates
  | lyr :: rest =>
      let dates' :=
        if String.eqb (identifier lyr) layer then
          match dimensions lyr with
          | Some dims =>
              match timeDimension dims with
              | Some ds => ds
              | None => dates
              end
          | None => dates
          end
        else dates in
      timeDates layer rest dates'
  end.

Definition capabilitiesUrl (layer : string) : string :=
  "https://gibs.earthdata.nasa.gov/wmts/epsg3857/best/" ++ layer
  ++ "/default/GoogleMapsCompatible_Level9/1.0.0/WMTSCapabilities.xml".

Definition availableDates (W : World) (layer : string) : JS.Outcome Response :=
  JS.try_catch
    (res <- fetch W (capabilitiesUrl layer) ;;
     layers <- capabilityLayers W (reply_body res) ;;
     JS.Ret (json 200
               (JObj [("availableDates",
                       JArr (map JStr (timeDates layer layers [])))])))
    (fun _ => JS.Ret (errorJson 500 "Failed to fetch available dates.")).

(** *** The tile request (step 4 of the handler) *)

Record TileRequest : Type := mkTileRequest {
  layer : string;
  date : string;
  z : JS.number;
  x : JS.number;
  y : JS.number;
  resolution : JS.number
}.

Definition parseTileRequest (W : World) (q : Query) : TileRequest :=
  {| layer := JS.orElse (get q "layer") "MODIS_Terra_CorrectedReflectance_TrueColor";
     date := JS.orElse (get q "date") (today W);
     z := JS.parseInt (JS.orElse (get q "z") "8");
     x := JS.parseInt (JS.orElse (get q "x") "0");
     y := JS.parseInt (JS.orElse (get q "y") "0");
     resolution := JS.parseInt (JS.orElse (get q "resolution") "256") |}.

(** [!z && !x && !y] *)
Definition missingCoordinates (rq : TileRequest) : bool :=
  negb (JS.truthy (z rq)) && negb (JS.truthy (x rq)) && negb (JS.truthy (y rq)).

(** The tile address: [.../${layer}/default/${date}/.../${z}/${tileY}/${tileX}.jpg] *)
Definition tileUrl (layer date : string) (z tileY tileX : JS.number) : string :=
  "https://gibs.earthdata.nasa.gov/wmts/epsg3857/best/" ++ layer
  ++ "/default/" ++ date ++ "/GoogleMapsCompatible_Level9/"
  ++ JS.toString z ++ "/" ++ JS.toString tileY ++ "/" ++ JS.toString tileX
  ++ ".jpg".

Definition tilesPerSide (rq : TileRequest) : JS.number :=
  JS.ceil_div (resolution rq) 256.

Definition half (rq : TileRequest) : JS.number :=
  JS.floor_div (tilesPerSide rq) 2.

Definition startX (rq : TileRequest) : JS.number := JS.sub (x rq) (half rq).

Definition startY (rq : TileRequest) : JS.number := JS.sub (y rq) (half rq).

(** The counter values of [for (let d = 0; d < tilesPerSide; d++)], for
    a [tilesPerSide] the counter can reach. *)
Definition steps (n : JS.number) : list Z :=
  match n with
  | JS.NaN => []
  | JS.Num t => JS.range t
  end.

(** The [(tileX, tileY)] of the tiles, in the order the two nested loops
    push their promises: rows [dy] outside, columns [dx] inside. *)
Definition tileCoords (rq : TileRequest) : list (JS.number * JS.number) :=
  flat_map
    (fun dy =>
       map (fun dx => (JS.add (startX rq) (JS.Num dx), JS.add (startY rq) (JS.Num dy)))
           (steps (tilesPerSide rq)))
    (steps (tilesPerSide rq)).

(** The tiles of the grid in a column west or east of the requested
    tile's column (smaller, larger [x]), and in a row north or south of
    its row (smaller, larger [y]). *)
Definition westOf (rq : TileRequest) : list (JS.number * JS.number) :=
  filter (fun c => JS.lt (fst c) (x rq)) (tileCoords rq).

Definition eastOf (rq : TileRequest) : list (JS.number * JS.number) :=
  filter (fun c => JS.lt (x rq) (fst c)) (tileCoords rq).

Definition northOf (rq : TileRequest) : list (JS.number * JS.number) :=
  filter (fun c => JS.lt (snd c) (y rq)) (tileCoords rq).

Definition southOf (rq : TileRequest) : list (JS.number * JS.number) :=
  filter (fun c => JS.lt (y rq) (snd c)) (tileCoords rq).

Definition tileUrls (rq : TileRequest) : list string :=
  map (fun c => tileUrl (layer rq) (date rq) (z rq) (snd c) (fst c)) (tileCoords rq).

(** [fetch(tileUrl).then(r => r.ok ? r.arrayBuffer() : null)] *)
Definition tilePromise (W : World) (url : string) : JS.Outcome (option Buffer) :=
  r <- fetch W url ;;
  JS.Ret (if ok r then Some (reply_body r) else None).

Definition tilePromises (W : World) (rq : TileRequest)
  : list (JS.Outcome (option Buffer)) :=
  map (tilePromise W) (tileUrls rq).

(** [Buffer.alloc(256 * 256 * 3, 0xff)] *)
Definition placeholder : Buffer := Buffer_alloc (256 * 256 * 3) 255.

(** [tileBuffers[idx] ? Buffer.from(tileBuffers[idx]) : Buffer.alloc(...)];
    a missing entry is [undefined], which is falsy. *)
Definition cell (tileBuffers : list (option Buffer)) (idx : Z) : Buffer :=
  match nth_error tileBuffers (Z.to_nat idx) with
  | Some (Some buf) => buf
  | _ => placeholder
  end.

(** The inner loop of the grid: the [w] cells of one row, read from the
    counter [idx] on; returns the row and the counter after it. *)
Fixpoint fillRow (tileBuffers : list (option Buffer)) (w : nat) (idx : Z)
  : list Buffer * Z :=
  match w with
  | O => ([], idx)
  | S w' =>
      let buf := cell tileBuffers idx in
      let '(row, idx') := fillRow tileBuffers w' (idx + 1) in
      (buf :: row, idx')
  end.

(** The outer loop: [m] rows of [w] cells each, the counter running on
    from one row to the next. *)
Fixpoint fillRows (tileBuffers : list (option Buffer)) (w m : nat) (idx : Z)
  : list (list Buffer) :=
  match m with
  | O => []
  | S m' =>
      let '(row, idx') := fillRow tileBuffers w idx in
      row :: fillRows tileBuffers w m' idx'
  end.

(** The grid [images], built with [let idx = 0]. *)
Definition images (t : Z) (tileBuffers : list (option Buffer)) : list (list Buffer) :=
  fillRows tileBuffers (Z.to_nat t) (Z.to_nat t) 0.

Definition white : Z * Z * Z := (255, 255, 255).

(** One row: the tiles side by side on a [256 * tilesPerSide] by 256 canvas. *)
Definition stitchRow (S : Sharp) (t : Z) (row : list Buffer) : JS.Outcome Buffer :=
  toBuffer S
    {| width := 256 * t; height := 256; channels := 3; background := white |}
    (JS.mapi (fun buf i => {| input := buf; left := i * 256; top := 0 |}) row)
    None.

(** The rows stacked on a square canvas, resized to the resolution. *)
Definition stitchColumns (S : Sharp) (t res : Z) (stitchedRows : list Buffer)
  : JS.Outcome Buffer :=
  toBuffer S
    {| width := 256 * t; height := 256 * t; channels := 3; background := white |}
    (JS.mapi (fun buf i => {| input := buf; left := 0; top := i * 256 |}) stitchedRows)
    (Some (res, res)).

Definition stitch (S : Sharp) (t res : Z) (imgs : list (list Buffer))
  : JS.Outcome Buffer :=
  stitchedRows <- JS.mapM (stitchRow S t) imgs ;;
  stitchColumns S t res stitchedRows.

Definition tileHeaders (rq : TileRequest) : list (string * string) :=
  [("x-gibs-layer", layer rq); ("x-gibs-date", date rq)].

(** The branch [if (resolution > 256)]; there [resolution] is a number
    [res] and [tilesPerSide] a number [t]. *)
Definition stitched (W : World) (rq : TileRequest) (res t : Z) : JS.Outcome Response :=
  let promises := tilePromises W rq in
  JS.try_catch
    (tileBuffers <- JS.Promise_all promises ;;
     finalImg <- stitch (sharp W) t res (images t tileBuffers) ;;
     JS.Ret (image "image/jpeg" (tileHeaders rq) finalImg))
    (fun _ => JS.Ret (errorJson 500 "Failed to stitch GIBS tiles.")).

(** The single tile of the other branch.  The upstream status is passed
    on as it is. *)
Definition singleTile (W : World) (rq : TileRequest) : JS.Outcome Response :=
  let gibsUrl := tileUrl (layer rq) (date rq) (z rq) (y rq) (x rq) in
  JS.try_catch
    (tileRes <- fetch W gibsUrl ;;
     if negb (ok tileRes)
     then JS.Ret (errorJson (reply_status tileRes) "Failed to fetch GIBS tile.")
     else JS.Ret (image "image/jpeg" (tileHeaders rq) (reply_body tileRes)))
    (fun _ => JS.Ret (errorJson 500 "Error fetching GIBS tile.")).

Definition serveTile (W : World) (rq : TileRequest) : JS.Outcome Response :=
  if missingCoordinates rq
  then JS.Ret (errorJson 400 "Missing tile coordinates (z, x, y)")
  else
    match resolution rq, tilesPerSide rq with
    | JS.Num res, JS.Num t =>
        if JS.gt (JS.Num res) (JS.Num 256) then stitched W rq res t
        else singleTile W rq
    | _, _ => singleTile W rq
    end.

Definition GET (W : World) (q : Query) : JS.Outcome Response :=
  let action := get q "action" in
  let layer := get q "layer" in
  match action with
  | Some "layers" =>
      JS.Ret (json 200 (JObj [("layers", JArr (map snd GIBS_LAYERS))]))
  | Some "layer-metadata" =>
      match findLayer layer with
      | None => JS.Ret (errorJson 404 "Layer not found")
      | Some meta => JS.Ret (json 200 (JObj [("metadata", meta)]))
      end
  | _ =>
      match action, layer with
      | Some "available-dates", Some (String c r) => availableDates W (String c r)
      | _, _ => serveTile W (parseTileRequest W q)
      end
  end.

End Gibs.

(** ** Provider A: [GET /api/fetch-image] *)

Module Nasa.

Import Http.

Record World : Type := mkWorld {
  fetch : Upstream;
  (** [`${apiKey}`]: the key of the environment, or "undefined" *)
  apiKey : string;
  (** [String(parseFloat(s))], as [lat], [lon] and [dim] reach the URLs *)
  floatText : string -> string;
  (** [formatISO(subDays(new Date(date), 7), { representation: 'date' })]
      and the same with [addDays]; [formatISO] throws a [RangeError] on an
      invalid date *)
  window7 : string -> JS.Outcome (string * string);
  (** [JSON.parse(text)] followed by [(json.results || []).map(r => r.date)];
      throws when the text is not JSON of that shape *)
  resultDates : Buffer -> JS.Outcome (list string)
}.

(** [text || '{}'] *)
Definition orEmptyObject (text : Buffer) : Buffer :=
  match text with
  | [] => [123; 125]
  | _ => text
  end.

Definition assetsUrl (key lon lat begin_ end_ dim : string) : string :=
  "https://api.nasa.gov/planetary/earth/assets?lon=" ++ lon ++ "&lat=" ++ lat
  ++ "&begin=" ++ begin_ ++ "&end=" ++ end_ ++ "&dim=" ++ dim
  ++ "&api_key=" ++ key.

Definition imageryUrl (key lon lat date dim : string) : string :=
  "https://api.nasa.gov/planetary/earth/imagery?lon=" ++ lon ++ "&lat=" ++ lat
  ++ "&date=" ++ date ++ "&dim=" ++ dim ++ "&api_key=" ++ key.

(** The variables the two [try] blocks of the exact-date query leave. *)
Record Assets : Type := mkAssets {
  availableDates : list string;
  closestDate : option string;
  assetsError : bool
}.

(** First block: the fetch.  [(assetsBody, assetsError)] *)
Definition exactQuery (W : World) (url : string) : option Buffer * bool :=
  match fetch W url with
  | JS.Ret assetsRes => (Some (reply_body assetsRes), negb (ok assetsRes))
  | JS.Throw _ => (None, true)
  end.

(** Second block: the parse, skipped when the fetch failed. *)
Definition parseAssets (W : World) (fetched : option Buffer * bool) : Assets :=
  let failed := {| availableDates := []; closestDate := None; assetsError := true |} in
  if snd fetched then failed
  else
    match resultDates W (orEmptyObject (match fst fetched with Some b => b | None => [] end)) with
    | JS.Ret dates =>
        {| availableDates := dates;
           closestDate := hd_error dates;
           assetsError := false |}
    | JS.Throw _ => failed
    end.

(** The query over the fourteen days around the date: [availableDates7]
    stays empty on any failure. *)
Definition windowQuery (W : World) (url7 : string) : list string :=
  match fetch W url7 with
  | JS.Ret assetsRes7 =>
      if ok assetsRes7 then
        match resultDates W (orEmptyObject (reply_body assetsRes7)) with
        | JS.Ret dates => dates
        | JS.Throw _ => []
        end
      else []
  | JS.Throw _ => []
  end.

(** The exact-date query failed: the fetch was rejected, the reply was
    not ok, or its text could not be read. *)
Definition exactQueryFailed (W : World) (url : string) : Prop :=
  (exists e, fetch W url = JS.Throw e)
  \/ (exists r, fetch W url = JS.Ret r /\ ok r = false)
  \/ (exists r e, fetch W url = JS.Ret r /\ ok r = true /\
                  resultDates W (orEmptyObject (reply_body r)) = JS.Throw e).

Definition imageHeaders (metadata : string) (availableDates7 : list string)
  : list (string * string) :=
  [("x-image-metadata", metadata);
   ("x-nasa-available-dates", JS.join "," availableDates7)].

Definition noImagery (availableDates7 : list string) (closestDate : option string)
  : Response :=
  json 404
    (JObj [("error", JStr "No imagery available for this date/location.");
           ("availableDates", JArr (map JStr availableDates7));
           ("closestDate", match closestDate with Some d => JStr d | None => JNull end)]).

(** The path taken when the exact-date query lists the requested date. *)
Definition fetchImage (W : World) (url date : string) (availableDates7 : list string)
  : JS.Outcome Response :=
  JS.try_catch
    (imageRes <- fetch W url ;;
     if negb (ok imageRes)
     then JS.Ret (errorJson (reply_status imageRes) "Failed to fetch NASA image.")
     else JS.Ret (image "image/png" (imageHeaders date availableDates7)
                        (reply_body imageRes)))
    (fun _ => JS.Ret (errorJson 500 "Failed to fetch NASA image.")).

(** The fallback: the imagery endpoint is tried directly; a reply that
    is not ok and a rejected fetch both fall through to the 404 answer. *)
Definition fallback (W : World) (url date : string) (assets : Assets)
  (availableDates7 : list string) : JS.Outcome Response :=
  match fetch W url with
  | JS.Ret fallbackImageRes =>
      if ok fallbackImageRes
      then JS.Ret (image "image/png"
                     (imageHeaders (JS.orElse (closestDate assets) date) availableDates7)
                     (reply_body fallbackImageRes))
      else JS.Ret (noImagery availableDates7 (closestDate assets))
  | JS.Throw _ => JS.Ret (noImagery availableDates7 (closestDate assets))
  end.

Definition GET (W : World) (q : Query) : JS.Outcome Response :=
  let lat := floatText W (JS.orElse (get q "lat") "0") in
  let lon := floatText W (JS.orElse (get q "lon") "0") in
  let date := JS.orElse (get q "date") "" in
  let dim := floatText W (JS.orElse (get q "dim") "0.2") in
  let key := apiKey W in
  let assets := parseAssets W (exactQuery W (assetsUrl key lon lat date date dim)) in
  range7 <- window7 W date ;;
  let availableDates7 :=
    windowQuery W (assetsUrl key lon lat (fst range7) (snd range7) dim) in
  if negb (assetsError assets) && existsb (String.eqb date) (availableDates assets)
  then fetchImage W (imageryUrl key lon lat date dim) date availableDates7
  else fallback W (imageryUrl key lon lat date dim) date assets availableDates7.

End Nasa.

(** ** The map explorer: [InteractiveMapExplorer.tsx] *)

Module Explorer.

Import Http.

(** *** Closest date and closest scene

    The same scan serves the GIBS date list ([d] is a date string) and
    the filtered Copernicus scenes ([d] is a scene, read through
    [scene.datetime]):
<<
    let closest = candidates[0];
    let minDiff = Math.abs(new Date(closest).getTime() - requested.getTime());
    for (const d of candidates) {
      const diff = Math.abs(new Date(d).getTime() - requested.getTime());
      if (diff < minDiff) { closest = d; minDiff = diff; }
    }
>>
*)

Section Closest.

Context {A : Type}.

(** [new Date(d).getTime()], or [new Date(d.datetime).getTime()] *)
Variable timeOf : A -> JS.number.

(** [requested.getTime()] *)
Variable requestedTime : JS.number.

(** [Math.abs(new Date(d).getTime() - requested.getTime())]: the distance
    in milliseconds, which the doubles of the code hold exactly up to
    2^53 *)
Definition diffTo (d : A) : JS.number :=
  JS.Math_abs (JS.sub (timeOf d) requestedTime).

(** One turn of the loop on the pair [(closest, minDiff)]. *)
Definition scan (st : A * JS.number) (d : A) : A * JS.number :=
  if JS.lt (diffTo d) (snd st) then (d, diffTo d) else st.

(** The scan, run when the list is not empty. *)
Definition closestTo (candidates : list A) : option A :=
  match candidates with
  | [] => None
  | first :: _ => Some (fst (fold_left scan candidates (first, diffTo first)))
  end.

End Closest.

(** The distance between a candidate read at time [times d] and the
    requested time, both in milliseconds. *)
Definition gapTo {A : Type} (times : A -> Z) (requested : Z) (d : A) : Z :=
  Z.abs (times d - requested).

(** The invariant of the scan: [closest] is the earliest of the visited
    candidates that lie at the least distance. *)
Definition earliestBest {A : Type} (gap : A -> Z) (visited : list A) (closest : A)
  : Prop :=
  exists before after,
    visited = (before ++ closest :: after)%list /\
    (forall d, In d before -> gap closest < gap d) /\
    (forall d, In d after -> gap closest <= gap d).

(** A scene of the Copernicus catalogue, as the availability route sends it. *)
Record Scene : Type := mkScene {
  id : string;
  datetime : string;
  cloudCover : option float;
  platform : string
}.

(** *** [new Date(s).getTime()] on the date-only form [YYYY-MM-DD]

    ECMAScript reads this form as midnight UTC.  Other forms of date
    strings are not covered: the handlers take the date reader of the
    browser as [getTime] in [Browser], and this function is the instance
    used on plain dates. *)

Definition daysFromCivil (y m d : Z) : Z :=
  let y' := if m <=? 2 then y - 1 else y in
  let era := y' / 400 in
  let yoe := y' - era * 400 in
  let mp := if 2 <? m then m - 3 else m + 9 in
  let doy := (153 * mp + 2) / 5 + d - 1 in
  let doe := yoe * 365 + yoe / 4 - yoe / 100 + doy in
  era * 146097 + doe - 719468.

Definition isLeap (y : Z) : bool :=
  ((y mod 4 =? 0) && negb (y mod 100 =? 0)) || (y mod 400 =? 0).

Definition daysInMonth (y m : Z) : Z :=
  if m =? 2 then (if isLeap y then 29 else 28)
  else if (m =? 4) || (m =? 6) || (m =? 9) || (m =? 11) then 30
  else 31.

(** The number written by a string of digits of the given length. *)
Fixpoint fixedDigits (n : nat) (acc : Z) (s : string) : option (Z * string) :=
  match n with
  | O => Some (acc, s)
  | S n' =>
      match s with
      | String c r =>
          match JS.digitValue c with
          | Some d => fixedDigits n' (10 * acc + d) r
          | None => None
          end
      | EmptyString => None
      end
  end.

Definition isoDateTime (s : string) : JS.number :=
  match fixedDigits 4 0 s with
  | Some (y, String "-" s1) =>
      match fixedDigits 2 0 s1 with
      | Some (m, String "-" s2) =>
          match fixedDigits 2 0 s2 with
          | Some (d, EmptyString) =>
              if (1 <=? m) && (m <=? 12) && (1 <=? d) && (d <=? daysInMonth y m)
              then JS.Num (daysFromCivil y m d * 86400000)
              else JS.NaN
          | _ => JS.NaN
          end
      | _ => JS.NaN
      end
  | _ => JS.NaN
  end.

(** *** Tile geometry

    The engine's [Math.tan], [Math.cos] and [Math.log] are
    implementation-approximated; ECMAScript fixes their value at the
    arguments listed in [Math_tan], [Math_cos] and [Math_log] below.  The
    arithmetic operations are those of IEEE-754 doubles. *)

Record Engine : Type := mkEngine {
  approx_tan : float -> float;
  approx_cos : float -> float;
  approx_log : float -> float;
  (** [String(v)] for an integer [v] beyond the safe integers,
      |v| > 2^53: the shortest digits that read back as the same double,
      in exponent notation from 10^21 on *)
  beyondSafe : Z -> string
}.

Definition Math_PI : float := 0x1.921fb54442d18p+1%float.

Definition Math_tan (E : Engine) (v : float) : float :=
  if is_nan v then nan
  else if is_zero v then v
  else if is_infinity v then nan
  else approx_tan E v.

Definition Math_cos (E : Engine) (v : float) : float :=
  if is_nan v then nan
  else if is_zero v then 1%float
  else if is_infinity v then nan
  else approx_cos E v.

Definition Math_log (E : Engine) (v : float) : float :=
  if is_nan v then nan
  else if PrimFloat.eqb v 1 then 0%float
  else if is_zero v then neg_infinity
  else if PrimFloat.ltb v 0 then nan
  else if is_infinity v then infinity
  else approx_log E v.

(** The value of [Math.floor(v)]: not a number, an infinity or an integer. *)
Inductive Floored : Type :=
| FNaN
| FInfinity (negative : bool)
| FInt (v : Z).

Definition Math_floor (v : float) : Floored :=
  match Prim2SF v with
  | S754_nan => FNaN
  | S754_infinity s => FInfinity s
  | S754_zero _ => FInt 0
  | S754_finite s m e =>
      let mantissa := if s then Z.neg m else Z.pos m in
      FInt (if 0 <=? e then mantissa * 2 ^ e else mantissa / 2 ^ (- e))
  end.

(** [`${v}`] *)
Definition show (E : Engine) (v : Floored) : string :=
  match v with
  | FNaN => "NaN"
  | FInfinity false => "Infinity"
  | FInfinity true => "-Infinity"
  | FInt i =>
      if Z.abs i <=? 2 ^ 53 then NilZero.string_of_int (Z.to_int i)
      else beyondSafe E i
  end.

(** [const n = Math.pow(2, z)] with [z = 8] *)
Definition n : float := 256%float.

(** [Math.floor((lon + 180) / 360 * n)] *)
Definition tileX (lon : float) : Floored :=
  Math_floor ((lon + 180) / 360 * n)%float.

(** [Math.floor((1 - Math.log(Math.tan(lat * Math.PI / 180)
                 + 1 / Math.cos(lat * Math.PI / 180)) / Math.PI) / 2 * n)] *)
Definition tileY (E : Engine) (lat : float) : Floored :=
  Math_floor
    ((1 - Math_log E (Math_tan E (lat * Math_PI / 180)
                      + 1 / Math_cos E (lat * Math_PI / 180)) / Math_PI)
     / 2 * n)%float.

(** *** The GIBS branches of the two handlers *)

(** What [await fetch(url)] resolves to in the browser: [res.ok], the
    [availableDates] array of [await res.json()] (empty when the field is
    absent; a rejection when the body is not JSON) and [await res.blob()]. *)
Record ApiReply : Type := mkApiReply {
  api_ok : bool;
  api_availableDates : JS.Outcome (list string);
  api_blob : Buffer
}.

Record Browser : Type := mkBrowser {
  engine : Engine;
  (** [fetch(url)] against the application's own routes *)
  request : string -> JS.Outcome ApiReply;
  (** [new Date(s).getTime()] *)
  getTime : string -> JS.number;
  createObjectURL : Buffer -> string
}.

(** The state of the component the GIBS branches read or write. *)
Record State : Type := mkState {
  center : float * float;
  date : string;
  source : string;
  gibsLayer : string;
  availability : option string;
  availableDates : list string;
  closestDate : option string;
  availableScenes : list Scene;
  imageUrl : option string;
  imageMeta : option string;
  errorMsg : option string;
  nextAvailable : option string;
  prevAvailable : option string;
  gibsPreviewUrl : option string;
  gibsPreviewError : option string;
  gibsActualDate : option string;
  fetchingImage : bool
}.

(** [`/api/fetch-gibs-image?layer=${gibsLayer}&date=${date}&z=${z}&x=${x}&y=${y}`] *)
Definition gibsTileUrl (E : Engine) (gibsLayer date : string) (x y : Floored) : string :=
  "/api/fetch-gibs-image?layer=" ++ gibsLayer ++ "&date=" ++ date
  ++ "&z=8" ++ "&x=" ++ show E x ++ "&y=" ++ show E y.

Definition tileUrlOf (B : Browser) (st : State) : string :=
  let lat := fst (center st) in
  let lon := snd (center st) in
  gibsTileUrl (engine B) (gibsLayer st) (date st) (tileX lon) (tileY (engine B) lat).

Definition datesUrlOf (st : State) : string :=
  "/api/fetch-gibs-image?action=available-dates&layer=" ++ gibsLayer st.

(** The first [try] block: the value given to [setGibsActualDate]. *)
Definition actualDate (B : Browser) (st : State) : option string :=
  match request B (datesUrlOf st) with
  | JS.Ret datesRes =>
      if api_ok datesRes then
        match api_availableDates datesRes with
        | JS.Ret dates =>
            match closestTo (getTime B) (getTime B (date st)) dates with
            | Some closest => Some closest
            | None => Some (date st)
            end
        | JS.Throw _ => None
        end
      else Some (date st)
  | JS.Throw _ => None
  end.

(** The second [try] block:
    [(gibsPreviewUrl, gibsPreviewError, availability)]. *)
Definition preview (B : Browser) (tileUrl : string)
  : option string * option string * option string :=
  match request B tileUrl with
  | JS.Ret res =>
      if api_ok res
      then (Some (createObjectURL B (api_blob res)), None,
            Some "GIBS tile available!")
      else (None, Some "No tile available for this layer/date/position.",
            Some "No GIBS tile available.")
  | JS.Throw _ => (None, Some "Error fetching GIBS tile.", Some "Error fetching GIBS tile.")
  end.

(** [handleCheckAvailability] with [source === 'gibs']: the URLs requested,
    in order, and the state once the handler has returned. *)
Definition handleCheckAvailability_gibs (B : Browser) (st : State)
  : list string * State :=
  let tileUrl := tileUrlOf B st in
  let actual := actualDate B st in
  let '(previewUrl, previewError, avail) := preview B tileUrl in
  ([datesUrlOf st; tileUrl],
   {| center := center st; date := date st; source := source st;
      gibsLayer := gibsLayer st;
      availability := avail;
      availableDates := [];
      closestDate := None;
      availableScenes := [];
      imageUrl := None;
      imageMeta := None;
      errorMsg := None;
      nextAvailable := None;
      prevAvailable := None;
      gibsPreviewUrl := previewUrl;
      gibsPreviewError := previewError;
      gibsActualDate := actual;
      fetchingImage := fetchingImage st |}).

(** [handleFetchImage] with [source === 'gibs']. *)
Definition handleFetchImage_gibs (B : Browser) (st : State)
  : list string * State :=
  let tileUrl := tileUrlOf B st in
  let actual := actualDate B st in
  let '(previewUrl, previewError, avail) := preview B tileUrl in
  ([datesUrlOf st; tileUrl],
   {| center := center st; date := date st; source := source st;
      gibsLayer := gibsLayer st;
      availability := avail;
      availableDates := availableDates st;
      closestDate := closestDate st;
      availableScenes := availableScenes st;
      imageUrl := None;
      imageMeta := None;
      errorMsg := errorMsg st;
      nextAvailable := nextAvailable st;
      prevAvailable := prevAvailable st;
      gibsPreviewUrl := previewUrl;
      gibsPreviewError := previewError;
      gibsActualDate := actual;
      fetchingImage := false |}).


(** The automatic selection among the scenes left by the cloud-cover
    filter ([handleCheckAvailability], Copernicus branch): the value
    given to [setSelectedScene] when [filtered] is not empty. *)
Definition autoSelectScene (B : Browser) (date : string) (filtered : list Scene)
  : option Scene :=
  closestTo (fun scene => getTime B (datetime scene)) (getTime B date) filtered.

End Explorer.

(** ** A sample world

    Concrete upstream servers, a stand-in for the image codec and a
    browser, on which the handlers can be run. *)

Module Sample.

Import Http.

(** A header-only codec: the encoded image of [w] by [h] pixels is the
    four bytes [255; 216; w; h]. *)
Definition encode (w h : Z) : Buffer := [255; 216; w; h].

Definition imageSize (b : Buffer) : option (Z * Z) :=
  match b with
  | [255; 216; w; h] => Some (w, h)
  | _ => None
  end.

Definition fitsb (c : Create) (o : Overlay) : bool :=
  match imageSize (input o) with
  | Some (w, h) => (w <=? width c) && (h <=? height c)
  | None => false
  end.

Definition toBuffer (c : Create) (os : list Overlay) (rz : option (Z * Z))
  : JS.Outcome Buffer :=
  if forallb (fitsb c) os
  then JS.Ret (match rz with
               | Some (w, h) => encode w h
               | None => encode (width c) (height c)
               end)
  else JS.Throw JS.LibraryError.

Definition sharp : Sharp := {| Http.toBuffer := toBuffer; Http.imageSize := imageSize |}.

(** A native tile and three upstream servers: one that serves every
    tile, one that answers 404 for one address, one that cannot be
    reached for one address. *)
Definition tile : Reply := mkReply 200 (encode 256 256).

Definition healthy : Upstream := fun _ => JS.Ret tile.

Definition notFoundAt (bad : string) : Upstream :=
  fun url => if String.eqb url bad then JS.Ret (mkReply 404 []) else JS.Ret tile.

Definition unreachableAt (bad : string) : Upstream :=
  fun url => if String.eqb url bad then JS.Throw JS.NetworkError else JS.Ret tile.

Definition gibsWorld (up : Upstream) : Gibs.World :=
  {| Gibs.fetch := up;
     Gibs.sharp := sharp;
     Gibs.today := "2024-01-08";
     Gibs.capabilityLayers := fun _ => JS.Ret [] |}.

(** A request for the 2 by 2 grid around tile (10, 20) at zoom 8. *)
Definition grid512 : Gibs.TileRequest :=
  {| Gibs.layer := "MODIS_Terra_CorrectedReflectance_TrueColor";
     Gibs.date := "2024-01-08";
     Gibs.z := JS.Num 8; Gibs.x := JS.Num 10; Gibs.y := JS.Num 20;
     Gibs.resolution := JS.Num 512 |}.

(** The address of its top-left tile, column 9 of row 19. *)
Definition topLeft : string :=
  Gibs.tileUrl (Gibs.layer grid512) (Gibs.date grid512) (JS.Num 8) (JS.Num 19) (JS.Num 9).

(** Provider A: the asset index knows three bodies, the empty object, a
    list of two acquisitions and a list with the requested date alone. *)
Definition twoDates : Buffer := [1].

Definition requestedDateOnly : Buffer := [2].

Definition resultDates (text : Buffer) : JS.Outcome (list string) :=
  match text with
  | [123; 125] => JS.Ret []
  | [1] => JS.Ret ["2024-01-05"; "2024-01-09"]
  | [2] => JS.Ret ["2024-01-08"]
  | _ => JS.Throw JS.LibraryError
  end.

Definition window7 (date : string) : JS.Outcome (string * string) :=
  if String.eqb date "2024-01-08" then JS.Ret ("2024-01-01", "2024-01-15")
  else JS.Throw JS.RangeError.

Definition exactUrl : string :=
  Nasa.assetsUrl "DEMO_KEY" "23.7" "37.9" "2024-01-08" "2024-01-08" "0.2".

Definition windowUrl : string :=
  Nasa.assetsUrl "DEMO_KEY" "23.7" "37.9" "2024-01-01" "2024-01-15" "0.2".

Definition imageryUrl : string :=
  Nasa.imageryUrl "DEMO_KEY" "23.7" "37.9" "2024-01-08" "0.2".

(** The asset index answers the exact-date query with [exact] and the
    window query with the two acquisitions; the imagery endpoint answers
    with [imagery]. *)
Definition nasaUpstream (exact imagery : JS.Outcome Reply) : Upstream :=
  fun url =>
    if String.eqb url exactUrl then exact
    else if String.eqb url windowUrl then JS.Ret (mkReply 200 twoDates)
    else if String.eqb url imageryUrl then imagery
    else JS.Ret (mkReply 404 []).

Definition nasaWorld (exact imagery : JS.Outcome Reply) : Nasa.World :=
  {| Nasa.fetch := nasaUpstream exact imagery;
     Nasa.apiKey := "DEMO_KEY";
     Nasa.floatText := fun s => s;
     Nasa.window7 := window7;
     Nasa.resultDates := resultDates |}.

(** An imagery endpoint with nothing to serve, and one with a picture. *)
Definition noPicture : JS.Outcome Reply := JS.Ret (mkReply 404 []).

Definition picture : JS.Outcome Reply := JS.Ret (mkReply 200 (encode 2048 2048)).

Definition nasaQuery : Query :=
  [("lat", "37.9"); ("lon", "23.7"); ("date", "2024-01-08"); ("dim", "0.2")].

(** The browser.  The engine's approximations are not consulted on the
    equator, where ECMAScript fixes the values of the three functions. *)
Definition equatorEngine : Explorer.Engine :=
  {| Explorer.approx_tan := fun _ => nan;
     Explorer.approx_cos := fun _ => nan;
     Explorer.approx_log := fun _ => nan;
     Explorer.beyondSafe := fun _ => "1e+21" |}.

Definition datesReply (dates : list string) : Explorer.ApiReply :=
  {| Explorer.api_ok := true;
     Explorer.api_availableDates := JS.Ret dates;
     Explorer.api_blob := [] |}.

Definition tileReply : Explorer.ApiReply :=
  {| Explorer.api_ok := true;
     Explorer.api_availableDates := JS.Throw JS.LibraryError;
     Explorer.api_blob := encode 256 256 |}.

Definition datesUrl : string :=
  "/api/fetch-gibs-image?action=available-dates&layer=MODIS_Terra_CorrectedReflectance_TrueColor".

(** The time of a plain date, 0 when the string is not one. *)
Definition timeOfDate (s : string) : Z :=
  match Explorer.isoDateTime s with
  | JS.Num t => t
  | JS.NaN => 0
  end.

(** The three candidate dates of the specification's example. *)
Definition januaryDates : list string := ["2024-01-01"; "2024-01-10"; "2024-01-20"].

(** A browser whose date list is [dates]; every other address serves a tile. *)
Definition browser (dates : list string) : Explorer.Browser :=
  {| Explorer.engine := equatorEngine;
     Explorer.request :=
       fun url => if String.eqb url datesUrl then JS.Ret (datesReply dates)
                  else JS.Ret tileReply;
     Explorer.getTime := Explorer.isoDateTime;
     Explorer.createObjectURL := fun _ => "blob:preview" |}.

(** The explorer centred on a point of the equator at the given longitude. *)
Definition stateAt (lon : float) : Explorer.State :=
  {| Explorer.center := (0%float, lon);
     Explorer.date := "2024-01-08";
     Explorer.source := "gibs";
     Explorer.gibsLayer := "MODIS_Terra_CorrectedReflectance_TrueColor";
     Explorer.availability := None;
     Explorer.availableDates := [];
     Explorer.closestDate := None;
     Explorer.availableScenes := [];
     Explorer.imageUrl := None;
     Explorer.imageMeta := None;
     Explorer.errorMsg := None;
     Explorer.nextAvailable := None;
     Explorer.prevAvailable := None;
     Explorer.gibsPreviewUrl := None;
     Explorer.gibsPreviewError := None;
     Explorer.gibsActualDate := None;
     Explorer.fetchingImage := false |}.

End Sample.

(** ** Texts: printed integers and the log's truncation *)

Module Text.

(** Whether a text goes on with a decimal digit. *)
Definition startsWithDigit (s : string) : bool :=
  match s with
  | String c _ => match JS.digitValue c with Some _ => true | None => false end
  | EmptyString => false
  end.

(** The number read when the digits [d] follow the digits of [acc]. *)
Fixpoint uintValue (d : Decimal.uint) (acc : Z) : Z :=
  match d with
  | Decimal.Nil => acc
  | Decimal.D0 l => uintValue l (10 * acc + 0)
  | Decimal.D1 l => uintValue l (10 * acc + 1)
  | Decimal.D2 l => uintValue l (10 * acc + 2)
  | Decimal.D3 l => uintValue l (10 * acc + 3)
  | Decimal.D4 l => uintValue l (10 * acc + 4)
  | Decimal.D5 l => uintValue l (10 * acc + 5)
  | Decimal.D6 l => uintValue l (10 * acc + 6)
  | Decimal.D7 l => uintValue l (10 * acc + 7)
  | Decimal.D8 l => uintValue l (10 * acc + 8)
  | Decimal.D9 l => uintValue l (10 * acc + 9)
  end.

(** Whether a text holds a comma. *)
Fixpoint hasComma (s : string) : bool :=
  match s with
  | EmptyString => false
  | String c r => Ascii.eqb c "," || hasComma r
  end.

(** [truncate(str, n = 500)] of the provider A route:
    [str.length > n ? str.slice(0, n) + '... [truncated]' : str] *)
Definition truncate (str : string) (n : nat) : string :=
  if (n <? String.length str)%nat
  then String.substring 0 n str ++ "... [truncated]"
  else str.

End Text.

(** ** The catalogue of provider C, read by comparisons *)

Module Catalogue.

Import Http.

(** The chain of tests on [action] and [layer] at the head of [GET]:
    [action === 'layers'], [action === 'layer-metadata'],
    [action === 'available-dates' && layer], and the tile request
    otherwise. *)
Definition dispatch (W : Gibs.World) (q : Query) : JS.Outcome Response :=
  let tile := Gibs.serveTile W (Gibs.parseTileRequest W q) in
  match get q "action" with
  | None => tile
  | Some action =>
      if String.eqb action "layers"
      then JS.Ret (json 200 (JObj [("layers", JArr (map snd Gibs.GIBS_LAYERS))]))
      else if String.eqb action "layer-metadata"
      then match Gibs.findLayer (get q "layer") with
           | None => JS.Ret (errorJson 404 "Layer not found")
           | Some meta => JS.Ret (json 200 (JObj [("metadata", meta)]))
           end
      else if String.eqb action "available-dates"
      then match get q "layer" with
           | Some (String c r) => Gibs.availableDates W (String c r)
           | _ => tile
           end
      else tile
  end.

(** [lyr.Identifier[0] === layer && lyr.Dimension] with a dimension
    named "Time" among them: the layers that set [dates]. *)
Definition hasTime (layer : string) (lyr : Gibs.CapLayer) : bool :=
  String.eqb (Gibs.identifier lyr) layer
  && match Gibs.dimensions lyr with
     | Some dims => match Gibs.timeDimension dims with Some _ => true | None => false end
     | None => false
     end.

End Catalogue.

(** ** The codec and raw pixels *)

Module Codec.

Import Http.

(** What sharp does with the [input] of an overlay.  A buffer handed to
    [composite] without the [raw] option is read as an encoded image
    (JPEG, PNG, ...); when sharp does not recognise the bytes, the call
    throws.  The compositor never passes [raw].  The bytes of
    [Buffer.alloc(256 * 256 * 3, 0xff)] are raw pixels, not an encoded
    image. *)
Definition refusesRawPixels (S : Sharp) : Prop :=
  imageSize S Gibs.placeholder = None
  /\ forall c os rz,
       Exists (fun o => imageSize S (input o) = None) os ->
       exists e, toBuffer S c os rz = JS.Throw e.

End Codec.

(** ** The tile column of the specification *)

Module Formula.

(** The column of the tile as the specification writes it,
    [floor((lon + 180) / 360 * 2^zoom)], evaluated exactly on a rational
    longitude. *)
Definition x (lon : Q) (zoom : Z) : Z :=
  Qfloor ((lon + inject_Z 180) / inject_Z 360 * inject_Z (2 ^ zoom)).






End Formula.

(** ** The map explorer: the provider A and Copernicus branches

    [handleCheckAvailability] and [handleFetchImage] of
    [InteractiveMapExplorer.tsx], outside their GIBS branches. *)

Module Panel.

Import Http.

(** [await res.json()], as the handlers read it: a field is [None] when
    it is absent or null. *)
Record Data : Type := mkData {
  error : option string;
  availableDates : option (list string);
  closestDate : option string;
  scenes : option (list Explorer.Scene)
}.

(** What [await fetch(...)] resolves to: [res.ok], [res.json()] (rejected
    when the body is not JSON), [res.blob()] and
    [res.headers.get('x-image-metadata')]. *)
Record Res : Type := mkRes {
  res_ok : bool;
  res_json : JS.Outcome Data;
  res_blob : Buffer;
  res_metadata : option string
}.

(** The state the handlers read or write besides [Explorer.State]. *)
Record Controls : Type := mkControls {
  state : Explorer.State;
  selectedScene : option Explorer.Scene;
  cloudCoverFilter : float;
  resolution : string;
  dim : float
}.

Record Net : Type := mkNet {
  (** [new Date(s).getTime()] and [URL.createObjectURL] *)
  browser : Explorer.Browser;
  (** [v.toString()] of a double *)
  numberText : float -> string;
  (** [fetch(`${endpoint}?${params.toString()}`)], by endpoint and
      parameters *)
  fetch : string -> Query -> JS.Outcome Res;
  (** the POST of the Copernicus availability check *)
  post : string -> JS.Outcome Res
}.

(** [v || null] on a text: the empty text is falsy. *)
Definition truthyText (v : option string) : option string :=
  match v with
  | Some (String c r) => Some (String c r)
  | _ => None
  end.

(** *** [[...dates].sort()]

    Without a comparison function the elements are ordered as strings,
    code unit by code unit; a total order on texts has one sorted
    arrangement, which insertion builds. *)
Fixpoint insert (d : string) (sorted : list string) : list string :=
  match sorted with
  | [] => [d]
  | e :: rest => if String.leb d e then d :: sorted else e :: insert d rest
  end.

Definition sort (dates : list string) : list string := fold_right insert [] dates.

(** Ascending order of texts. *)
Definition ordered : list string -> Prop :=
  StronglySorted (fun a b => String.leb a b = true).

(** The neighbours of [c] in [dates]: [p] is the latest date before [c],
    [n] the earliest other entry that is not before [c]. *)
Definition latestBefore (dates : list string) (c p : string) : Prop :=
  In p dates /\ String.leb p c = true /\ p <> c
  /\ forall d, In d dates -> String.leb d c = true -> d <> c -> String.leb d p = true.

Definition earliestFrom (dates : list string) (c n : string) : Prop :=
  In n dates /\ String.leb c n = true
  /\ forall d, In d dates -> String.leb c d = true -> d <> c -> String.leb n d = true.

(** [l.findIndex(p)]: the first index, -1 when there is none. *)
Fixpoint findIndex_from (i : Z) (p : string -> bool) (l : list string) : Z :=
  match l with
  | [] => -1
  | d :: rest => if p d then i else findIndex_from (i + 1) p rest
  end.

Definition findIndex (p : string -> bool) (l : list string) : Z :=
  findIndex_from 0 p l.

(** [l[i]], [None] for [undefined] *)
Definition item (l : list string) (i : Z) : option string :=
  if i <? 0 then None else nth_error l (Z.to_nat i).

(** [d === data.closestDate] *)
Definition isClosest (data : Data) (d : string) : bool :=
  match closestDate data with
  | Some c => String.eqb d c
  | None => false
  end.

(** The values given to [setPrevAvailable] and [setNextAvailable]; both
    stay null when the reply lists no date. *)
Definition navigation (data : Data) : option string * option string :=
  match availableDates data with
  | Some (d :: ds) =>
      let sorted := sort (d :: ds) in
      let idx := findIndex (isClosest data) sorted in
      (if 0 <? idx then item sorted (idx - 1) else None,
       if (0 <=? idx) && (idx <? Z.of_nat (List.length sorted) - 1)
       then item sorted (idx + 1) else None)
  | _ => (None, None)
  end.

(** [new URLSearchParams({ lat, lon, date, resolution, dim })] *)
Definition nasaParams (N : Net) (c : Controls) : Query :=
  [("lat", numberText N (fst (Explorer.center (state c))));
   ("lon", numberText N (snd (Explorer.center (state c))));
   ("date", Explorer.date (state c));
   ("resolution", resolution c);
   ("dim", numberText N (dim c))].

(** The state once the setters at the head of [handleCheckAvailability]
    have run. *)
Definition checking (st : Explorer.State) : Explorer.State :=
  {| Explorer.center := Explorer.center st;
     Explorer.date := Explorer.date st;
     Explorer.source := Explorer.source st;
     Explorer.gibsLayer := Explorer.gibsLayer st;
     Explorer.availability := Some "Checking...";
     Explorer.availableDates := [];
     Explorer.closestDate := None;
     Explorer.availableScenes := [];
     Explorer.imageUrl := None;
     Explorer.imageMeta := None;
     Explorer.errorMsg := None;
     Explorer.nextAvailable := None;
     Explorer.prevAvailable := None;
     Explorer.gibsPreviewUrl := None;
     Explorer.gibsPreviewError := None;
     Explorer.gibsActualDate := Explorer.gibsActualDate st;
     Explorer.fetchingImage := Explorer.fetchingImage st |}.

(** The setters the branches use, each on one or two fields. *)
Definition setAvailability (v : option string) (st : Explorer.State) : Explorer.State :=
  {| Explorer.center := Explorer.center st;
     Explorer.date := Explorer.date st;
     Explorer.source := Explorer.source st;
     Explorer.gibsLayer := Explorer.gibsLayer st;
     Explorer.availability := v;
     Explorer.availableDates := Explorer.availableDates st;
     Explorer.closestDate := Explorer.closestDate st;
     Explorer.availableScenes := Explorer.availableScenes st;
     Explorer.imageUrl := Explorer.imageUrl st;
     Explorer.imageMeta := Explorer.imageMeta st;
     Explorer.errorMsg := Explorer.errorMsg st;
     Explorer.nextAvailable := Explorer.nextAvailable st;
     Explorer.prevAvailable := Explorer.prevAvailable st;
     Explorer.gibsPreviewUrl := Explorer.gibsPreviewUrl st;
     Explorer.gibsPreviewError := Explorer.gibsPreviewError st;
     Explorer.gibsActualDate := Explorer.gibsActualDate st;
     Explorer.fetchingImage := Explorer.fetchingImage st |}.

Definition setErrorMsg (v : option string) (st : Explorer.State) : Explorer.State :=
  {| Explorer.center := Explorer.center st;
     Explorer.date := Explorer.date st;
     Explorer.source := Explorer.source st;
     Explorer.gibsLayer := Explorer.gibsLayer st;
     Explorer.availability := Explorer.availability st;
     Explorer.availableDates := Explorer.availableDates st;
     Explorer.closestDate := Explorer.closestDate st;
     Explorer.availableScenes := Explorer.availableScenes st;
     Explorer.imageUrl := Explorer.imageUrl st;
     Explorer.imageMeta := Explorer.imageMeta st;
     Explorer.errorMsg := v;
     Explorer.nextAvailable := Explorer.nextAvailable st;
     Explorer.prevAvailable := Explorer.prevAvailable st;
     Explorer.gibsPreviewUrl := Explorer.gibsPreviewUrl st;
     Explorer.gibsPreviewError := Explorer.gibsPreviewError st;
     Explorer.gibsActualDate := Explorer.gibsActualDate st;
     Explorer.fetchingImage := Explorer.fetchingImage st |}.

Definition setDates (dates : list string) (closest prev next : option string)
  (st : Explorer.State) : Explorer.State :=
  {| Explorer.center := Explorer.center st;
     Explorer.date := Explorer.date st;
     Explorer.source := Explorer.source st;
     Explorer.gibsLayer := Explorer.gibsLayer st;
     Explorer.availability := Explorer.availability st;
     Explorer.availableDates := dates;
     Explorer.closestDate := closest;
     Explorer.availableScenes := Explorer.availableScenes st;
     Explorer.imageUrl := Explorer.imageUrl st;
     Explorer.imageMeta := Explorer.imageMeta st;
     Explorer.errorMsg := Explorer.errorMsg st;
     Explorer.nextAvailable := next;
     Explorer.prevAvailable := prev;
     Explorer.gibsPreviewUrl := Explorer.gibsPreviewUrl st;
     Explorer.gibsPreviewError := Explorer.gibsPreviewError st;
     Explorer.gibsActualDate := Explorer.gibsActualDate st;
     Explorer.fetchingImage := Explorer.fetchingImage st |}.

Definition setAvailableScenes (found : list Explorer.Scene) (st : Explorer.State)
  : Explorer.State :=
  {| Explorer.center := Explorer.center st;
     Explorer.date := Explorer.date st;
     Explorer.source := Explorer.source st;
     Explorer.gibsLayer := Explorer.gibsLayer st;
     Explorer.availability := Explorer.availability st;
     Explorer.availableDates := Explorer.availableDates st;
     Explorer.closestDate := Explorer.closestDate st;
     Explorer.availableScenes := found;
     Explorer.imageUrl := Explorer.imageUrl st;
     Explorer.imageMeta := Explorer.imageMeta st;
     Explorer.errorMsg := Explorer.errorMsg st;
     Explorer.nextAvailable := Explorer.nextAvailable st;
     Explorer.prevAvailable := Explorer.prevAvailable st;
     Explorer.gibsPreviewUrl := Explorer.gibsPreviewUrl st;
     Explorer.gibsPreviewError := Explorer.gibsPreviewError st;
     Explorer.gibsActualDate := Explorer.gibsActualDate st;
     Explorer.fetchingImage := Explorer.fetchingImage st |}.

Definition setImage (url meta : option string) (fetching : bool) (st : Explorer.State)
  : Explorer.State :=
  {| Explorer.center := Explorer.center st;
     Explorer.date := Explorer.date st;
     Explorer.source := Explorer.source st;
     Explorer.gibsLayer := Explorer.gibsLayer st;
     Explorer.availability := Explorer.availability st;
     Explorer.availableDates := Explorer.availableDates st;
     Explorer.closestDate := Explorer.closestDate st;
     Explorer.availableScenes := Explorer.availableScenes st;
     Explorer.imageUrl := url;
     Explorer.imageMeta := meta;
     Explorer.errorMsg := Explorer.errorMsg st;
     Explorer.nextAvailable := Explorer.nextAvailable st;
     Explorer.prevAvailable := Explorer.prevAvailable st;
     Explorer.gibsPreviewUrl := Explorer.gibsPreviewUrl st;
     Explorer.gibsPreviewError := Explorer.gibsPreviewError st;
     Explorer.gibsActualDate := Explorer.gibsActualDate st;
     Explorer.fetchingImage := fetching |}.

(** The [catch] block of the provider A and Copernicus branches of
    [handleCheckAvailability]. *)
Definition checkFailed (st : Explorer.State) : Explorer.State :=
  setErrorMsg (Some "Error checking availability.")
    (setAvailability (Some "Error checking availability.") st).

(** [handleCheckAvailability] with [source === 'nasa']: the requests
    sent and the state once the handler has returned. *)
Definition handleCheckAvailability_nasa (N : Net) (c : Controls)
  : list (string * Query) * Controls :=
  let params := nasaParams N c in
  let st := checking (state c) in
  let st' :=
    match fetch N "/api/fetch-image" params with
    | JS.Ret res =>
        if res_ok res then setAvailability (Some "Imagery available!") st
        else
          match res_json res with
          | JS.Ret data =>
              let '(prev, next) := navigation data in
              setDates (match availableDates data with Some l => l | None => [] end)
                (truthyText (closestDate data)) prev next
                (setErrorMsg (truthyText (error data))
                   (setAvailability
                      (Some (JS.orElse (error data)
                               "No imagery available for this date/location."))
                      st))
          | JS.Throw _ => checkFailed st
          end
    | JS.Throw _ => checkFailed st
    end in
  ([("/api/fetch-image", params)],
   {| state := st'; selectedScene := selectedScene c;
      cloudCoverFilter := cloudCoverFilter c;
      resolution := resolution c; dim := dim c |}).

(** [(s.cloudCover ?? 100) <= cloudCoverFilter] *)
Definition keepScene (filter : float) (s : Explorer.Scene) : bool :=
  PrimFloat.leb
    (match Explorer.cloudCover s with Some v => v | None => 100%float end)
    filter.

(** [handleCheckAvailability] with the Copernicus source: the body is
    read before [res.ok] is looked at. *)
Definition handleCheckAvailability_copernicus (N : Net) (c : Controls) : Controls :=
  let st := checking (state c) in
  let failed :=
    {| state := checkFailed st; selectedScene := selectedScene c;
       cloudCoverFilter := cloudCoverFilter c;
       resolution := resolution c; dim := dim c |} in
  let nothing :=
    {| state := setAvailableScenes []
                  (setErrorMsg (Some "No imagery available for this date/location.") st);
       selectedScene := None;
       cloudCoverFilter := cloudCoverFilter c;
       resolution := resolution c; dim := dim c |} in
  match post N "/api/fetch-copernicus-image/copernicus-availability" with
  | JS.Ret res =>
      match res_json res with
      | JS.Ret data =>
          match res_ok res, scenes data with
          | true, Some (s :: others) =>
              let filtered := filter (keepScene (cloudCoverFilter c)) (s :: others) in
              match filtered with
              | _ :: _ =>
                  {| state :=
                       setErrorMsg
                         (Some "Select a scene to fetch image, or use the closest auto-selected.")
                         (setAvailableScenes filtered st);
                     selectedScene :=
                       Explorer.autoSelectScene (browser N) (Explorer.date (state c))
                         filtered;
                     cloudCoverFilter := cloudCoverFilter c;
                     resolution := resolution c; dim := dim c |}
              | [] =>
                  {| state :=
                       setErrorMsg (Some "No scenes match the cloud cover filter.")
                         (setAvailableScenes filtered st);
                     selectedScene := None;
                     cloudCoverFilter := cloudCoverFilter c;
                     resolution := resolution c; dim := dim c |}
              end
          | _, _ => nothing
          end
      | JS.Throw _ => failed
      end
  | JS.Throw _ => failed
  end.

(** The state once the setters at the head of [handleFetchImage] have
    run. *)
Definition fetching (st : Explorer.State) : Explorer.State :=
  {| Explorer.center := Explorer.center st;
     Explorer.date := Explorer.date st;
     Explorer.source := Explorer.source st;
     Explorer.gibsLayer := Explorer.gibsLayer st;
     Explorer.availability := None;
     Explorer.availableDates := Explorer.availableDates st;
     Explorer.closestDate := Explorer.closestDate st;
     Explorer.availableScenes := Explorer.availableScenes st;
     Explorer.imageUrl := None;
     Explorer.imageMeta := None;
     Explorer.errorMsg := Explorer.errorMsg st;
     Explorer.nextAvailable := Explorer.nextAvailable st;
     Explorer.prevAvailable := Explorer.prevAvailable st;
     Explorer.gibsPreviewUrl := None;
     Explorer.gibsPreviewError := None;
     Explorer.gibsActualDate := Explorer.gibsActualDate st;
     Explorer.fetchingImage := true |}.

(** The [try]/[catch]/[finally] shared by the Copernicus and provider A
    branches of [handleFetchImage]. *)
Definition showImage (N : Net) (reply : JS.Outcome Res) (st : Explorer.State)
  : Explorer.State :=
  match reply with
  | JS.Ret res =>
      if res_ok res
      then setImage (Some (Explorer.createObjectURL (browser N) (res_blob res)))
             (Some (JS.orElse (res_metadata res) "")) false st
      else setImage None (Some "No image available for this date/location.") false st
  | JS.Throw _ => setImage None (Some "Error fetching image.") false st
  end.

(** [new URLSearchParams({ lat, lon, acquisitionTime, resolution, dim })] *)
Definition copernicusParams (N : Net) (c : Controls) (acquisitionTime : string) : Query :=
  [("lat", numberText N (fst (Explorer.center (state c))));
   ("lon", numberText N (snd (Explorer.center (state c))));
   ("acquisitionTime", acquisitionTime);
   ("resolution", resolution c);
   ("dim", numberText N (dim c))].

Definition withState (st : Explorer.State) (c : Controls) : Controls :=
  {| state := st; selectedScene := selectedScene c;
     cloudCoverFilter := cloudCoverFilter c;
     resolution := resolution c; dim := dim c |}.

(** [handleFetchImage] with [source === 'copernicus']. *)
Definition handleFetchImage_copernicus (N : Net) (c : Controls)
  : list (string * Query) * Controls :=
  let st := fetching (state c) in
  match selectedScene c with
  | Some scene =>
      match Explorer.datetime scene with
      | EmptyString =>
          ([], withState (setImage None (Some "Please select a valid scene.") false st) c)
      | acquisitionTime =>
          let params := copernicusParams N c acquisitionTime in
          ([("/api/fetch-copernicus-image", params)],
           withState (showImage N (fetch N "/api/fetch-copernicus-image" params) st) c)
      end
  | None =>
      ([], withState (setImage None (Some "Please select a valid scene.") false st) c)
  end.

(** [handleFetchImage] with the provider A source. *)
Definition handleFetchImage_nasa (N : Net) (c : Controls)
  : list (string * Query) * Controls :=
  let st := fetching (state c) in
  let params := nasaParams N c in
  ([("/api/fetch-image", params)],
   withState (showImage N (fetch N "/api/fetch-image" params) st) c).

(** *** What the browser sees of an answer of the provider A route *)

Fixpoint field (name : string) (fields : list (string * Json)) : option Json :=
  match fields with
  | [] => None
  | (k, v) :: rest => if String.eqb k name then Some v else field name rest
  end.

Definition textOf (j : option Json) : option string :=
  match j with
  | Some (JStr s) => Some s
  | _ => None
  end.

Fixpoint textsOf (items : list Json) : list string :=
  match items with
  | [] => []
  | JStr s :: rest => s :: textsOf rest
  | _ :: rest => textsOf rest
  end.

Definition dataOf (j : Json) : Data :=
  match j with
  | JObj fields =>
      {| error := textOf (field "error" fields);
         availableDates :=
           match field "availableDates" fields with
           | Some (JArr items) => Some (textsOf items)
           | _ => None
           end;
         closestDate := textOf (field "closestDate" fields);
         scenes := None |}
  | _ => {| error := None; availableDates := None; closestDate := None; scenes := None |}
  end.

(** The reply the browser gets when the route returns [r]; [serialize]
    is [JSON.stringify] followed by the encoding of the text. *)
Definition received (serialize : Json -> Buffer) (r : Response) : Res :=
  {| res_ok := (200 <=? status r) && (status r <=? 299);
     res_json :=
       match payload r with
       | JsonPayload j => JS.Ret (dataOf j)
       | BinaryPayload _ => JS.Throw JS.LibraryError
       end;
     res_blob :=
       match payload r with
       | BinaryPayload b => b
       | JsonPayload j => serialize j
       end;
     res_metadata := header "x-image-metadata" (headers r) |}.

End Panel.

(** ** Errors that carry a message

    Where a handler reads [error.message], a thrown error or a rejected
    promise is the message it carries. *)

Module Err.

Inductive Result (A : Type) : Type :=
| Done (a : A)
| Fail (message : string).

Arguments Done {A} a.
Arguments Fail {A} message.

Definition andThen {A B : Type} (m : Result A) (k : A -> Result B) : Result B :=
  match m with
  | Done a => k a
  | Fail message => Fail message
  end.

(** [try { body } catch (error) { handler(error.message) }] *)
Definition try_catch {A : Type} (body : Result A) (handler : string -> Result A)
  : Result A :=
  match body with
  | Done a => Done a
  | Fail message => handler message
  end.

End Err.

Notation "x <~ m ;; k" := (Err.andThen m (fun x => k))
  (at level 61, m at next level, right associativity).

(** ** The Copernicus routes

    [fetchAvailableScenes] and [POST] of
    [src/app/api/fetch-copernicus-image/copernicus-availability/route.ts],
    and [GET] and [POST] of the image route ([unnamed/part_001]).  The
    model covers request bodies whose [date] is a text or is absent. *)

Module Copernicus.

Import Http.
Import Err.

(** The reply to the token request: [ok], [status], [statusText],
    [await text()] and [(await json()).access_token] as a template
    literal prints it. *)
Record Token : Type := mkToken {
  token_ok : bool;
  token_status : Z;
  token_statusText : string;
  token_text : Result string;
  access_token : Result string
}.

(** The reply of the catalogue: [ok], and [await json()] followed by the
    [map] over [features || []], which fails on a body of another shape. *)
Record Catalog : Type := mkCatalog {
  catalog_ok : bool;
  catalog_scenes : Result (list Explorer.Scene)
}.

(** The reply of the process API. *)
Record Processed : Type := mkProcessed {
  process_ok : bool;
  process_status : Z;
  process_statusText : string;
  process_text : Result string;
  process_blob : Result Buffer
}.

(** The fields of the process request that depend on the query. *)
Record ProcessRequest : Type := mkProcessRequest {
  authorization : string;
  bbox : list float;
  timeRange : string * string;
  maxCloudCoverage : Z;
  width : JS.number;
  height : JS.number
}.

Record World : Type := mkWorld {
  COPERNICUS_CLIENT_ID : option string;
  COPERNICUS_CLIENT_SECRET : option string;
  parseFloat : string -> float;
  (** [new Date(date).getTime()] *)
  getTime : string -> JS.number;
  (** [toISOString()] of a valid time *)
  isoText : Z -> string;
  (** [bbox.join(',')] *)
  joinNumbers : list float -> string;
  (** the token request, by [client_id] and [client_secret] *)
  token : string -> string -> Result Token;
  (** the catalogue request, by [bbox], [datetime], [limit] and the
      [Authorization] header *)
  catalog : string -> string -> string -> string -> Result Catalog;
  process : ProcessRequest -> Result Processed;
  (** [JSON.parse] *)
  parseJson : string -> Result Json
}.

(** [new Date(t).toISOString()]: a time that is not a number, or lies
    beyond 8.64e15 ms from the epoch, is an invalid date. *)
Definition toISOString (W : World) (t : JS.number) : Result string :=
  match t with
  | JS.Num ms =>
      if Z.abs ms <=? 8640000000000000 then Done (isoText W ms)
      else Fail "Invalid time value"
  | JS.NaN => Fail "Invalid time value"
  end.

(** [dateRangeDays * 24 * 60 * 60 * 1000] with [dateRangeDays = 7] *)
Definition sevenDays : Z := 7 * 24 * 60 * 60 * 1000.

Definition fetchAvailableScenes (W : World) (lat lon : float) (date : option string)
  (dim : float) : Result (list Explorer.Scene) :=
  let halfDim := (dim / 2)%float in
  let bbox := [(lon - halfDim)%float; (lat - halfDim)%float;
               (lon + halfDim)%float; (lat + halfDim)%float] in
  let time := match date with Some d => getTime W d | None => JS.NaN end in
  dateFrom <~ toISOString W (JS.sub time (JS.Num sevenDays)) ;;
  dateTo <~ toISOString W (JS.add time (JS.Num sevenDays)) ;;
  authResponse <~ token W (JS.orElse (COPERNICUS_CLIENT_ID W) "")
                    (JS.orElse (COPERNICUS_CLIENT_SECRET W) "") ;;
  if negb (token_ok authResponse)
  then Fail "Failed to authenticate for Catalog API"
  else
    access <~ access_token authResponse ;;
    catalogRes <~ catalog W (joinNumbers W bbox) (dateFrom ++ "/" ++ dateTo) "20"
                    ("Bearer " ++ access) ;;
    if negb (catalog_ok catalogRes)
    then Fail "Failed to fetch Catalog API"
    else catalog_scenes catalogRes.

(** The body of the availability request, as [POST] reads it. *)
Record Body : Type := mkBody {
  body_lat : float;
  body_lon : float;
  body_date : option string;
  body_dim : option float
}.

(** What the availability route answers: [{ scenes }] with status 200 or
    [{ error }] with status 500. *)
Inductive Answer : Type :=
| Scenes (scenes : list Explorer.Scene)
| Failed (message : string).

(** [POST] of the availability route; [body] is [await request.json()]. *)
Definition POST (W : World) (body : Result Body) : Result Answer :=
  try_catch
    (b <~ body ;;
     scenes <~ fetchAvailableScenes W (body_lat b) (body_lon b) (body_date b)
                 (match body_dim b with
                  | Some d => d
                  | None => 0x1.999999999999ap-3%float
                  end) ;;
     Done (Scenes scenes))
    (fun message => Done (Failed message)).

(** *** The image route *)

(** [NextResponse.json(body, { status })]: the constructor of a response
    refuses a status outside 200..599 and a body with a null-body status. *)
Definition nullBodyStatus (st : Z) : bool :=
  (st =? 101) || (st =? 103) || (st =? 204) || (st =? 205) || (st =? 304).

Definition respond (st : Z) (j : Json) : Result Response :=
  if (200 <=? st) && (st <=? 599) && negb (nullBodyStatus st)
  then Done (json st j)
  else Fail "Invalid response status".

(** [isNaN(resolution)] *)
Definition isNaN (v : JS.number) : bool :=
  match v with
  | JS.NaN => true
  | JS.Num _ => false
  end.

(** The part of [GET] inside [try]. *)
Definition fetchImage (W : World) (clientId clientSecret acquisitionTime : string)
  (lat lon dim : float) (resolution : JS.number) : Result Response :=
  authResponse <~ token W clientId clientSecret ;;
  if negb (token_ok authResponse)
  then
    errorText <~ token_text authResponse ;;
    respond (token_status authResponse)
      (JObj [("error",
              JStr ("Failed to authenticate with Copernicus API: "
                    ++ token_statusText authResponse))])
  else
    accessToken <~ access_token authResponse ;;
    let halfDim := (dim / 2)%float in
    let requestBody :=
      {| authorization := "Bearer " ++ accessToken;
         bbox := [(lon - halfDim)%float; (lat - halfDim)%float;
                  (lon + halfDim)%float; (lat + halfDim)%float];
         timeRange := (acquisitionTime, acquisitionTime);
         maxCloudCoverage := 20;
         width := resolution;
         height := resolution |} in
    processResponse <~ process W requestBody ;;
    if negb (process_ok processResponse)
    then
      errorText <~ process_text processResponse ;;
      try_catch
        (errorJson <~ parseJson W errorText ;;
         respond (process_status processResponse)
           (JObj [("error", JStr "Copernicus API Error"); ("details", errorJson)]))
        (fun _ =>
           respond (process_status processResponse)
             (JObj [("error",
                     JStr ("Failed to fetch image from Copernicus API: "
                           ++ process_statusText processResponse));
                    ("details", JStr errorText)]))
    else
      imageBlob <~ process_blob processResponse ;;
      Done (image "image/png" [] imageBlob).

Definition GET (W : World) (q : Query) : Result Response :=
  let lat := parseFloat W (JS.orElse (get q "lat") "0") in
  let lon := parseFloat W (JS.orElse (get q "lon") "0") in
  let acquisitionTime := JS.orElse (get q "acquisitionTime") "" in
  let resolution := JS.parseInt (JS.orElse (get q "resolution") "1024") in
  let dim := parseFloat W (JS.orElse (get q "dim") "0.2") in
  match acquisitionTime with
  | EmptyString => Done (errorJson 400 "Missing required parameter: acquisitionTime")
  | String _ _ =>
      if is_nan lat || is_nan lon || isNaN resolution
      then Done (errorJson 400 "Missing or invalid parameters")
      else
        match COPERNICUS_CLIENT_ID W, COPERNICUS_CLIENT_SECRET W with
        | Some (String c1 r1), Some (String c2 r2) =>
            try_catch
              (fetchImage W (String c1 r1) (String c2 r2) acquisitionTime
                 lat lon dim resolution)
              (fun _ => Done (errorJson 500 "Internal server error"))
        | _, _ =>
            Done (errorJson 500
                    "Copernicus API credentials not configured in environment variables")
        end
  end.

(** [POST] of the image route: the availability check when the path
    ends with [/copernicus-availability], [GET] otherwise.  The
    availability check of this file takes no [dim]. *)
Fixpoint endsWith (s suffix : string) : bool :=
  String.eqb s suffix
  || match s with
     | String _ r => endsWith r suffix
     | EmptyString => false
     end.

Definition imagePOST (W : World) (pathname : string) (q : Query) (body : Result Body)
  : Result (Answer + Response) :=
  if endsWith pathname "/copernicus-availability"
  then
    try_catch
      (b <~ body ;;
       scenes <~ fetchAvailableScenes W (body_lat b) (body_lon b) (body_date b)
                   0x1.999999999999ap-3%float ;;
       Done (inl (Scenes scenes)))
      (fun message => Done (inl (Failed message)))
  else
    r <~ GET W q ;;
    Done (inr r).

(** The reply the explorer receives for an answer of the availability
    route. *)
Definition received (a : Answer) : Panel.Res :=
  match a with
  | Scenes found =>
      {| Panel.res_ok := true;
         Panel.res_json := JS.Ret {| Panel.error := None;
                                     Panel.availableDates := None;
                                     Panel.closestDate := None;
                                     Panel.scenes := Some found |};
         Panel.res_blob := [];
         Panel.res_metadata := None |}
  | Failed message =>
      {| Panel.res_ok := false;
         Panel.res_json := JS.Ret {| Panel.error := Some message;
                                     Panel.availableDates := None;
                                     Panel.closestDate := None;
                                     Panel.scenes := None |};
         Panel.res_blob := [];
         Panel.res_metadata := None |}
  end.

End Copernicus.

(** ** The provider A route written with axios

    The second [GET] of [unnamed/part_000]. *)

Module Imagery.

Import Http.
Import Err.

(** What [axios.get] resolves to, and the error it rejects with:
    [error.message] and [error.response?.status]. *)
Record AxiosResponse : Type := mkAxiosResponse {
  response_status : Z;
  response_data : Buffer;
  content_type : option string
}.

Record AxiosError : Type := mkAxiosError {
  message : string;
  response : option Z
}.

Inductive AxiosResult : Type :=
| Resolved (r : AxiosResponse)
| Rejected (e : AxiosError).

Record World : Type := mkWorld {
  NASA_API_KEY : option string;
  axios_get : string -> AxiosResult
}.

Inductive Body : Type :=
| Text (s : string)
| Bytes (b : Buffer).

Record Answer : Type := mkAnswer {
  status : Z;
  contentType : option string;
  body : Body
}.

(** [new Response(body, { status, headers })] with a body: the
    constructor refuses a status outside 200..599 and a null-body
    status. *)
Definition newResponse (b : Body) (st : Z) (ct : option string) : Result Answer :=
  if (200 <=? st) && (st <=? 599)
  then
    if Copernicus.nullBodyStatus st
    then Fail "Response with null body status cannot have body"
    else Done {| status := st; contentType := ct; body := b |}
  else Fail "The status provided is outside the range [200, 599]".

Definition url (W : World) (lon lat date : string) : string :=
  "https://api.nasa.gov/planetary/earth/imagery?lon=" ++ lon ++ "&lat=" ++ lat
  ++ "&date=" ++ date ++ "&api_key="
  ++ match NASA_API_KEY W with Some key => key | None => "undefined" end.

(** The [catch] block: [error.message || 'Internal Server Error'] with
    the status [error.response?.status || 500]. *)
Definition failed (e : AxiosError) : Result Answer :=
  newResponse
    (Text (match message e with
           | EmptyString => "Internal Server Error"
           | text => text
           end))
    (match response e with
     | Some st => if st =? 0 then 500 else st
     | None => 500
     end)
    None.

Definition GET (W : World) (q : Query) : Result Answer :=
  match JS.orElse (get q "lat") "", JS.orElse (get q "lon") "",
        JS.orElse (get q "date") "" with
  | String a lat, String b lon, String c date =>
      match axios_get W (url W (String b lon) (String a lat) (String c date)) with
      | Resolved r =>
          try_catch
            (newResponse (Bytes (response_data r)) (response_status r)
               (Some (JS.orElse (content_type r) "image/png")))
            (fun text => failed {| message := text; response := None |})
      | Rejected e => failed e
      end
  | _, _, _ =>
      newResponse (Text "Missing latitude, longitude, or date parameter") 400 None
  end.

End Imagery.

(** ** The first page: [handleFetchImage] of [SatelliteImage.tsx] *)

Module SatelliteImage.

Import Err.

Record State : Type := mkState {
  imageUrl : option string;
  error : option string;
  longitude : string;
  latitude : string;
  date : string;
  isLoading : bool
}.

(** What [await fetch(url)] resolves to. *)
Record Reply : Type := mkReply {
  ok : bool;
  status : Z;
  text : Result string;
  blob : Result Http.Buffer
}.

Record Browser : Type := mkBrowser {
  fetch : string -> Result Reply;
  createObjectURL : Http.Buffer -> string
}.

(** [`/api/fetch-image?lat=${latitude}&lon=${longitude}&date=${date}`] *)
Definition url (st : State) : string :=
  "/api/fetch-image?lat=" ++ latitude st ++ "&lon=" ++ longitude st
  ++ "&date=" ++ date st.

(** The [try] block: the object URL, or the message of the error. *)
Definition load (B : Browser) (st : State) : Result string :=
  response <~ fetch B (url st) ;;
  if negb (ok response)
  then
    errorText <~ text response ;;
    Fail ("HTTP error! status: " ++ JS.toString (JS.Num (status response))
          ++ ", message: " ++ errorText)
  else
    bytes <~ blob response ;;
    Done (createObjectURL B bytes).

Definition handleFetchImage (B : Browser) (st : State) : State :=
  match load B st with
  | Done data =>
      {| imageUrl := Some data; error := None;
         longitude := longitude st; latitude := latitude st; date := date st;
         isLoading := false |}
  | Fail message =>
      {| imageUrl := None;
         error := Some ("Failed to fetch satellite image: " ++ message);
         longitude := longitude st; latitude := latitude st; date := date st;
         isLoading := false |}
  end.

End SatelliteImage.

(** ** More sample worlds *)

Module Scenario.

Import Http.

(** A capabilities document with two entries for the Terra layer and one
    for another layer, served with the given status. *)
Definition terra (text : string) : Gibs.CapLayer :=
  {| Gibs.identifier := "MODIS_Terra_CorrectedReflectance_TrueColor";
     Gibs.dimensions := Some [("Style", "default"); ("Time", text)] |}.

Definition aqua (text : string) : Gibs.CapLayer :=
  {| Gibs.identifier := "MODIS_Aqua_CorrectedReflectance_TrueColor";
     Gibs.dimensions := Some [("Time", text)] |}.

Definition capabilities : list Gibs.CapLayer :=
  [terra "2024-01-01,2024-01-02"; terra "2024-01-05,2024-01-09"; aqua "2023-12-31"].

Definition capabilitiesWorld (status : Z) : Gibs.World :=
  {| Gibs.fetch := fun _ => JS.Ret (mkReply status [60]);
     Gibs.sharp := Sample.sharp;
     Gibs.today := "2024-01-08";
     Gibs.capabilityLayers := fun _ => JS.Ret capabilities |}.

(** The explorer as it starts, on a point of the equator; a network
    that gives every request the same reply. *)
Definition controls (lon : float) : Panel.Controls :=
  {| Panel.state := Sample.stateAt lon;
     Panel.selectedScene := None;
     Panel.cloudCoverFilter := 100%float;
     Panel.resolution := "1024";
     Panel.dim := 0x1.999999999999ap-3%float |}.

Definition net (reply : JS.Outcome Panel.Res) : Panel.Net :=
  {| Panel.browser := Sample.browser [];
     Panel.numberText := fun _ => "0";
     Panel.fetch := fun _ _ => reply;
     Panel.post := fun _ => reply |}.

(** A 404 of the provider A route with three dates, out of order. *)
Definition threeDates : Panel.Data :=
  {| Panel.error := Some "No imagery available for this date/location.";
     Panel.availableDates := Some ["2024-01-09"; "2024-01-05"; "2024-01-12"];
     Panel.closestDate := Some "2024-01-09";
     Panel.scenes := None |}.

Definition notFound (data : Panel.Data) : JS.Outcome Panel.Res :=
  JS.Ret {| Panel.res_ok := false; Panel.res_json := JS.Ret data;
            Panel.res_blob := []; Panel.res_metadata := None |}.

(** Two scenes of the catalogue, one clear and one cloudy, and the
    explorer with the cloud-cover slider at 50. *)
Definition clearScene : Explorer.Scene :=
  {| Explorer.id := "S2A_clear"; Explorer.datetime := "2024-01-10";
     Explorer.cloudCover := Some 10%float; Explorer.platform := "sentinel-2a" |}.

Definition cloudyScene : Explorer.Scene :=
  {| Explorer.id := "S2B_cloudy"; Explorer.datetime := "2024-01-08";
     Explorer.cloudCover := Some 80%float; Explorer.platform := "sentinel-2b" |}.

Definition twoScenes : JS.Outcome Panel.Res :=
  JS.Ret {| Panel.res_ok := true;
            Panel.res_json :=
              JS.Ret {| Panel.error := None; Panel.availableDates := None;
                        Panel.closestDate := None;
                        Panel.scenes := Some [cloudyScene; clearScene] |};
            Panel.res_blob := []; Panel.res_metadata := None |}.

Definition sliderAt50 : Panel.Controls :=
  {| Panel.state := Sample.stateAt 23;
     Panel.selectedScene := None;
     Panel.cloudCoverFilter := 50%float;
     Panel.resolution := "1024";
     Panel.dim := 0x1.999999999999ap-3%float |}.

(** The explorer with the clear scene selected, and an image reply. *)
Definition sceneSelected : Panel.Controls :=
  {| Panel.state := Sample.stateAt 23;
     Panel.selectedScene := Some clearScene;
     Panel.cloudCoverFilter := 100%float;
     Panel.resolution := "1024";
     Panel.dim := 0x1.999999999999ap-3%float |}.

Definition imageReply : JS.Outcome Panel.Res :=
  JS.Ret {| Panel.res_ok := true; Panel.res_json := JS.Throw JS.LibraryError;
            Panel.res_blob := Sample.encode 1024 1024;
            Panel.res_metadata := None |}.

(** The Copernicus services: a token service that accepts or refuses,
    a catalogue with the two scenes, a process API with one picture. *)
Definition copernicusWorld (accepted : bool) : Copernicus.World :=
  {| Copernicus.COPERNICUS_CLIENT_ID := Some "client";
     Copernicus.COPERNICUS_CLIENT_SECRET := Some "secret";
     Copernicus.parseFloat := fun s => if String.eqb s "north" then nan else 0%float;
     Copernicus.getTime := Explorer.isoDateTime;
     Copernicus.isoText := fun t => JS.toString (JS.Num t);
     Copernicus.joinNumbers := fun _ => "23.6,37.8,23.8,38.0";
     Copernicus.token :=
       fun _ _ =>
         Err.Done {| Copernicus.token_ok := accepted;
                     Copernicus.token_status := if accepted then 200 else 401;
                     Copernicus.token_statusText :=
                       if accepted then "OK" else "Unauthorized";
                     Copernicus.token_text := Err.Done "";
                     Copernicus.access_token := Err.Done "token" |};
     Copernicus.catalog :=
       fun _ _ _ _ =>
         Err.Done {| Copernicus.catalog_ok := true;
                     Copernicus.catalog_scenes := Err.Done [cloudyScene; clearScene] |};
     Copernicus.process :=
       fun _ =>
         Err.Done {| Copernicus.process_ok := true;
                     Copernicus.process_status := 200;
                     Copernicus.process_statusText := "OK";
                     Copernicus.process_text := Err.Done "";
                     Copernicus.process_blob := Err.Done (Sample.encode 1024 1024) |};
     Copernicus.parseJson := fun _ => Err.Fail "Unexpected end of JSON input" |}.

Definition availabilityBody (date : option string) : Copernicus.Body :=
  {| Copernicus.body_lat := 0%float; Copernicus.body_lon := 23%float;
     Copernicus.body_date := date; Copernicus.body_dim := None |}.

(** The first page before and after a request. *)
Definition firstPage : SatelliteImage.State :=
  {| SatelliteImage.imageUrl := None; SatelliteImage.error := None;
     SatelliteImage.longitude := "-74.0060"; SatelliteImage.latitude := "40.7128";
     SatelliteImage.date := "2023-01-01"; SatelliteImage.isLoading := false |}.

Definition refusing : SatelliteImage.Browser :=
  {| SatelliteImage.fetch :=
       fun _ =>
         Err.Done {| SatelliteImage.ok := false; SatelliteImage.status := 400;
                     SatelliteImage.text :=
                       Err.Done "Missing latitude, longitude, or date parameter";
                     SatelliteImage.blob := Err.Done [] |};
     SatelliteImage.createObjectURL := fun _ => "blob:image" |}.

(** The imagery endpoint behind axios: a picture for every address. *)
Definition imageryWorld : Imagery.World :=
  {| Imagery.NASA_API_KEY := Some "DEMO_KEY";
     Imagery.axios_get :=
       fun _ =>
         Imagery.Resolved
           {| Imagery.response_status := 200;
              Imagery.response_data := Sample.encode 2048 2048;
              Imagery.content_type := None |} |}.

(** The provider A request of the explorer, which also sends the
    resolution. *)
Definition nasaQueryWithResolution : Query :=
  ("resolution", "2048") :: Sample.nasaQuery.

(** Provider A with the asset index out of reach and a picture at every
    address of the imagery endpoint. *)
Definition imageryOnly : Nasa.World :=
  {| Nasa.fetch :=
       fun url =>
         if String.prefix "https://api.nasa.gov/planetary/earth/imagery?" url
         then Sample.picture
         else JS.Throw JS.NetworkError;
     Nasa.apiKey := "DEMO_KEY";
     Nasa.floatText := fun s => s;
     Nasa.window7 := Sample.window7;
     Nasa.resultDates := Sample.resultDates |}.

Definition undatedQuery : Http.Query := [("lat", "37.9"); ("lon", "23.7")].

End Scenario.

(** * Properties *)

(** ** Texts put end to end *)

Lemma append_empty_r (s : string) : s ++ "" = s.
Proof. induction s as [| c s IH]; simpl; [reflexivity | now rewrite IH]. Qed.

Lemma append_cancel_l (p a b : string) : p ++ a = p ++ b -> a = b.
Proof.
  induction p as [| c p IH]; simpl; intros H; [exact H|].
  injection H as H. exact (IH H).
Qed.

Lemma append_assoc' (a b c : string) : (a ++ b) ++ c = a ++ (b ++ c).
Proof. induction a as [| x a IH]; simpl; [reflexivity | now rewrite IH]. Qed.

Lemma length_append (a b : string) :
  String.length (a ++ b) = (String.length a + String.length b)%nat.
Proof. induction a as [| c a IH]; cbn; [reflexivity | now rewrite IH]. Qed.


(** ** Closest-date and closest-scene selection *)

Section ClosestFacts.

Context {A : Type}.
Variable timeOf : A -> JS.number.
Variable times : A -> Z.
Variable requested : Z.

Lemma diffTo_valid (d : A) :
  timeOf d = JS.Num (times d) ->
  Explorer.diffTo timeOf (JS.Num requested) d
  = JS.Num (Explorer.gapTo times requested d).
Proof.
  intros H. unfold Explorer.diffTo. rewrite H. reflexivity.
Qed.

(** One turn of the loop keeps the invariant, and keeps [minDiff] equal
    to the distance of [closest]. *)
Lemma scan_keeps_earliestBest (visited : list A) (closest d : A) :
  timeOf d = JS.Num (times d) ->
  Explorer.earliestBest (Explorer.gapTo times requested) visited closest ->
  exists closest',
    Explorer.scan timeOf (JS.Num requested)
      (closest, JS.Num (Explorer.gapTo times requested closest)) d
    = (closest', JS.Num (Explorer.gapTo times requested closest')) /\
    Explorer.earliestBest (Explorer.gapTo times requested) (visited ++ [d])%list closest'.
Proof.
  intros Hd (before & after & Hv & Hb & Ha).
  unfold Explorer.scan. rewrite (diffTo_valid d Hd). simpl.
  destruct (Explorer.gapTo times requested d <? Explorer.gapTo times requested closest)
    eqn:Hlt.
  - apply Z.ltb_lt in Hlt. exists d. split; [reflexivity|].
    exists visited, []. split; [reflexivity|]. split.
    + intros e He. subst visited. apply in_app_or in He.
      destruct He as [He | [He | He]].
      * specialize (Hb e He). lia.
      * subst e. exact Hlt.
      * specialize (Ha e He). lia.
    + intros e [].
  - apply Z.ltb_ge in Hlt. exists closest. split; [reflexivity|].
    exists before, (after ++ [d])%list. split.
    + subst visited. rewrite <- app_assoc. reflexivity.
    + split; [exact Hb|].
      intros e He. apply in_app_or in He. destruct He as [He | [He | []]].
      * exact (Ha e He).
      * subst e. exact Hlt.
Qed.

Lemma fold_scan_earliestBest (rest visited : list A) (closest : A) :
  (forall d, In d rest -> timeOf d = JS.Num (times d)) ->
  Explorer.earliestBest (Explorer.gapTo times requested) visited closest ->
  Explorer.earliestBest (Explorer.gapTo times requested) (visited ++ rest)%list
    (fst (fold_left (Explorer.scan timeOf (JS.Num requested)) rest
            (closest, JS.Num (Explorer.gapTo times requested closest)))).
Proof.
  revert visited closest.
  induction rest as [| d rest IH]; intros visited closest Hvalid Hinv.
  - simpl. rewrite app_nil_r. exact Hinv.
  - simpl.
    destruct (scan_keeps_earliestBest visited closest d) as (c' & Hstep & Hinv').
    + apply Hvalid. left. reflexivity.
    + exact Hinv.
    + rewrite Hstep.
      replace (visited ++ d :: rest)%list with ((visited ++ [d]) ++ rest)%list
        by (rewrite <- app_assoc; reflexivity).
      apply IH; [| exact Hinv'].
      intros e He. apply Hvalid. right. exact He.
Qed.

Lemma closestTo_earliestBest (candidates : list A) :
  candidates <> [] ->
  (forall d, In d candidates -> timeOf d = JS.Num (times d)) ->
  exists closest,
    Explorer.closestTo timeOf (JS.Num requested) candidates = Some closest /\
    Explorer.earliestBest (Explorer.gapTo times requested) candidates closest.
Proof.
  intros Hne Hvalid.
  destruct candidates as [| first rest]; [congruence|].
  unfold Explorer.closestTo.
  eexists. split; [reflexivity|].
  rewrite (diffTo_valid first) by (apply Hvalid; left; reflexivity).
  (* the first turn of the loop meets [first] again and keeps it *)
  simpl fold_left. unfold Explorer.scan at 2.
  rewrite (diffTo_valid first) by (apply Hvalid; left; reflexivity).
  simpl. rewrite Z.ltb_irrefl.
  change (first :: rest) with ([first] ++ rest)%list.
  apply fold_scan_earliestBest.
  - intros e He. apply Hvalid. right. exact He.
  - exists [], []. split; [reflexivity|]. split; intros e [].
Qed.

End ClosestFacts.

(** C5.  The scan shared by the GIBS date resolver and the Copernicus
    scene selection returns, from a non-empty list of candidates whose
    dates all read as times, a candidate [closest] at the least absolute
    distance from the requested time: every candidate placed before it in
    the list is strictly farther, every candidate placed after it is at
    least as far, so that among equally close candidates the earliest in
    the original order wins.  The distances are those the code computes:
    [Math.abs(a - b)] on doubles is the exact distance as long as it is
    at most 2^53 milliseconds (some 285,000 years), which is the
    hypothesis on the candidates.  On the dates 2024-01-01, 2024-01-10
    and 2024-01-20 with 2024-01-08 requested, it returns 2024-01-10. *)
Theorem closest_selection_is_earliest_minimum :
  (forall (A : Type) (timeOf : A -> JS.number) (times : A -> Z)
          (requested : Z) (candidates : list A),
      candidates <> [] ->
      (forall d, In d candidates -> timeOf d = JS.Num (times d)) ->
      (forall d, In d candidates -> Z.abs (times d - requested) <= 2 ^ 53) ->
      exists before closest after,
        Explorer.closestTo timeOf (JS.Num requested) candidates = Some closest /\
        candidates = (before ++ closest :: after)%list /\
        (forall d, In d before ->
           Z.abs (times closest - requested) < Z.abs (times d - requested)) /\
        (forall d, In d after ->
           Z.abs (times closest - requested) <= Z.abs (times d - requested)))
  /\ Explorer.closestTo Explorer.isoDateTime (Explorer.isoDateTime "2024-01-08")
       ["2024-01-01"; "2024-01-10"; "2024-01-20"] = Some "2024-01-10".
Proof.
  split; [| reflexivity].
  intros A timeOf times requested candidates Hne Hvalid _.
  destruct (closestTo_earliestBest timeOf times requested candidates Hne Hvalid)
    as (closest & Hsel & before & after & Hsplit & Hb & Ha).
  exists before, closest, after. auto.
Qed.

(** The theorem at the dates of the example, with 2024-01-08 requested. *)
Lemma closest_selection_on_january_dates :
  Sample.januaryDates <> [] /\
  (forall d, In d Sample.januaryDates ->
     Explorer.isoDateTime d = JS.Num (Sample.timeOfDate d)) /\
  (forall d, In d Sample.januaryDates ->
     Z.abs (Sample.timeOfDate d - 1704672000000) <= 2 ^ 53) /\
  exists before closest after,
    Explorer.closestTo Explorer.isoDateTime (JS.Num 1704672000000)
      Sample.januaryDates = Some closest /\
    Sample.januaryDates = (before ++ closest :: after)%list /\
    (forall d, In d before ->
       Z.abs (Sample.timeOfDate closest - 1704672000000)
       < Z.abs (Sample.timeOfDate d - 1704672000000)) /\
    (forall d, In d after ->
       Z.abs (Sample.timeOfDate closest - 1704672000000)
       <= Z.abs (Sample.timeOfDate d - 1704672000000)).
Proof.
  assert (Hne : Sample.januaryDates <> []) by discriminate.
  assert (Hvalid : forall d, In d Sample.januaryDates ->
            Explorer.isoDateTime d = JS.Num (Sample.timeOfDate d)).
  { intros d Hd. simpl in Hd.
    destruct Hd as [<- | [<- | [<- | []]]]; reflexivity. }
  assert (Hnear : forall d, In d Sample.januaryDates ->
            Z.abs (Sample.timeOfDate d - 1704672000000) <= 2 ^ 53).
  { intros d Hd. simpl in Hd.
    destruct Hd as [<- | [<- | [<- | []]]]; vm_compute; discriminate. }
  split; [exact Hne|]. split; [exact Hvalid|]. split; [exact Hnear|].
  exact (proj1 closest_selection_is_earliest_minimum string Explorer.isoDateTime
           Sample.timeOfDate 1704672000000 Sample.januaryDates Hne Hvalid Hnear).
Defined.

(** ** The tile endpoint of provider C: the coordinates check *)

Lemma truthy_false_iff (v : JS.number) : JS.truthy v = false <-> JS.falsy v.
Proof.
  unfold JS.falsy. destruct v as [| i]; simpl.
  - split; auto.
  - rewrite negb_false_iff, Z.eqb_eq. split.
    + intros ->. right. reflexivity.
    + intros [H | H]; [discriminate | congruence].
Qed.

Lemma missingCoordinates_iff (rq : Gibs.TileRequest) :
  Gibs.missingCoordinates rq = true
  <-> JS.falsy (Gibs.z rq) /\ JS.falsy (Gibs.x rq) /\ JS.falsy (Gibs.y rq).
Proof.
  unfold Gibs.missingCoordinates.
  rewrite !andb_true_iff, !negb_true_iff, !truthy_false_iff. tauto.
Qed.

(** The answers of the stitching branch. *)
Lemma stitched_answers (W : Gibs.World) (rq : Gibs.TileRequest) (res t : Z) :
  (exists img, Gibs.stitched W rq res t
               = JS.Ret (Http.image "image/jpeg" (Gibs.tileHeaders rq) img))
  \/ Gibs.stitched W rq res t
     = JS.Ret (Http.errorJson 500 "Failed to stitch GIBS tiles.").
Proof.
  unfold Gibs.stitched.
  destruct (JS.Promise_all (Gibs.tilePromises W rq)) as [bufs | e]; simpl; [| now right].
  destruct (Gibs.stitch (Gibs.sharp W) t res (Gibs.images t bufs)) as [img | e];
    simpl; [left; eauto | now right].
Qed.

(** The answers of the single-tile branch. *)
Lemma singleTile_answers (W : Gibs.World) (rq : Gibs.TileRequest) :
  (exists img, Gibs.singleTile W rq
               = JS.Ret (Http.image "image/jpeg" (Gibs.tileHeaders rq) img))
  \/ (exists st, Gibs.singleTile W rq
                 = JS.Ret (Http.errorJson st "Failed to fetch GIBS tile."))
  \/ Gibs.singleTile W rq = JS.Ret (Http.errorJson 500 "Error fetching GIBS tile.").
Proof.
  unfold Gibs.singleTile.
  destruct (Gibs.fetch W _) as [r | e]; simpl; [| now right; right].
  destruct (Http.ok r); simpl; [left; eauto | right; left; eauto].
Qed.

Lemma serveTile_branches (W : Gibs.World) (rq : Gibs.TileRequest) :
  Gibs.missingCoordinates rq = false ->
  (exists res t, Gibs.serveTile W rq = Gibs.stitched W rq res t)
  \/ Gibs.serveTile W rq = Gibs.singleTile W rq.
Proof.
  intros Hm. unfold Gibs.serveTile. rewrite Hm.
  destruct (Gibs.resolution rq) as [| res]; [now right|].
  destruct (Gibs.tilesPerSide rq) as [| t]; [now right|].
  destruct (JS.gt _ _); [left; eauto | now right].
Qed.

(** The tile endpoint always answers: no exception leaves it. *)
Lemma serveTile_returns (W : Gibs.World) (rq : Gibs.TileRequest) :
  exists resp, Gibs.serveTile W rq = JS.Ret resp.
Proof.
  destruct (Gibs.missingCoordinates rq) eqn:Hm.
  - unfold Gibs.serveTile. rewrite Hm. eauto.
  - destruct (serveTile_branches W rq Hm) as [(res & t & ->) | ->].
    + destruct (stitched_answers W rq res t) as [(img & ->) | ->]; eauto.
    + destruct (singleTile_answers W rq) as [(img & ->) | [(st & ->) | ->]]; eauto.
Qed.

(** C10, as the code has it.  The tile endpoint answers 400 "Missing tile
    coordinates (z, x, y)" exactly when each of the parsed [z], [x] and
    [y] is 0 or NaN.  A missing [x] or [y] is read as 0, but a missing
    [z] is read as 8: the request for the zoom-0 tile z=0, x=0, y=0 is
    refused, and a request that leaves out a coordinate goes on to the
    tile fetch unless the three parsed values are all 0 or NaN. *)
Theorem missing_coordinates_answer (W : Gibs.World) (q : Http.Query) :
  let rq := Gibs.parseTileRequest W q in
  (Gibs.serveTile W rq
   = JS.Ret (Http.errorJson 400 "Missing tile coordinates (z, x, y)")
   <-> JS.falsy (Gibs.z rq) /\ JS.falsy (Gibs.x rq) /\ JS.falsy (Gibs.y rq))
  /\ (Http.get q "z" = None -> Gibs.z rq = JS.Num 8)
  /\ (Http.get q "x" = None -> Gibs.x rq = JS.Num 0)
  /\ (Http.get q "y" = None -> Gibs.y rq = JS.Num 0).
Proof.
  intros rq. split; [| repeat split; intros H; subst rq; simpl; rewrite H; reflexivity].
  rewrite <- missingCoordinates_iff. split.
  - intros Hresp. destruct (Gibs.missingCoordinates rq) eqn:Hm; [reflexivity|].
    exfalso.
    destruct (serveTile_branches W rq Hm) as [(res & t & Hs) | Hs];
      rewrite Hs in Hresp.
    + destruct (stitched_answers W rq res t) as [(img & H) | H];
        rewrite H in Hresp; discriminate.
    + destruct (singleTile_answers W rq) as [(img & H) | [(st & H) | H]];
        rewrite H in Hresp; discriminate.
  - intros Hm. unfold Gibs.serveTile. rewrite Hm. reflexivity.
Qed.

(** The theorem at the request z=0, x=0, y=0: the zoom-0 tile is refused. *)
Lemma zoom_zero_tile_is_refused :
  Gibs.GET (Sample.gibsWorld Sample.healthy) [("z", "0"); ("x", "0"); ("y", "0")]
  = JS.Ret (Http.errorJson 400 "Missing tile coordinates (z, x, y)").
Proof.
  apply (proj2 (proj1 (missing_coordinates_answer (Sample.gibsWorld Sample.healthy)
                         [("z", "0"); ("x", "0"); ("y", "0")]))).
  repeat split; right; reflexivity.
Defined.

(** Against C10 as stated: a request with no coordinate at all does not
    parse to three zeros, since [z] defaults to 8, and it is not answered
    400: the tile 8/0/0 is fetched and returned. *)
Lemma request_without_coordinates_is_served :
  Gibs.z (Gibs.parseTileRequest (Sample.gibsWorld Sample.healthy) []) = JS.Num 8
  /\ Gibs.GET (Sample.gibsWorld Sample.healthy) []
     = JS.Ret (Http.image "image/jpeg"
                 [("x-gibs-layer", "MODIS_Terra_CorrectedReflectance_TrueColor");
                  ("x-gibs-date", "2024-01-08")]
                 (Sample.encode 256 256)).
Proof.
  split; reflexivity.
Qed.

(** ** The tile grid *)

Lemma in_range (m v : Z) : In v (JS.range m) <-> 0 <= v < m.
Proof.
  unfold JS.range. rewrite in_map_iff. split.
  - intros (k & <- & Hk). apply in_seq in Hk. lia.
  - intros Hv. exists (Z.to_nat v). split; [lia|]. apply in_seq. lia.
Qed.

Lemma length_range (m : Z) : List.length (JS.range m) = Z.to_nat m.
Proof.
  unfold JS.range. rewrite length_map, length_seq. reflexivity.
Qed.

Lemma nth_error_range (m : Z) (k : nat) :
  (k < Z.to_nat m)%nat -> nth_error (JS.range m) k = Some (Z.of_nat k).
Proof.
  intros Hk. unfold JS.range.
  rewrite nth_error_map, nth_error_seq.
  destruct (Nat.ltb_spec k (Z.to_nat m)); [reflexivity | lia].
Qed.

(** Entry [i * w + j] of rows of [w] cells each, laid end to end. *)
Lemma nth_error_rows {B : Type} (row : Z -> list B) (w : nat) (rows : list Z) :
  (forall r, In r rows -> List.length (row r) = w) ->
  forall (i j : nat) (r : Z),
    nth_error rows i = Some r -> (j < w)%nat ->
    nth_error (flat_map row rows) (i * w + j) = nth_error (row r) j.
Proof.
  induction rows as [| r0 rows IH]; intros Hlen i j r Hi Hj.
  - destruct i; discriminate.
  - simpl. destruct i as [| i].
    + simpl in Hi. injection Hi as ->. simpl.
      apply nth_error_app1. rewrite Hlen by (left; reflexivity). exact Hj.
    + simpl in Hi.
      rewrite nth_error_app2 by (rewrite Hlen by (left; reflexivity); simpl; lia).
      rewrite Hlen by (left; reflexivity).
      replace (S i * w + j - w)%nat with (i * w + j)%nat by (simpl; lia).
      apply IH; auto. intros r' Hr'. apply Hlen. right. exact Hr'.
Qed.

Lemma length_flat_rows {B : Type} (row : Z -> list B) (w : nat) (rows : list Z) :
  (forall r, In r rows -> List.length (row r) = w) ->
  List.length (flat_map row rows) = (List.length rows * w)%nat.
Proof.
  induction rows as [| r0 rows IH]; intros Hlen; [reflexivity|].
  simpl. rewrite length_app, Hlen by (left; reflexivity).
  rewrite IH; [reflexivity|]. intros r Hr. apply Hlen. right. exact Hr.
Qed.

(** The grid of a request whose resolution and tile indices are numbers. *)
Lemma tileCoords_unfold (rq : Gibs.TileRequest) (res cx cy : Z) :
  Gibs.resolution rq = JS.Num res ->
  Gibs.x rq = JS.Num cx -> Gibs.y rq = JS.Num cy ->
  let t := - (- res / 256) in
  Gibs.tilesPerSide rq = JS.Num t /\
  Gibs.half rq = JS.Num (t / 2) /\
  Gibs.tileCoords rq
  = flat_map
      (fun dy => map (fun dx => (JS.Num (cx - t / 2 + dx), JS.Num (cy - t / 2 + dy)))
                     (JS.range t))
      (JS.range t).
Proof.
  intros Hres Hx Hy t.
  assert (Ht : Gibs.tilesPerSide rq = JS.Num t).
  { unfold Gibs.tilesPerSide. rewrite Hres. reflexivity. }
  assert (Hh : Gibs.half rq = JS.Num (t / 2)).
  { unfold Gibs.half. rewrite Ht. reflexivity. }
  split; [exact Ht|]. split; [exact Hh|].
  unfold Gibs.tileCoords, Gibs.startX, Gibs.startY.
  rewrite Ht, Hh, Hx, Hy. reflexivity.
Qed.

Lemma length_tileUrls (rq : Gibs.TileRequest) (t : Z) :
  Gibs.tilesPerSide rq = JS.Num t ->
  List.length (Gibs.tileUrls rq) = (Z.to_nat t * Z.to_nat t)%nat.
Proof.
  intros Ht. unfold Gibs.tileUrls, Gibs.tileCoords. rewrite length_map, Ht. simpl.
  rewrite (length_flat_rows _ (Z.to_nat t)).
  - rewrite length_range. reflexivity.
  - intros r _. rewrite length_map. apply length_range.
Qed.

(** [- (- res / 256)] is the least [t] with [res <= 256 * t]. *)
Lemma ceil_256 (res : Z) :
  let t := - (- res / 256) in 256 * (t - 1) < res <= 256 * t.
Proof.
  intros t. subst t.
  pose proof (Z.div_mod (- res) 256 ltac:(lia)) as Hd.
  pose proof (Z.mod_pos_bound (- res) 256 ltac:(lia)) as Hm.
  lia.
Qed.

(** C3, as the code has it.  Above 256 pixels the compositor builds a grid
    of [t] by [t] tiles with [t = ceil(resolution / 256)], pushed row by
    row, whose first tile lies [floor(t / 2)] columns and rows before the
    requested tile.  For an even [t] the grid therefore runs from
    [centre - t/2] to [centre + t/2 - 1] in both directions: the extra
    tile is on the side of the smaller indices, not of the larger ones.
    For an odd [t] the requested tile is in the middle.  The indices are
    doubles in the route: [x - half + dx] is the exact integer as long as
    the index and the resolution stay within the safe integers,
    [|x| + resolution <= 2^53], which the two hypotheses say. *)
Theorem grid_reaches_further_to_the_smaller_indices
  (rq : Gibs.TileRequest) (res cx cy : Z) :
  Gibs.resolution rq = JS.Num res ->
  256 < res ->
  Gibs.x rq = JS.Num cx ->
  Gibs.y rq = JS.Num cy ->
  Z.abs cx + res <= 2 ^ 53 ->
  Z.abs cy + res <= 2 ^ 53 ->
  exists t,
    Gibs.tilesPerSide rq = JS.Num t /\
    256 * (t - 1) < res <= 256 * t /\
    Gibs.half rq = JS.Num (t / 2) /\
    List.length (Gibs.tileCoords rq) = Z.to_nat (t * t) /\
    (forall dx dy, 0 <= dx < t -> 0 <= dy < t ->
       nth_error (Gibs.tileCoords rq) (Z.to_nat (dy * t + dx))
       = Some (JS.Num (cx - t / 2 + dx), JS.Num (cy - t / 2 + dy))) /\
    (Z.even t = true ->
       forall a b, In (JS.Num a, JS.Num b) (Gibs.tileCoords rq)
                   <-> cx - t / 2 <= a <= cx + t / 2 - 1
                       /\ cy - t / 2 <= b <= cy + t / 2 - 1) /\
    (Z.odd t = true ->
       forall a b, In (JS.Num a, JS.Num b) (Gibs.tileCoords rq)
                   <-> cx - t / 2 <= a <= cx + t / 2
                       /\ cy - t / 2 <= b <= cy + t / 2).
Proof.
  intros Hres Hbig Hx Hy _ _.
  destruct (tileCoords_unfold rq res cx cy Hres Hx Hy) as (Ht & Hh & Hgrid).
  pose proof (ceil_256 res) as Hceil. cbv zeta in *.
  set (t := - (- res / 256)) in *.
  exists t. split; [exact Ht|]. split; [exact Hceil|]. split; [exact Hh|].
  assert (Ht2 : 2 <= t) by lia.
  assert (Hrow : forall r, In r (JS.range t) ->
            List.length
              (map (fun dx => (JS.Num (cx - t / 2 + dx), JS.Num (cy - t / 2 + r)))
                   (JS.range t)) = Z.to_nat t).
  { intros r _. rewrite length_map. apply length_range. }
  assert (Hin : forall a b, In (JS.Num a, JS.Num b) (Gibs.tileCoords rq)
                  <-> (cx - t / 2 <= a < cx - t / 2 + t)
                      /\ (cy - t / 2 <= b < cy - t / 2 + t)).
  { intros a b. rewrite Hgrid, in_flat_map. split.
    - intros (dy & Hdy & Hab). apply in_map_iff in Hab.
      destruct Hab as (dx & Heq & Hdx). injection Heq as <- <-.
      apply in_range in Hdy. apply in_range in Hdx. lia.
    - intros [Ha Hb]. exists (b - (cy - t / 2)). split; [apply in_range; lia|].
      apply in_map_iff. exists (a - (cx - t / 2)). split; [| apply in_range; lia].
      f_equal; f_equal; lia. }
  split; [| split; [| split]].
  - rewrite Hgrid, (length_flat_rows _ (Z.to_nat t)) by exact Hrow.
    rewrite length_range. lia.
  - intros dx dy Hdx Hdy. rewrite Hgrid.
    replace (Z.to_nat (dy * t + dx)) with (Z.to_nat dy * Z.to_nat t + Z.to_nat dx)%nat
      by nia.
    rewrite (nth_error_rows _ (Z.to_nat t) (JS.range t) Hrow _ _ dy).
    + rewrite nth_error_map, nth_error_range by lia. simpl.
      rewrite Z2Nat.id by lia. reflexivity.
    + rewrite nth_error_range by lia. rewrite Z2Nat.id by lia. reflexivity.
    + lia.
  - intros Heven a b. rewrite Hin.
    apply Z.even_spec in Heven. destruct Heven as [k Hk].
    replace (t / 2) with k by (apply Z.div_unique with (r := 0); lia). lia.
  - intros Hodd a b. rewrite Hin.
    apply Z.odd_spec in Hodd. destruct Hodd as [k Hk].
    replace (t / 2) with k by (apply Z.div_unique with (r := 1); lia). lia.
Qed.

(** The theorem at the request for 512 pixels around tile (10, 20): a
    grid of 2 by 2 tiles whose first tile is (9, 19). *)
Lemma grid_of_the_512_request :
  256 < 512 /\ Z.abs 10 + 512 <= 2 ^ 53 /\ Z.abs 20 + 512 <= 2 ^ 53 /\
  exists t,
    Gibs.tilesPerSide Sample.grid512 = JS.Num t /\
    256 * (t - 1) < 512 <= 256 * t /\
    List.length (Gibs.tileCoords Sample.grid512) = Z.to_nat (t * t) /\
    (forall dx dy, 0 <= dx < t -> 0 <= dy < t ->
       nth_error (Gibs.tileCoords Sample.grid512) (Z.to_nat (dy * t + dx))
       = Some (JS.Num (10 - t / 2 + dx), JS.Num (20 - t / 2 + dy))).
Proof.
  split; [lia|]. split; [vm_compute; discriminate|]. split; [vm_compute; discriminate|].
  destruct (grid_reaches_further_to_the_smaller_indices Sample.grid512 512 10 20
              eq_refl ltac:(lia) eq_refl eq_refl
              ltac:(vm_compute; discriminate) ltac:(vm_compute; discriminate))
    as (t & Ht & Hceil & _ & Hlen & Hnth & _).
  exists t. auto.
Defined.

(** Against C3 as stated: the 2 by 2 grid around tile (10, 20) is made of
    the columns 9 and 10 and the rows 19 and 20.  No tile lies east or
    south of the requested one (larger index); two lie west of it and two
    north of it (smaller index). *)
Lemma even_grid_has_no_tile_beyond_the_centre :
  Gibs.tileCoords Sample.grid512
  = [(JS.Num 9, JS.Num 19); (JS.Num 10, JS.Num 19);
     (JS.Num 9, JS.Num 20); (JS.Num 10, JS.Num 20)]
  /\ Gibs.eastOf Sample.grid512 = []
  /\ Gibs.southOf Sample.grid512 = []
  /\ Gibs.westOf Sample.grid512 = [(JS.Num 9, JS.Num 19); (JS.Num 9, JS.Num 20)]
  /\ Gibs.northOf Sample.grid512 = [(JS.Num 9, JS.Num 19); (JS.Num 10, JS.Num 19)].
Proof.
  repeat split; reflexivity.
Qed.

(** ** Tile failures in the compositor *)

Lemma Promise_all_rejected {A : Type} (ps : list (JS.Outcome A)) (e : JS.Exn) :
  In (JS.Throw e) ps -> exists e', JS.Promise_all ps = JS.Throw e'.
Proof.
  induction ps as [| p ps IH]; intros Hin; [destruct Hin|].
  simpl. destruct Hin as [-> | Hin]; [eauto|].
  destruct p as [a | e0]; [| eauto].
  destruct (IH Hin) as [e' ->]. eauto.
Qed.

(** When every fetch gets a reply, [Promise.all] resolves, and entry [idx]
    holds the body of a reply that is ok and [null] for any other reply. *)
Lemma tilePromises_settle (W : Gibs.World) (urls : list string) :
  (forall url, In url urls -> exists r, Gibs.fetch W url = JS.Ret r) ->
  exists tileBuffers,
    JS.Promise_all (map (Gibs.tilePromise W) urls) = JS.Ret tileBuffers /\
    List.length tileBuffers = List.length urls /\
    (forall idx url r,
       nth_error urls idx = Some url -> Gibs.fetch W url = JS.Ret r ->
       nth_error tileBuffers idx
       = Some (if Http.ok r then Some (Http.reply_body r) else None)).
Proof.
  induction urls as [| u urls IH]; intros Hall.
  - exists []. repeat split. intros [|?] ? ? H; discriminate.
  - destruct IH as (bufs & Hp & Hlen & Hnth).
    { intros url Hin. apply Hall. right. exact Hin. }
    destruct (Hall u (or_introl eq_refl)) as [r Hr].
    exists ((if Http.ok r then Some (Http.reply_body r) else None) :: bufs).
    split; [| split].
    + simpl. unfold Gibs.tilePromise at 1. rewrite Hr. simpl. rewrite Hp. reflexivity.
    + simpl. rewrite Hlen. reflexivity.
    + intros [| idx] url r' Hu Hf; simpl in *.
      * injection Hu as <-. rewrite Hr in Hf. injection Hf as <-. reflexivity.
      * eapply Hnth; eauto.
Qed.

Lemma fillRow_cells (tileBuffers : list (option Http.Buffer)) (w : nat) (idx : Z) :
  Gibs.fillRow tileBuffers w idx
  = (map (fun dx => Gibs.cell tileBuffers (idx + Z.of_nat dx)) (seq 0 w),
     idx + Z.of_nat w).
Proof.
  revert idx. induction w as [| w IH]; intros idx.
  - simpl. rewrite Z.add_0_r. reflexivity.
  - cbn [Gibs.fillRow]. rewrite IH. cbn [seq map].
    rewrite <- seq_shift, map_map. f_equal.
    + rewrite Z.add_0_r. f_equal. apply map_ext. intros dx. f_equal. lia.
    + lia.
Qed.

Lemma fillRows_cells (tileBuffers : list (option Http.Buffer)) (w m : nat) (idx : Z) :
  Gibs.fillRows tileBuffers w m idx
  = map (fun dy =>
           map (fun dx =>
                  Gibs.cell tileBuffers
                    (idx + Z.of_nat dy * Z.of_nat w + Z.of_nat dx))
               (seq 0 w))
        (seq 0 m).
Proof.
  revert idx. induction m as [| m IH]; intros idx; [reflexivity|].
  cbn [Gibs.fillRows]. rewrite fillRow_cells, IH. cbn [seq map].
  rewrite <- seq_shift, map_map. f_equal.
  - apply map_ext. intros dx. f_equal. lia.
  - apply map_ext. intros dy. apply map_ext. intros dx. f_equal. lia.
Qed.

(** The counter [idx] visits the cells in row-major order: the cell of
    row [dy] and column [dx] reads entry [dy * tilesPerSide + dx]. *)
Lemma images_row_major (t : Z) (tileBuffers : list (option Http.Buffer)) :
  0 <= t ->
  Gibs.images t tileBuffers
  = map (fun dy => map (fun dx => Gibs.cell tileBuffers (dy * t + dx)) (JS.range t))
        (JS.range t).
Proof.
  intros Ht. unfold Gibs.images, JS.range. rewrite fillRows_cells, !map_map.
  apply map_ext. intros dy. rewrite map_map. apply map_ext. intros dx.
  f_equal. rewrite Z2Nat.id by lia. lia.
Qed.

Lemma cell_of_entry (tileBuffers : list (option Http.Buffer)) (idx : nat)
  (entry : option Http.Buffer) :
  nth_error tileBuffers idx = Some entry ->
  Gibs.cell tileBuffers (Z.of_nat idx)
  = match entry with Some buf => buf | None => Gibs.placeholder end.
Proof.
  intros H. unfold Gibs.cell. rewrite Nat2Z.id, H. reflexivity.
Qed.

(** The stitching branch is the one taken above 256 pixels. *)
Lemma serveTile_above_256 (W : Gibs.World) (rq : Gibs.TileRequest) (res : Z) :
  Gibs.resolution rq = JS.Num res -> 256 < res ->
  Gibs.missingCoordinates rq = false ->
  Gibs.serveTile W rq = Gibs.stitched W rq res (- (- res / 256)).
Proof.
  intros Hres Hbig Hm. unfold Gibs.serveTile, Gibs.tilesPerSide.
  rewrite Hm, Hres. simpl.
  destruct (256 <? res) eqn:H; [reflexivity|]. apply Z.ltb_ge in H. lia.
Qed.

(** The placeholder is 256 * 256 * 3 bytes, all of them 0xff. *)
Lemma placeholder_is_white :
  List.length Gibs.placeholder = Z.to_nat (256 * 256 * 3)
  /\ Forall (fun byte => byte = 255) Gibs.placeholder.
Proof.
  unfold Gibs.placeholder, Http.Buffer_alloc. split.
  - apply repeat_length.
  - apply Forall_forall. intros b Hb. exact (repeat_spec _ _ _ Hb).
Qed.

Lemma Promise_all_settled (W : Gibs.World) (urls : list string)
  (tileBuffers : list (option Http.Buffer)) :
  JS.Promise_all (map (Gibs.tilePromise W) urls) = JS.Ret tileBuffers ->
  forall url, In url urls -> exists r, Gibs.fetch W url = JS.Ret r.
Proof.
  intros Hp url Hin.
  destruct (Gibs.fetch W url) as [r | e] eqn:Hf; [eauto|].
  destruct (Promise_all_rejected (map (Gibs.tilePromise W) urls) e) as [e' He'].
  - apply in_map_iff. exists url. split; [| exact Hin].
    unfold Gibs.tilePromise. rewrite Hf. reflexivity.
  - rewrite He' in Hp. discriminate Hp.
Qed.

Lemma mapM_rejected {A B : Type} (f : A -> JS.Outcome B) (l : list A) (a : A) (e : JS.Exn) :
  In a l -> f a = JS.Throw e -> exists e', JS.mapM f l = JS.Throw e'.
Proof.
  induction l as [| x l IH]; intros Hin Hf; [destruct Hin|].
  cbn [JS.mapM]. destruct (f x) as [b | e0] eqn:Hx; cbn [JS.bind]; [| eauto].
  destruct Hin as [-> | Hin]; [congruence|].
  destruct (IH Hin Hf) as [e' ->]. cbn [JS.bind]. eauto.
Qed.

(** A row that holds the raw placeholder is refused by such a codec. *)
Lemma stitchRow_refused (S : Http.Sharp) (t : Z) (row : list Http.Buffer) :
  Codec.refusesRawPixels S -> In Gibs.placeholder row ->
  exists e, Gibs.stitchRow S t row = JS.Throw e.
Proof.
  intros [Hraw Hrefuse] Hin. unfold Gibs.stitchRow. apply Hrefuse.
  unfold JS.mapi.
  set (overlay := fun (buf : Http.Buffer) (i : Z) =>
                    {| Http.input := buf; Http.left := i * 256; Http.top := 0 |}).
  generalize 0.
  induction row as [| buf row IH]; intros k; [destruct Hin|].
  cbn [JS.mapi_from]. destruct Hin as [-> | Hin].
  - apply Exists_cons_hd. exact Hraw.
  - apply Exists_cons_tl. apply IH. exact Hin.
Qed.

(** The cell of entry [idx] lies in the grid, for [idx] below [t * t]. *)
Lemma cell_in_images (t : Z) (tileBuffers : list (option Http.Buffer)) (idx : nat) :
  (idx < Z.to_nat t * Z.to_nat t)%nat ->
  exists row, In row (Gibs.images t tileBuffers)
              /\ In (Gibs.cell tileBuffers (Z.of_nat idx)) row.
Proof.
  intros Hidx.
  assert (Ht : 0 < t) by lia.
  rewrite (images_row_major t tileBuffers) by lia.
  set (dy := Z.of_nat idx / t). set (dx := Z.of_nat idx mod t).
  assert (Hdx : 0 <= dx < t) by (apply Z.mod_pos_bound; lia).
  assert (Hdy : 0 <= dy < t).
  { split; [apply Z.div_pos; lia|]. apply Z.div_lt_upper_bound; nia. }
  exists (map (fun dx0 => Gibs.cell tileBuffers (dy * t + dx0)) (JS.range t)). split.
  - apply in_map_iff. exists dy. split; [reflexivity | apply in_range; exact Hdy].
  - apply in_map_iff. exists dx. split; [| apply in_range; exact Hdx].
    f_equal. unfold dy, dx. pose proof (Z.div_mod (Z.of_nat idx) t ltac:(lia)). lia.
Qed.

(** C2, against the code.  In the compositor (a request for more than
    256 pixels, up to the 2048 the explorer asks for) a failed tile fetch
    is not absorbed.  When the fetch of one tile is rejected,
    [Promise.all] is rejected and the request is answered with the 500
    error "Failed to stitch GIBS tiles.".  When a tile is answered with a
    status that is not a success, the grid receives the raw bytes of
    [Buffer.alloc(256 * 256 * 3, 0xff)] in its place; handed to a codec
    that reads overlays as encoded images, as sharp does, the row with
    that cell is refused and the request is answered with the same 500
    error.  In both cases one failed tile aborts the whole composite. *)
Theorem a_failed_tile_aborts_the_composite
  (W : Gibs.World) (rq : Gibs.TileRequest) (res : Z) :
  Gibs.resolution rq = JS.Num res ->
  256 < res <= 2048 ->
  Gibs.missingCoordinates rq = false ->
  ((exists url e, In url (Gibs.tileUrls rq) /\ Gibs.fetch W url = JS.Throw e) ->
   Gibs.serveTile W rq = JS.Ret (Http.errorJson 500 "Failed to stitch GIBS tiles."))
  /\ (Codec.refusesRawPixels (Gibs.sharp W) ->
      (exists url r, In url (Gibs.tileUrls rq)
                     /\ Gibs.fetch W url = JS.Ret r /\ Http.ok r = false) ->
      Gibs.serveTile W rq = JS.Ret (Http.errorJson 500 "Failed to stitch GIBS tiles.")).
Proof.
  intros Hres [Hbig _] Hm.
  rewrite (serveTile_above_256 W rq res Hres Hbig Hm).
  set (t := - (- res / 256)).
  assert (Ht : Gibs.tilesPerSide rq = JS.Num t).
  { unfold Gibs.tilesPerSide. rewrite Hres. reflexivity. }
  unfold Gibs.stitched. cbv zeta. split.
  - intros (url & e & Hin & Hf).
    destruct (Promise_all_rejected (Gibs.tilePromises W rq) e) as [e' He'].
    { unfold Gibs.tilePromises. apply in_map_iff. exists url. split; [| exact Hin].
      unfold Gibs.tilePromise. rewrite Hf. reflexivity. }
    rewrite He'. reflexivity.
  - intros Hcodec (url & r & Hin & Hf & Hok).
    destruct (JS.Promise_all (Gibs.tilePromises W rq)) as [tileBuffers | e] eqn:Hp;
      [| reflexivity].
    cbn [JS.bind JS.try_catch].
    (* the entry of the failed tile is null, its cell the raw placeholder *)
    unfold Gibs.tilePromises in Hp.
    pose proof (Promise_all_settled W (Gibs.tileUrls rq) tileBuffers Hp) as Hall.
    destruct (tilePromises_settle W (Gibs.tileUrls rq) Hall) as (bufs & Hp' & _ & Hnth).
    rewrite Hp in Hp'. injection Hp' as <-.
    destruct (In_nth_error _ _ Hin) as [idx Hidx].
    pose proof (Hnth idx url r Hidx Hf) as Hentry. rewrite Hok in Hentry.
    pose proof (cell_of_entry tileBuffers idx _ Hentry) as Hcell. cbv iota in Hcell.
    assert (Hlt : (idx < Z.to_nat t * Z.to_nat t)%nat).
    { rewrite <- (length_tileUrls rq t Ht). apply nth_error_Some. congruence. }
    destruct (cell_in_images t tileBuffers idx Hlt) as (row & Hrow & Hc).
    rewrite Hcell in Hc.
    destruct (stitchRow_refused (Gibs.sharp W) t row Hcodec Hc) as [e He].
    destruct (mapM_rejected (Gibs.stitchRow (Gibs.sharp W) t)
                (Gibs.images t tileBuffers) row e Hrow He) as [e' He'].
    unfold Gibs.stitch. rewrite He'. reflexivity.
Qed.

(** The sample codec is one that refuses raw pixels. *)
Lemma sample_codec_refuses_raw_pixels : Codec.refusesRawPixels Sample.sharp.
Proof.
  split; [reflexivity|].
  intros c os rz Hex. exists JS.LibraryError.
  cbn [Http.toBuffer Sample.sharp]. unfold Sample.toBuffer.
  replace (forallb (Sample.fitsb c) os) with false; [reflexivity|].
  symmetry. induction Hex as [o os Ho | o os _ IH]; cbn [forallb].
  - unfold Sample.fitsb. cbn [Http.imageSize Sample.sharp] in Ho. rewrite Ho. reflexivity.
  - rewrite IH. apply andb_false_r.
Qed.

(** The theorem at the 2 by 2 grid whose top-left tile is answered 404,
    the other three being served: no composite is returned. *)
Lemma a_404_tile_aborts_the_composite :
  Gibs.fetch (Sample.gibsWorld (Sample.notFoundAt Sample.topLeft)) Sample.topLeft
  = JS.Ret (Http.mkReply 404 [])
  /\ Gibs.serveTile (Sample.gibsWorld (Sample.notFoundAt Sample.topLeft)) Sample.grid512
     = JS.Ret (Http.errorJson 500 "Failed to stitch GIBS tiles.").
Proof.
  split; [reflexivity|].
  apply (proj2 (a_failed_tile_aborts_the_composite
                  (Sample.gibsWorld (Sample.notFoundAt Sample.topLeft)) Sample.grid512 512
                  eq_refl ltac:(lia) eq_refl)).
  - exact sample_codec_refuses_raw_pixels.
  - exists Sample.topLeft, (Http.mkReply 404 []).
    split; [left; reflexivity | split; reflexivity].
Defined.

(** The same grid with its top-left tile unreachable (the fetch is
    rejected): no composite is returned either. *)
Lemma one_unreachable_tile_aborts_the_composite :
  In Sample.topLeft (Gibs.tileUrls Sample.grid512)
  /\ Gibs.fetch (Sample.gibsWorld (Sample.unreachableAt Sample.topLeft)) Sample.topLeft
     = JS.Throw JS.NetworkError
  /\ Gibs.serveTile (Sample.gibsWorld (Sample.unreachableAt Sample.topLeft)) Sample.grid512
     = JS.Ret (Http.errorJson 500 "Failed to stitch GIBS tiles.").
Proof.
  split; [left; reflexivity | split; reflexivity].
Qed.

(** ** The size of the compositor's output *)

Lemma mapM_all {A B : Type} (f : A -> JS.Outcome B) (P : B -> Prop) (l : list A) :
  (forall a, In a l -> exists b, f a = JS.Ret b /\ P b) ->
  exists bs, JS.mapM f l = JS.Ret bs /\ Forall P bs /\ List.length bs = List.length l.
Proof.
  induction l as [| a l IH]; intros Hall.
  - exists []. repeat split. constructor.
  - destruct (Hall a (or_introl eq_refl)) as (b & Hb & HP).
    destruct IH as (bs & Hbs & HPs & Hlen).
    { intros a' Ha'. apply Hall. right. exact Ha'. }
    exists (b :: bs). simpl. rewrite Hb. simpl. rewrite Hbs. simpl.
    repeat split; [constructor; assumption | congruence].
Qed.

Section Stitching.

Variable S : Http.Sharp.
Hypothesis contract : Http.SharpContract S.

Lemma overlays_fit (c : Http.Create) (place : Http.Buffer -> Z -> Http.Overlay)
  (bufs : list Http.Buffer) :
  (forall buf i, Http.input (place buf i) = buf) ->
  Forall (fun buf => exists w h, Http.imageSize S buf = Some (w, h)
                                 /\ w <= Http.width c /\ h <= Http.height c) bufs ->
  Forall (Http.fits S c) (JS.mapi place bufs).
Proof.
  intros Hin Hall. unfold JS.mapi. generalize 0 as i.
  induction Hall as [| buf bufs Hbuf _ IH]; intros i; simpl; constructor.
  - unfold Http.fits. rewrite Hin. exact Hbuf.
  - apply IH.
Qed.

Lemma stitchRow_succeeds (t : Z) (row : list Http.Buffer) :
  1 <= t ->
  Forall (fun buf => Http.imageSize S buf = Some (256, 256)) row ->
  exists rowImg, Gibs.stitchRow S t row = JS.Ret rowImg
                 /\ Http.imageSize S rowImg = Some (256 * t, 256).
Proof.
  intros Ht Hrow. unfold Gibs.stitchRow.
  match goal with |- context [Http.toBuffer S ?c ?os None] =>
    destruct (Http.composite_succeeds S contract c os None) as [b Hb]
  end.
  - left. reflexivity.
  - apply overlays_fit; [reflexivity|].
    eapply Forall_impl; [| exact Hrow]. intros buf Hbuf.
    exists 256, 256. cbn [Http.width Http.height].
    repeat split; [exact Hbuf | lia | lia].
  - exists b. split; [exact Hb|].
    apply (Http.output_size S contract) in Hb. exact Hb.
Qed.

Lemma stitchColumns_succeeds (t : Z) (stitchedRows : list Http.Buffer) :
  1 <= t ->
  Forall (fun buf => Http.imageSize S buf = Some (256 * t, 256)) stitchedRows ->
  exists img, Gibs.stitchColumns S t (256 * t) stitchedRows = JS.Ret img
              /\ Http.imageSize S img = Some (256 * t, 256 * t).
Proof.
  intros Ht Hrows. unfold Gibs.stitchColumns.
  match goal with |- context [Http.toBuffer S ?c ?os ?rz] =>
    destruct (Http.composite_succeeds S contract c os rz) as [b Hb]
  end.
  - right. reflexivity.
  - apply overlays_fit; [reflexivity|].
    eapply Forall_impl; [| exact Hrows]. intros buf Hbuf.
    exists (256 * t), 256. cbn [Http.width Http.height].
    repeat split; [exact Hbuf | lia | lia].
  - exists b. split; [exact Hb|].
    apply (Http.output_size S contract) in Hb. exact Hb.
Qed.

(** Whatever the tiles, an image that comes out of the stitching branch
    has the size given to [resize]. *)
Lemma stitched_image_size (W : Gibs.World) (rq : Gibs.TileRequest) (res t : Z)
  (contentType : string) (hs : list (string * string)) (img : Http.Buffer) :
  Gibs.sharp W = S ->
  Gibs.stitched W rq res t = JS.Ret (Http.image contentType hs img) ->
  Http.imageSize S img = Some (res, res).
Proof.
  intros HS. unfold Gibs.stitched. cbv zeta. rewrite HS.
  destruct (JS.Promise_all (Gibs.tilePromises W rq)) as [bufs | e];
    cbn [JS.bind JS.try_catch]; [| discriminate].
  unfold Gibs.stitch.
  destruct (JS.mapM (Gibs.stitchRow S t) (Gibs.images t bufs)) as [rows | e];
    cbn [JS.bind JS.try_catch]; [| discriminate].
  destruct (Gibs.stitchColumns S t res rows) as [finalImg | e] eqn:Hcol;
    cbn [JS.bind JS.try_catch]; [| discriminate].
  intros H. injection H as _ _ <-.
  unfold Gibs.stitchColumns in Hcol.
  apply (Http.output_size S contract) in Hcol. exact Hcol.
Qed.

End Stitching.

(** With every tile served at the native size, every cell of the grid
    is a native tile. *)
Lemma images_of_served_tiles (W : Gibs.World) (rq : Gibs.TileRequest) (t : Z)
  (tileBuffers : list (option Http.Buffer)) :
  Gibs.tilesPerSide rq = JS.Num t ->
  0 <= t ->
  (forall url, In url (Gibs.tileUrls rq) ->
     exists r, Gibs.fetch W url = JS.Ret r /\ Http.ok r = true /\
               Http.imageSize (Gibs.sharp W) (Http.reply_body r) = Some (256, 256)) ->
  (forall idx url r,
     nth_error (Gibs.tileUrls rq) idx = Some url -> Gibs.fetch W url = JS.Ret r ->
     nth_error tileBuffers idx
     = Some (if Http.ok r then Some (Http.reply_body r) else None)) ->
  forall row, In row (Gibs.images t tileBuffers) ->
    Forall (fun buf => Http.imageSize (Gibs.sharp W) buf = Some (256, 256)) row.
Proof.
  intros Ht Hpos Hserved Hnth row Hrow.
  rewrite images_row_major in Hrow by exact Hpos. apply in_map_iff in Hrow.
  destruct Hrow as (dy & <- & Hdy). apply in_range in Hdy.
  apply Forall_forall. intros buf Hbuf. apply in_map_iff in Hbuf.
  destruct Hbuf as (dx & <- & Hdx). apply in_range in Hdx.
  assert (Hidx : (Z.to_nat (dy * t + dx) < List.length (Gibs.tileUrls rq))%nat).
  { rewrite (length_tileUrls rq t Ht). nia. }
  destruct (nth_error (Gibs.tileUrls rq) (Z.to_nat (dy * t + dx))) as [url |] eqn:Hu.
  - destruct (Hserved url (nth_error_In _ _ Hu)) as (r & Hf & Hok & Hsize).
    pose proof (Hnth _ url r Hu Hf) as Hentry. rewrite Hok in Hentry.
    unfold Gibs.cell. rewrite Hentry. exact Hsize.
  - apply nth_error_None in Hu. lia.
Qed.

(** The stitching branch on a resolution that is a whole number of tiles. *)
Lemma stitched_multiple_of_256 (W : Gibs.World) (rq : Gibs.TileRequest) (t : Z) :
  Http.SharpContract (Gibs.sharp W) ->
  2 <= t ->
  Gibs.resolution rq = JS.Num (256 * t) ->
  Gibs.missingCoordinates rq = false ->
  (forall url, In url (Gibs.tileUrls rq) ->
     exists r, Gibs.fetch W url = JS.Ret r /\ Http.ok r = true /\
               Http.imageSize (Gibs.sharp W) (Http.reply_body r) = Some (256, 256)) ->
  exists img tileBuffers stitchedRows,
    Gibs.serveTile W rq = JS.Ret (Http.image "image/jpeg" (Gibs.tileHeaders rq) img) /\
    Http.imageSize (Gibs.sharp W) img = Some (256 * t, 256 * t) /\
    Gibs.tilesPerSide rq = JS.Num t /\
    JS.Promise_all (Gibs.tilePromises W rq) = JS.Ret tileBuffers /\
    JS.mapM (Gibs.stitchRow (Gibs.sharp W) t) (Gibs.images t tileBuffers)
    = JS.Ret stitchedRows /\
    List.length stitchedRows = Z.to_nat t /\
    Forall (fun rowImg => Http.imageSize (Gibs.sharp W) rowImg = Some (256 * t, 256))
           stitchedRows /\
    Gibs.stitchColumns (Gibs.sharp W) t (256 * t) stitchedRows = JS.Ret img.
Proof.
  intros Hc Ht Hres Hm Hserved.
  assert (Hceil : - (- (256 * t) / 256) = t).
  { replace (- (256 * t)) with ((- t) * 256) by lia. rewrite Z.div_mul; lia. }
  assert (Htps : Gibs.tilesPerSide rq = JS.Num t).
  { unfold Gibs.tilesPerSide. rewrite Hres. unfold JS.ceil_div.
    rewrite Hceil. reflexivity. }
  destruct (tilePromises_settle W (Gibs.tileUrls rq)) as (bufs & Hp & Hlen & Hnth).
  { intros url Hin. destruct (Hserved url Hin) as (r & Hr & _). eauto. }
  destruct (mapM_all (Gibs.stitchRow (Gibs.sharp W) t)
              (fun rowImg => Http.imageSize (Gibs.sharp W) rowImg = Some (256 * t, 256))
              (Gibs.images t bufs)) as (rows & Hrows & Hsizes & Hrlen).
  { intros row Hrow. apply (stitchRow_succeeds _ Hc); [lia|].
    exact (images_of_served_tiles W rq t bufs Htps ltac:(lia) Hserved Hnth row Hrow). }
  destruct (stitchColumns_succeeds _ Hc t rows) as (img & Himg & Hsize);
    [lia | exact Hsizes |].
  exists img, bufs, rows.
  split; [| repeat split; auto].
  - rewrite (serveTile_above_256 W rq (256 * t) Hres ltac:(lia) Hm), Hceil.
    unfold Gibs.stitched. cbv zeta. unfold Gibs.tilePromises. rewrite Hp.
    cbn [JS.bind]. unfold Gibs.stitch. rewrite Hrows. cbn [JS.bind].
    rewrite Himg. reflexivity.
  - rewrite Hrlen, images_row_major by lia. rewrite length_map. apply length_range.
Qed.

(** C1.  Under sharp's contract, for a request whose coordinates pass the
    check: above 256 pixels, any image the compositor returns has exactly
    the requested width and height, the square canvas of 256 *
    tilesPerSide pixels being resized to them; and for each of the
    resolutions 256, 512, 1024 and 2048, when the provider serves every
    tile at its native 256 by 256 size, the compositor does return an
    image, of exactly the requested size.  At 256 that image is the
    single tile as the provider sent it; above, it is the output of the
    stitching of [tilesPerSide] rows of [256 * tilesPerSide] by 256. *)
Theorem compositor_output_has_the_requested_size
  (W : Gibs.World) (rq : Gibs.TileRequest) (res : Z) :
  Http.SharpContract (Gibs.sharp W) ->
  Gibs.resolution rq = JS.Num res ->
  Gibs.missingCoordinates rq = false ->
  (256 < res ->
   forall contentType hs img,
     Gibs.serveTile W rq = JS.Ret (Http.image contentType hs img) ->
     Http.imageSize (Gibs.sharp W) img = Some (res, res))
  /\ (In res [256; 512; 1024; 2048] ->
      (forall url,
         url = Gibs.tileUrl (Gibs.layer rq) (Gibs.date rq) (Gibs.z rq)
                 (Gibs.y rq) (Gibs.x rq)
         \/ In url (Gibs.tileUrls rq) ->
         exists r, Gibs.fetch W url = JS.Ret r /\ Http.ok r = true /\
                   Http.imageSize (Gibs.sharp W) (Http.reply_body r) = Some (256, 256)) ->
      exists img,
        Gibs.serveTile W rq
        = JS.Ret (Http.image "image/jpeg" (Gibs.tileHeaders rq) img) /\
        Http.imageSize (Gibs.sharp W) img = Some (res, res) /\
        (res <= 256 ->
         exists r,
           Gibs.fetch W (Gibs.tileUrl (Gibs.layer rq) (Gibs.date rq) (Gibs.z rq)
                           (Gibs.y rq) (Gibs.x rq)) = JS.Ret r
           /\ img = Http.reply_body r) /\
        (256 < res ->
         exists t tileBuffers stitchedRows,
           Gibs.tilesPerSide rq = JS.Num t /\ 256 * t = res /\
           JS.Promise_all (Gibs.tilePromises W rq) = JS.Ret tileBuffers /\
           JS.mapM (Gibs.stitchRow (Gibs.sharp W) t) (Gibs.images t tileBuffers)
           = JS.Ret stitchedRows /\
           List.length stitchedRows = Z.to_nat t /\
           Forall (fun rowImg =>
                     Http.imageSize (Gibs.sharp W) rowImg = Some (256 * t, 256))
                  stitchedRows /\
           Gibs.stitchColumns (Gibs.sharp W) t res stitchedRows = JS.Ret img)).
Proof.
  intros Hc Hres Hm. split.
  - intros Hbig contentType hs img Hs.
    rewrite (serveTile_above_256 W rq res Hres Hbig Hm) in Hs.
    exact (stitched_image_size (Gibs.sharp W) Hc W rq res _ contentType hs img
             eq_refl Hs).
  - intros Hin Hserved.
    assert (Hcases : res = 256 \/ exists t, 2 <= t /\ res = 256 * t).
    { simpl in Hin. destruct Hin as [<- | [<- | [<- | [<- | []]]]].
      - left. reflexivity.
      - right. exists 2. lia.
      - right. exists 4. lia.
      - right. exists 8. lia. }
    destruct Hcases as [-> | (t & Ht & ->)].
    + destruct (Hserved _ (or_introl eq_refl)) as (r & Hr & Hok & Hsize).
      exists (Http.reply_body r).
      split; [| split; [exact Hsize | split; [eauto | lia]]].
      unfold Gibs.serveTile, Gibs.tilesPerSide, Gibs.singleTile.
      rewrite Hm, Hres. simpl. rewrite Hr. simpl. rewrite Hok. reflexivity.
    + destruct (stitched_multiple_of_256 W rq t Hc Ht Hres Hm)
        as (img & bufs & rows & Hs & Hsize & Htps & Hp & Hrows & Hlen & Hsizes & Hfinal).
      { intros url Hu. apply Hserved. right. exact Hu. }
      exists img. split; [exact Hs|]. split; [exact Hsize|]. split; [lia|].
      intros _. exists t, bufs, rows. repeat split; auto.
Qed.

(** The sample codec keeps to the contract. *)
Lemma sample_sharp_contract : Http.SharpContract Sample.sharp.
Proof.
  split.
  - intros c os rz b. simpl. unfold Sample.toBuffer.
    destruct (forallb (Sample.fitsb c) os); [| discriminate].
    intros H. injection H as <-. destruct rz as [[w h] |]; reflexivity.
  - intros c os rz _ Hfit. simpl. unfold Sample.toBuffer.
    replace (forallb (Sample.fitsb c) os) with true; [eauto|].
    symmetry. apply forallb_forall. intros o Ho.
    rewrite Forall_forall in Hfit. destruct (Hfit o Ho) as (w & h & Hs & Hw & Hh).
    unfold Sample.fitsb. simpl in Hs. rewrite Hs.
    apply andb_true_iff. split; apply Z.leb_le; assumption.
Qed.

(** The theorem at the 2 by 2 grid with every tile served: the composite
    is 512 by 512. *)
Lemma size_of_the_512_composite :
  In 512 [256; 512; 1024; 2048] /\
  exists img,
    Gibs.serveTile (Sample.gibsWorld Sample.healthy) Sample.grid512
    = JS.Ret (Http.image "image/jpeg" (Gibs.tileHeaders Sample.grid512) img)
    /\ Http.imageSize Sample.sharp img = Some (512, 512).
Proof.
  assert (Hin : In 512 [256; 512; 1024; 2048]) by (right; left; reflexivity).
  split; [exact Hin|].
  destruct (proj2 (compositor_output_has_the_requested_size
                     (Sample.gibsWorld Sample.healthy) Sample.grid512 512
                     sample_sharp_contract eq_refl eq_refl) Hin)
    as (img & Hserve & Hsize & _).
  - intros url _. exists Sample.tile. repeat split.
  - exists img. split; [exact Hserve | exact Hsize].
Defined.

(** ** Provider A: the exact-date query, the window and the fallback *)

Lemma failed_query_leaves_nothing (W : Nasa.World) (url : string) :
  Nasa.exactQueryFailed W url ->
  Nasa.parseAssets W (Nasa.exactQuery W url)
  = {| Nasa.availableDates := []; Nasa.closestDate := None; Nasa.assetsError := true |}.
Proof.
  unfold Nasa.parseAssets, Nasa.exactQuery.
  intros [(e & ->) | [(r & -> & Hok) | (r & e & -> & Hok & Hparse)]]; simpl.
  - reflexivity.
  - rewrite Hok. reflexivity.
  - rewrite Hok. simpl. rewrite Hparse. reflexivity.
Qed.

(** The only exception that leaves the handler is the one [formatISO]
    throws on an invalid date. *)
Lemma GET_throws_only_on_invalid_date (W : Nasa.World) (q : Http.Query) (e : JS.Exn) :
  Nasa.GET W q = JS.Throw e ->
  Nasa.window7 W (JS.orElse (Http.get q "date") "") = JS.Throw e.
Proof.
  unfold Nasa.GET. cbv zeta.
  destruct (Nasa.window7 W _) as [range7 | e0]; simpl; [| congruence].
  match goal with |- context [if ?c then _ else _] => destruct c end.
  - unfold Nasa.fetchImage. destruct (Nasa.fetch W _) as [r | e1]; simpl.
    + destruct (Http.ok r); discriminate.
    + discriminate.
  - unfold Nasa.fallback. destruct (Nasa.fetch W _) as [r | e1].
    + destruct (Http.ok r); discriminate.
    + discriminate.
Qed.

(** C7, as the code has it.  When the exact-date query of the asset index
    fails (the fetch is rejected, the reply is not ok, or its text cannot
    be parsed) and the requested date is one [formatISO] can format, the
    handler tries the imagery endpoint directly, at
    [.../planetary/earth/imagery?lon=..&lat=..&date=<requested date>&dim=..&api_key=..].
    If that reply is ok the image is returned, with the requested date as
    metadata; only if the fallback fails as well (a reply that is not ok,
    or a rejected fetch) is an error returned, and this error is the 404
    JSON answer with the readable reason "No imagery available for this
    date/location.".  A rejected fetch never leaves the handler as an
    exception.  For a date [formatISO] refuses, a missing one included,
    the handler throws that [RangeError] instead: it is the one
    exception the handler can raise, and it is raised whatever the
    upstream servers answer. *)
Theorem exact_query_failure_falls_back (W : Nasa.World) (q : Http.Query) :
  let lat := Nasa.floatText W (JS.orElse (Http.get q "lat") "0") in
  let lon := Nasa.floatText W (JS.orElse (Http.get q "lon") "0") in
  let date := JS.orElse (Http.get q "date") "" in
  let dim := Nasa.floatText W (JS.orElse (Http.get q "dim") "0.2") in
  let exact :=
    "https://api.nasa.gov/planetary/earth/assets?lon=" ++ lon ++ "&lat=" ++ lat
    ++ "&begin=" ++ date ++ "&end=" ++ date ++ "&dim=" ++ dim
    ++ "&api_key=" ++ Nasa.apiKey W in
  let imagery :=
    "https://api.nasa.gov/planetary/earth/imagery?lon=" ++ lon ++ "&lat=" ++ lat
    ++ "&date=" ++ date ++ "&dim=" ++ dim ++ "&api_key=" ++ Nasa.apiKey W in
  (Nasa.exactQueryFailed W exact ->
   forall range7, Nasa.window7 W date = JS.Ret range7 ->
     let availableDates7 :=
       Nasa.windowQuery W
         (Nasa.assetsUrl (Nasa.apiKey W) lon lat (fst range7) (snd range7) dim) in
     (forall r, Nasa.fetch W imagery = JS.Ret r -> Http.ok r = true ->
        Nasa.GET W q
        = JS.Ret (Http.image "image/png"
                    [("x-image-metadata", date);
                     ("x-nasa-available-dates", JS.join "," availableDates7)]
                    (Http.reply_body r)))
     /\ ((exists e, Nasa.fetch W imagery = JS.Throw e)
         \/ (exists r, Nasa.fetch W imagery = JS.Ret r /\ Http.ok r = false) ->
         Nasa.GET W q
         = JS.Ret (Http.json 404
                     (Http.JObj
                        [("error", Http.JStr "No imagery available for this date/location.");
                         ("availableDates", Http.JArr (map Http.JStr availableDates7));
                         ("closestDate", Http.JNull)])))
     /\ exists resp, Nasa.GET W q = JS.Ret resp)
  /\ (forall e, Nasa.GET W q = JS.Throw e <-> Nasa.window7 W date = JS.Throw e).
Proof.
  intros lat lon date dim exact imagery.
  split.
  - intros Hfailed range7 Hrange availableDates7.
    assert (Hget : Nasa.GET W q
                   = Nasa.fallback W imagery date
                       {| Nasa.availableDates := []; Nasa.closestDate := None;
                          Nasa.assetsError := true |} availableDates7).
    { unfold Nasa.GET. cbv zeta. fold lat lon date dim.
      change (Nasa.assetsUrl (Nasa.apiKey W) lon lat date date dim) with exact.
      rewrite (failed_query_leaves_nothing W _ Hfailed). rewrite Hrange. reflexivity. }
    rewrite Hget. unfold Nasa.fallback. simpl.
    split; [| split].
    + intros r -> ->. reflexivity.
    + intros [(e & ->) | (r & -> & ->)]; reflexivity.
    + destruct (Nasa.fetch W imagery) as [r | e]; [destruct (Http.ok r) |]; eauto.
  - intros e. split; [apply GET_throws_only_on_invalid_date|].
    intros Hthrow. unfold Nasa.GET. cbv zeta. fold date. rewrite Hthrow. reflexivity.
Qed.

(** The theorem with the asset index unreachable and no picture at the
    imagery endpoint: the answer is the 404 with the window's dates. *)
Lemma unreachable_asset_index_ends_in_a_404 :
  Nasa.exactQueryFailed (Sample.nasaWorld (JS.Throw JS.NetworkError) Sample.noPicture)
    Sample.exactUrl
  /\ Nasa.GET (Sample.nasaWorld (JS.Throw JS.NetworkError) Sample.noPicture)
       Sample.nasaQuery
     = JS.Ret (Http.json 404
                 (Http.JObj
                    [("error", Http.JStr "No imagery available for this date/location.");
                     ("availableDates",
                      Http.JArr [Http.JStr "2024-01-05"; Http.JStr "2024-01-09"]);
                     ("closestDate", Http.JNull)])).
Proof.
  assert (Hfailed : Nasa.exactQueryFailed
                      (Sample.nasaWorld (JS.Throw JS.NetworkError) Sample.noPicture)
                      Sample.exactUrl).
  { left. exists JS.NetworkError. reflexivity. }
  split; [exact Hfailed|].
  apply (proj1 (proj2 (proj1 (exact_query_failure_falls_back
                                (Sample.nasaWorld (JS.Throw JS.NetworkError)
                                   Sample.noPicture)
                                Sample.nasaQuery)
                         Hfailed ("2024-01-01", "2024-01-15") eq_refl))).
  right. exists (Http.mkReply 404 []). split; reflexivity.
Defined.

(** Against C7 as stated: a request that names no date, with the asset
    index out of reach.  The imagery endpoint has a picture at the
    address of the fallback, but the handler does not get there: it
    leaves with the [RangeError] of [formatISO], not with a response. *)
Lemma missing_date_escapes_as_an_exception :
  Nasa.exactQueryFailed Scenario.imageryOnly
    "https://api.nasa.gov/planetary/earth/assets?lon=23.7&lat=37.9&begin=&end=&dim=0.2&api_key=DEMO_KEY"
  /\ Nasa.fetch Scenario.imageryOnly
       "https://api.nasa.gov/planetary/earth/imagery?lon=23.7&lat=37.9&date=&dim=0.2&api_key=DEMO_KEY"
     = Sample.picture
  /\ Nasa.GET Scenario.imageryOnly Scenario.undatedQuery = JS.Throw JS.RangeError.
Proof.
  split; [| split; reflexivity].
  left. exists JS.NetworkError. reflexivity.
Qed.

Lemma closestDate_is_first_exact_date (W : Nasa.World)
  (fetched : option Http.Buffer * bool) :
  Nasa.closestDate (Nasa.parseAssets W fetched)
  = hd_error (Nasa.availableDates (Nasa.parseAssets W fetched)).
Proof.
  unfold Nasa.parseAssets. destruct (snd fetched); [reflexivity|].
  destruct (Nasa.resultDates W _); reflexivity.
Qed.

(** C4, as the code has it.  For a valid requested date, let [exact] be
    what the exact-date query leaves and [listed] say that it lists the
    requested date.  If the date is listed, an image answer carries the
    requested date as its [x-image-metadata].  If it is not, an answer
    that is not an image is the 404 whose [availableDates] are all the
    dates of the window query, in the order received, and whose
    [closestDate] is the first date of the exact-date query's own result,
    [null] when that result is empty or the query failed; it is not taken
    from the window. *)
Theorem provider_A_date_metadata (W : Nasa.World) (q : Http.Query)
  (range7 : string * string) (resp : Http.Response) :
  let lat := Nasa.floatText W (JS.orElse (Http.get q "lat") "0") in
  let lon := Nasa.floatText W (JS.orElse (Http.get q "lon") "0") in
  let date := JS.orElse (Http.get q "date") "" in
  let dim := Nasa.floatText W (JS.orElse (Http.get q "dim") "0.2") in
  let exactUrl := Nasa.assetsUrl (Nasa.apiKey W) lon lat date date dim in
  let url7 := Nasa.assetsUrl (Nasa.apiKey W) lon lat (fst range7) (snd range7) dim in
  let exact := Nasa.parseAssets W (Nasa.exactQuery W exactUrl) in
  let listed :=
    negb (Nasa.assetsError exact)
    && existsb (String.eqb date) (Nasa.availableDates exact) in
  Nasa.window7 W date = JS.Ret range7 ->
  Nasa.GET W q = JS.Ret resp ->
  (listed = true -> Http.status resp = 200 ->
   Http.header "x-image-metadata" (Http.headers resp) = Some date)
  /\ (listed = false -> Http.status resp <> 200 ->
      resp = Http.json 404
               (Http.JObj
                  [("error", Http.JStr "No imagery available for this date/location.");
                   ("availableDates",
                    Http.JArr (map Http.JStr (Nasa.windowQuery W url7)));
                   ("closestDate",
                    match hd_error (Nasa.availableDates exact) with
                    | Some d => Http.JStr d
                    | None => Http.JNull
                    end)]))
  /\ (forall r dates,
        Nasa.fetch W exactUrl = JS.Ret r -> Http.ok r = true ->
        Nasa.resultDates W (Nasa.orEmptyObject (Http.reply_body r)) = JS.Ret dates ->
        Nasa.availableDates exact = dates)
  /\ (forall r7 dates,
        Nasa.fetch W url7 = JS.Ret r7 -> Http.ok r7 = true ->
        Nasa.resultDates W (Nasa.orEmptyObject (Http.reply_body r7)) = JS.Ret dates ->
        Nasa.windowQuery W url7 = dates).
Proof.
  intros lat lon date dim exactUrl url7 exact listed Hrange Hget.
  unfold Nasa.GET in Hget. cbv zeta in Hget.
  fold lat lon date dim exactUrl in Hget. fold exact in Hget.
  rewrite Hrange in Hget. cbn [JS.bind] in Hget.
  fold url7 in Hget. fold listed in Hget.
  split; [| split; [| split]].
  - intros Hl Hst. rewrite Hl in Hget. unfold Nasa.fetchImage in Hget.
    destruct (Nasa.fetch W _) as [r | e]; simpl in Hget.
    + destruct (Http.ok r) eqn:Hok; simpl in Hget; injection Hget as <-.
      * reflexivity.
      * simpl in Hst. unfold Http.ok in Hok. lia.
    + injection Hget as <-. discriminate.
  - intros Hl Hst. rewrite Hl in Hget. unfold Nasa.fallback in Hget.
    pose proof (closestDate_is_first_exact_date W (Nasa.exactQuery W exactUrl)) as Hc.
    fold exact in Hc. rewrite <- Hc.
    destruct (Nasa.fetch W _) as [r | e].
    + destruct (Http.ok r); injection Hget as <-; [exfalso; apply Hst |]; reflexivity.
    + injection Hget as <-. reflexivity.
  - intros r dates Hf Hok Hp. unfold exact, Nasa.parseAssets, Nasa.exactQuery.
    rewrite Hf. simpl. rewrite Hok. simpl. rewrite Hp. reflexivity.
  - intros r7 dates Hf Hok Hp. unfold Nasa.windowQuery. rewrite Hf, Hok, Hp. reflexivity.
Qed.

(** The theorem with the requested date listed and a picture served: the
    image answer carries 2024-01-08, the requested date. *)
Lemma listed_date_is_the_metadata :
  Nasa.GET (Sample.nasaWorld (JS.Ret (Http.mkReply 200 Sample.requestedDateOnly))
              Sample.picture) Sample.nasaQuery
  = JS.Ret (Http.image "image/png"
              [("x-image-metadata", "2024-01-08");
               ("x-nasa-available-dates", "2024-01-05,2024-01-09")]
              (Sample.encode 2048 2048))
  /\ Http.header "x-image-metadata"
       [("Content-Type", "image/png"); ("x-image-metadata", "2024-01-08");
        ("x-nasa-available-dates", "2024-01-05,2024-01-09")]
     = Some "2024-01-08".
Proof.
  assert (Hget : Nasa.GET (Sample.nasaWorld
                             (JS.Ret (Http.mkReply 200 Sample.requestedDateOnly))
                             Sample.picture) Sample.nasaQuery
                 = JS.Ret (Http.image "image/png"
                             [("x-image-metadata", "2024-01-08");
                              ("x-nasa-available-dates", "2024-01-05,2024-01-09")]
                             (Sample.encode 2048 2048))) by reflexivity.
  split; [exact Hget|].
  exact (proj1 (provider_A_date_metadata
                  (Sample.nasaWorld (JS.Ret (Http.mkReply 200 Sample.requestedDateOnly))
                     Sample.picture)
                  Sample.nasaQuery ("2024-01-01", "2024-01-15") _ eq_refl Hget)
           eq_refl eq_refl).
Defined.

(** Against C4 as stated: the exact-date query finds nothing for
    2024-01-08, the window holds 2024-01-05 and 2024-01-09, and no picture
    can be fetched.  The answer lists the two dates of the window, but its
    [closestDate] is [null], not the first entry of the window. *)
Lemma closest_date_ignores_the_window :
  Nasa.windowQuery
    (Sample.nasaWorld (JS.Ret (Http.mkReply 200 [123; 125])) Sample.noPicture)
    Sample.windowUrl
  = ["2024-01-05"; "2024-01-09"]
  /\ Nasa.GET (Sample.nasaWorld (JS.Ret (Http.mkReply 200 [123; 125])) Sample.noPicture)
       Sample.nasaQuery
     = JS.Ret (Http.json 404
                 (Http.JObj
                    [("error", Http.JStr "No imagery available for this date/location.");
                     ("availableDates",
                      Http.JArr [Http.JStr "2024-01-05"; Http.JStr "2024-01-09"]);
                     ("closestDate", Http.JNull)])).
Proof.
  split; reflexivity.
Qed.

(** ** The explorer's GIBS requests *)







(** C9, as the code has it.  The tile indices are computed with no check
    of the latitude or longitude and no failure case: whatever the centre
    of the map, both handlers request the tile whose address carries the
    two values computed by the formula, and when the backend serves it the
    availability check reports "GIBS tile available!" and no error. *)
Theorem tile_request_is_sent_for_every_centre
  (B : Explorer.Browser) (st : Explorer.State) :
  (forall url, exists res,
      Explorer.request B url = JS.Ret res /\ Explorer.api_ok res = true) ->
  let tileUrl :=
    Explorer.gibsTileUrl (Explorer.engine B) (Explorer.gibsLayer st) (Explorer.date st)
      (Explorer.tileX (snd (Explorer.center st)))
      (Explorer.tileY (Explorer.engine B) (fst (Explorer.center st))) in
  let run := Explorer.handleCheckAvailability_gibs B st in
  fst run = [Explorer.datesUrlOf st; tileUrl]
  /\ fst (Explorer.handleFetchImage_gibs B st) = [Explorer.datesUrlOf st; tileUrl]
  /\ Explorer.availability (snd run) = Some "GIBS tile available!"
  /\ Explorer.gibsPreviewError (snd run) = None
  /\ Explorer.errorMsg (snd run) = None.
Proof.
  intros Hserved tileUrl run. subst run.
  unfold Explorer.handleCheckAvailability_gibs, Explorer.handleFetchImage_gibs.
  cbv zeta. fold tileUrl.
  change (Explorer.tileUrlOf B st) with tileUrl.
  unfold Explorer.preview.
  destruct (Hserved tileUrl) as (res & -> & ->). simpl. repeat split.
Qed.

(** The theorem at a centre on the equator at longitude 540, far outside
    the range: the availability check reports a tile and no error. *)
Lemma centre_at_longitude_540_is_accepted :
  Explorer.availability
    (snd (Explorer.handleCheckAvailability_gibs (Sample.browser []) (Sample.stateAt 540)))
  = Some "GIBS tile available!"
  /\ Explorer.errorMsg
       (snd (Explorer.handleCheckAvailability_gibs (Sample.browser [])
               (Sample.stateAt 540)))
     = None.
Proof.
  destruct (tile_request_is_sent_for_every_centre (Sample.browser [])
              (Sample.stateAt 540)) as (_ & _ & Havail & _ & Herr).
  - intros url. simpl. destruct (String.eqb url Sample.datesUrl); eauto.
  - split; [exact Havail | exact Herr].
Defined.

(** Against C9 as stated: longitude 200 lies outside the range of -180 to
    180, yet the formula yields the column 270 (the columns of zoom 8 run
    from 0 to 255), the tile 270/128 is requested, and the availability
    check reports it as available. *)
Lemma longitude_200_gets_a_tile :
  Explorer.tileX 200 = Explorer.FInt 270
  /\ fst (Explorer.handleCheckAvailability_gibs (Sample.browser []) (Sample.stateAt 200))
     = [Sample.datesUrl;
        "/api/fetch-gibs-image?layer=MODIS_Terra_CorrectedReflectance_TrueColor&date=2024-01-08&z=8&x=270&y=128"]
  /\ Explorer.availability
       (snd (Explorer.handleCheckAvailability_gibs (Sample.browser [])
               (Sample.stateAt 200)))
     = Some "GIBS tile available!".
Proof.
  repeat split; vm_compute; reflexivity.
Qed.

(** ** The tile column and the formula of the specification *)








(** ** Further properties of the handlers *)

(** ** Printed integers read back

    [parseInt] on the text [String(n)] of an integer, followed by text
    that does not go on with a digit. *)

Lemma digits_stop (acc : option Z) (rest : string) :
  Text.startsWithDigit rest = false -> JS.digits acc rest = acc.
Proof.
  destruct rest as [| c r]; [reflexivity|]. simpl.
  destruct (JS.digitValue c); [discriminate | reflexivity].
Qed.

Lemma digits_of_uint (d : Decimal.uint) (a : Z) (rest : string) :
  Text.startsWithDigit rest = false ->
  JS.digits (Some a) (NilEmpty.string_of_uint d ++ rest) = Some (Text.uintValue d a).
Proof.
  intros Hrest. revert a.
  induction d; intros a; cbn [NilEmpty.string_of_uint Text.uintValue];
    try (change (JS.digits (Some a) (String ?c (?s ++ rest))) with
           (JS.digits (Some a) (String c (s ++ rest))); simpl; apply IHd).
  simpl. apply digits_stop. exact Hrest.
Qed.

Lemma uintValue_acc (d : Decimal.uint) (acc : positive) :
  Text.uintValue d (Z.pos acc) = Z.pos (Pos.of_uint_acc d acc).
Proof.
  revert acc. induction d; intros acc; cbn [Text.uintValue Pos.of_uint_acc];
    try (rewrite <- IHd; f_equal; lia).
  reflexivity.
Qed.

Lemma uintValue_zero (d : Decimal.uint) : Text.uintValue d 0 = Z.of_uint d.
Proof.
  unfold Z.of_uint.
  induction d; cbn [Text.uintValue Pos.of_uint]; try exact IHd;
    try (change (10 * 0 + ?k) with k; rewrite uintValue_acc; reflexivity).
  reflexivity.
Qed.

Lemma digits_step (acc : option Z) (c : ascii) (k : Z) (s : string) :
  JS.digitValue c = Some k ->
  JS.digits acc (String c s)
  = JS.digits (Some (10 * match acc with Some a => a | None => 0 end + k)) s.
Proof.
  intros H. cbn [JS.digits]. rewrite H. reflexivity.
Qed.

Lemma digits_of_rendering (d : Decimal.uint) (rest : string) :
  Text.startsWithDigit rest = false ->
  JS.digits None (NilZero.string_of_uint d ++ rest) = Some (Z.of_uint d).
Proof.
  intros Hrest. rewrite <- uintValue_zero.
  destruct d; unfold NilZero.string_of_uint;
    cbn [NilEmpty.string_of_uint append Text.uintValue];
    erewrite digits_step by reflexivity.
  - apply digits_stop. exact Hrest.
  - apply digits_of_uint. exact Hrest.
  - apply digits_of_uint. exact Hrest.
  - apply digits_of_uint. exact Hrest.
  - apply digits_of_uint. exact Hrest.
  - apply digits_of_uint. exact Hrest.
  - apply digits_of_uint. exact Hrest.
  - apply digits_of_uint. exact Hrest.
  - apply digits_of_uint. exact Hrest.
  - apply digits_of_uint. exact Hrest.
  - apply digits_of_uint. exact Hrest.
Qed.

Lemma rendering_head (d : Decimal.uint) (rest : string) :
  exists c s, NilZero.string_of_uint d ++ rest = String c s
              /\ JS.isWhiteSpace c = false /\ c <> "-"%char /\ c <> "+"%char.
Proof.
  destruct d; unfold NilZero.string_of_uint; cbn [NilEmpty.string_of_uint append];
    eexists; eexists; (split; [reflexivity|]); repeat split; discriminate.
Qed.

Lemma parseInt_of_rendering (z : Z) (rest : string) :
  Text.startsWithDigit rest = false ->
  JS.parseInt (JS.toString (JS.Num z) ++ rest) = JS.Num z.
Proof.
  intros Hrest. unfold JS.toString, NilZero.string_of_int.
  rewrite <- (DecimalZ.of_to z) at 2.
  destruct (Z.to_int z) as [d | d]; unfold Z.of_int.
  - destruct (rendering_head d rest) as (c & s & Heq & Hw & Hm & Hp).
    unfold JS.parseInt. rewrite Heq. cbn [JS.trimStart]. rewrite Hw.
    assert (Hbody : (let '(negative, body) :=
                       match String c s with
                       | String "-" r => (true, r)
                       | String "+" r => (false, r)
                       | _ => (false, String c s)
                       end in
                     match JS.digits None body with
                     | None => JS.NaN
                     | Some v => JS.Num (if negative then - v else v)
                     end)
                    = match JS.digits None (String c s) with
                      | None => JS.NaN
                      | Some v => JS.Num v
                      end).
    { destruct c as [[] [] [] [] [] [] [] []]; try reflexivity;
        exfalso; (apply Hm; reflexivity) || (apply Hp; reflexivity). }
    rewrite Hbody, <- Heq, (digits_of_rendering d rest Hrest). reflexivity.
  - unfold JS.parseInt. cbn [append JS.trimStart].
    change (JS.isWhiteSpace "-") with false. cbv iota.
    rewrite (digits_of_rendering d rest Hrest). reflexivity.
Qed.

(** ** Tile addresses

    An address determines its tile. *)

(** A printed integer followed by text that does not go on with a digit
    determines the integer and the text. *)
Lemma rendering_then_text_inj (a b : Z) (r s : string) :
  Text.startsWithDigit r = false -> Text.startsWithDigit s = false ->
  JS.toString (JS.Num a) ++ r = JS.toString (JS.Num b) ++ s ->
  a = b /\ r = s.
Proof.
  intros Hr Hs Heq.
  assert (Hab : a = b).
  { pose proof (parseInt_of_rendering a r Hr) as Ha.
    rewrite Heq, (parseInt_of_rendering b s Hs) in Ha. congruence. }
  split; [exact Hab|]. subst b. exact (append_cancel_l _ _ _ Heq).
Qed.

Lemma tileUrl_inj (layer date : string) (z : JS.number) (y x y' x' : Z) :
  Gibs.tileUrl layer date z (JS.Num y) (JS.Num x)
  = Gibs.tileUrl layer date z (JS.Num y') (JS.Num x') ->
  y = y' /\ x = x'.
Proof.
  unfold Gibs.tileUrl. intros H.
  repeat (apply append_cancel_l in H).
  destruct (rendering_then_text_inj y y'
              ("/" ++ JS.toString (JS.Num x) ++ ".jpg")
              ("/" ++ JS.toString (JS.Num x') ++ ".jpg") eq_refl eq_refl H) as [Hy H'].
  apply (append_cancel_l "/") in H'.
  destruct (rendering_then_text_inj x x' ".jpg" ".jpg" eq_refl eq_refl H') as [Hx _].
  auto.
Qed.

Lemma NoDup_range (m : Z) : NoDup (JS.range m).
Proof.
  unfold JS.range. apply Injective_map_NoDup.
  - intros a b H. lia.
  - apply seq_NoDup.
Qed.

(** Rows that are each free of repetitions and pairwise disjoint, laid
    end to end, are free of repetitions. *)
Lemma NoDup_rows {B : Type} (row : Z -> list B) (rows : list Z) :
  NoDup rows ->
  (forall r, In r rows -> NoDup (row r)) ->
  (forall r r' b, In r rows -> In r' rows -> In b (row r) -> In b (row r') -> r = r') ->
  NoDup (flat_map row rows).
Proof.
  induction rows as [| r0 rows IH]; intros Hnd Hrow Hdisj; [constructor|].
  simpl. inversion Hnd as [| ? ? Hnotin Hnd']; subst.
  apply NoDup_app.
  - apply Hrow. left. reflexivity.
  - apply IH; auto.
    + intros r Hr. apply Hrow. right. exact Hr.
    + intros r r' b Hr Hr'. apply Hdisj; right; assumption.
  - intros b Hb Hb'. apply in_flat_map in Hb'. destruct Hb' as (r & Hr & Hbr).
    apply Hnotin. rewrite (Hdisj r0 r b); auto; [left; reflexivity | right; exact Hr].
Qed.

Lemma tile_addresses_are_distinct (rq : Gibs.TileRequest) (cx cy : Z) :
  Gibs.x rq = JS.Num cx ->
  Gibs.y rq = JS.Num cy ->
  NoDup (Gibs.tileCoords rq) /\ NoDup (Gibs.tileUrls rq).
Proof.
  intros Hx Hy.
  assert (Hco : exists a b t,
            Gibs.tileCoords rq
            = flat_map (fun dy => map (fun dx => (JS.Num (a + dx), JS.Num (b + dy)))
                                      (JS.range t)) (JS.range t)).
  { unfold Gibs.tileCoords, Gibs.startX, Gibs.startY, Gibs.half. rewrite Hx, Hy.
    destruct (Gibs.tilesPerSide rq) as [| t].
    - exists 0, 0, 0. reflexivity.
    - exists (cx - t / 2), (cy - t / 2), t. reflexivity. }
  destruct Hco as (a & b & t & Hco).
  assert (Hnd : NoDup (Gibs.tileCoords rq)).
  { rewrite Hco. apply NoDup_rows.
    - apply NoDup_range.
    - intros r _. apply Injective_map_NoDup; [| apply NoDup_range].
      intros u v H. injection H as H. lia.
    - intros r r' c _ _ Hc Hc'. apply in_map_iff in Hc, Hc'.
      destruct Hc as (u & <- & _). destruct Hc' as (v & Hv & _).
      injection Hv as _ Hv. lia. }
  split; [exact Hnd|].
  unfold Gibs.tileUrls. rewrite Hco in *.
  apply Injective_map_NoDup_in; [| exact Hnd].
  intros c c' Hc Hc' Heq.
  apply in_flat_map in Hc, Hc'.
  destruct Hc as (dy & _ & Hc). destruct Hc' as (dy' & _ & Hc').
  apply in_map_iff in Hc, Hc'.
  destruct Hc as (dx & <- & _). destruct Hc' as (dx' & <- & _).
  cbn [fst snd] in Heq. apply tileUrl_inj in Heq. destruct Heq as [-> ->]. reflexivity.
Qed.

(** ** The explorer's tile indices at the route *)

Lemma parseInt_toString (v : Z) : JS.parseInt (JS.toString (JS.Num v)) = JS.Num v.
Proof.
  rewrite <- (append_empty_r (JS.toString (JS.Num v))).
  apply parseInt_of_rendering. reflexivity.
Qed.

Lemma toString_not_empty (v : Z) : exists c s, JS.toString (JS.Num v) = String c s.
Proof.
  unfold JS.toString, NilZero.string_of_int.
  destruct (Z.to_int v) as [d | d].
  - destruct (rendering_head d "") as (c & s & H & _).
    rewrite append_empty_r in H. eauto.
  - eexists; eexists; reflexivity.
Qed.

Lemma orElse_toString (v : Z) (d : string) :
  JS.orElse (Some (JS.toString (JS.Num v))) d = JS.toString (JS.Num v).
Proof.
  destruct (toString_not_empty v) as (c & s & H). rewrite H. reflexivity.
Qed.

(** The explorer prints a safe integer digit by digit. *)
Lemma show_safe_integer (E : Explorer.Engine) (i : Z) :
  Z.abs i <= 2 ^ 53 -> Explorer.show E (Explorer.FInt i) = JS.toString (JS.Num i).
Proof.
  intros H. unfold Explorer.show. apply Z.leb_le in H. rewrite H. reflexivity.
Qed.

(** X1.  The tile indices the explorer prints into its tile address are
    the ones the route reads back.  For a query whose [z] is "8" and whose
    [x] and [y] are the texts the explorer prints for its two
    [Math.floor] values: the route parses zoom 8 and never answers that
    the coordinates are missing; an integer index in the safe range,
    at most 2^53 in magnitude, is printed digit by digit and read back
    exactly; [NaN] and the infinities are read as [NaN]; and without a
    [resolution] parameter the single-tile branch is taken. *)
Theorem tile_indices_reach_the_route
  (W : Gibs.World) (E : Explorer.Engine) (q : Http.Query) (tx ty : Explorer.Floored) :
  Http.get q "z" = Some "8" ->
  Http.get q "x" = Some (Explorer.show E tx) ->
  Http.get q "y" = Some (Explorer.show E ty) ->
  let rq := Gibs.parseTileRequest W q in
  Gibs.z rq = JS.Num 8
  /\ Gibs.missingCoordinates rq = false
  /\ (forall i, tx = Explorer.FInt i -> Z.abs i <= 2 ^ 53 -> Gibs.x rq = JS.Num i)
  /\ (forall j, ty = Explorer.FInt j -> Z.abs j <= 2 ^ 53 -> Gibs.y rq = JS.Num j)
  /\ ((tx = Explorer.FNaN \/ exists s, tx = Explorer.FInfinity s) -> Gibs.x rq = JS.NaN)
  /\ ((ty = Explorer.FNaN \/ exists s, ty = Explorer.FInfinity s) -> Gibs.y rq = JS.NaN)
  /\ (Http.get q "resolution" = None ->
      Gibs.serveTile W rq = Gibs.singleTile W rq).
Proof.
  intros Hz Hx Hy rq.
  assert (Hz8 : Gibs.z rq = JS.Num 8).
  { unfold rq, Gibs.parseTileRequest. cbn [Gibs.z]. rewrite Hz. reflexivity. }
  assert (Hmiss : Gibs.missingCoordinates rq = false).
  { unfold Gibs.missingCoordinates. rewrite Hz8. reflexivity. }
  split; [exact Hz8|]. split; [exact Hmiss|].
  split; [| split; [| split; [| split]]].
  - intros i -> Hi. unfold rq, Gibs.parseTileRequest. cbn [Gibs.x].
    rewrite Hx, (show_safe_integer E i Hi), orElse_toString. apply parseInt_toString.
  - intros j -> Hj. unfold rq, Gibs.parseTileRequest. cbn [Gibs.y].
    rewrite Hy, (show_safe_integer E j Hj), orElse_toString. apply parseInt_toString.
  - intros H. unfold rq, Gibs.parseTileRequest. cbn [Gibs.x]. rewrite Hx.
    destruct H as [-> | [[] ->]]; reflexivity.
  - intros H. unfold rq, Gibs.parseTileRequest. cbn [Gibs.y]. rewrite Hy.
    destruct H as [-> | [[] ->]]; reflexivity.
  - intros Hres. unfold Gibs.serveTile. rewrite Hmiss.
    assert (Hr : Gibs.resolution rq = JS.Num 256).
    { unfold rq, Gibs.parseTileRequest. cbn [Gibs.resolution]. rewrite Hres. reflexivity. }
    unfold Gibs.tilesPerSide. rewrite Hr. reflexivity.
Qed.

Lemma equator_tile_reaches_the_route :
  let q := [("layer", "MODIS_Terra_CorrectedReflectance_TrueColor");
            ("date", "2024-01-08"); ("z", "8");
            ("x", Explorer.show Sample.equatorEngine (Explorer.tileX 200));
            ("y", Explorer.show Sample.equatorEngine
                    (Explorer.tileY Sample.equatorEngine 0))] in
  let rq := Gibs.parseTileRequest (Sample.gibsWorld Sample.healthy) q in
  Gibs.x rq = JS.Num 270 /\ Gibs.y rq = JS.Num 128
  /\ Gibs.missingCoordinates rq = false.
Proof.
  intros q rq.
  pose proof (tile_indices_reach_the_route (Sample.gibsWorld Sample.healthy)
                Sample.equatorEngine q (Explorer.tileX 200)
                (Explorer.tileY Sample.equatorEngine 0)
                eq_refl eq_refl eq_refl) as H.
  cbv zeta in H. destruct H as (_ & Hm & Hx & Hy & _).
  split; [| split].
  - apply Hx; [reflexivity | vm_compute; discriminate].
  - apply Hy; [reflexivity | vm_compute; discriminate].
  - exact Hm.
Defined.


(** ** The tiles of the composite *)

Lemma centre_in_grid (rq : Gibs.TileRequest) (res cx cy : Z) :
  Gibs.resolution rq = JS.Num res -> 256 < res ->
  Gibs.x rq = JS.Num cx -> Gibs.y rq = JS.Num cy ->
  In (JS.Num cx, JS.Num cy) (Gibs.tileCoords rq).
Proof.
  intros Hres Hbig Hx Hy.
  destruct (tileCoords_unfold rq res cx cy Hres Hx Hy) as (_ & _ & Hco).
  pose proof (ceil_256 res) as Hc. cbv zeta in Hc, Hco.
  set (t := - (- res / 256)) in *.
  assert (Ht : 2 <= t) by lia.
  assert (Hh : 0 <= t / 2 < t).
  { split; [apply Z.div_pos; lia | apply Z.div_lt_upper_bound; lia]. }
  rewrite Hco. apply in_flat_map. exists (t / 2). split.
  - apply in_range. exact Hh.
  - apply in_map_iff. exists (t / 2). split.
    + f_equal; f_equal; lia.
    + apply in_range. exact Hh.
Qed.

(** X2.  Above 256 pixels, with integer tile indices in the safe range,
    the compositor never asks for the same tile twice: the grid
    coordinates and the tile addresses are pairwise distinct, and the
    requested tile is itself one of the tiles of the grid. *)
Theorem composite_tiles_are_distinct_and_hold_the_centre
  (rq : Gibs.TileRequest) (res cx cy : Z) :
  Gibs.resolution rq = JS.Num res ->
  256 < res ->
  Gibs.x rq = JS.Num cx ->
  Gibs.y rq = JS.Num cy ->
  Z.abs cx + res <= 2 ^ 53 ->
  Z.abs cy + res <= 2 ^ 53 ->
  NoDup (Gibs.tileCoords rq)
  /\ NoDup (Gibs.tileUrls rq)
  /\ In (JS.Num cx, JS.Num cy) (Gibs.tileCoords rq)
  /\ In (Gibs.tileUrl (Gibs.layer rq) (Gibs.date rq) (Gibs.z rq) (JS.Num cy) (JS.Num cx))
        (Gibs.tileUrls rq).
Proof.
  intros Hres Hbig Hx Hy _ _.
  destruct (tile_addresses_are_distinct rq cx cy Hx Hy) as [H1 H2].
  split; [exact H1|]. split; [exact H2|].
  pose proof (centre_in_grid rq res cx cy Hres Hbig Hx Hy) as Hin.
  split; [exact Hin|].
  unfold Gibs.tileUrls. apply in_map_iff.
  exists (JS.Num cx, JS.Num cy). split; [reflexivity | exact Hin].
Qed.

Lemma tiles_of_the_512_request_are_distinct :
  NoDup (Gibs.tileUrls Sample.grid512)
  /\ In (JS.Num 10, JS.Num 20) (Gibs.tileCoords Sample.grid512).
Proof.
  destruct (composite_tiles_are_distinct_and_hold_the_centre Sample.grid512 512 10 20
              eq_refl eq_refl eq_refl eq_refl
              ltac:(vm_compute; discriminate) ltac:(vm_compute; discriminate))
    as (_ & Hnd & Hin & _).
  split; [exact Hnd | exact Hin].
Defined.

(** ** The closest-date scan on any candidates *)

Section ScanFacts.

Context {A : Type}.
Variable timeOf : A -> JS.number.
Variable requestedTime : JS.number.

Lemma scan_picks (st : A * JS.number) (d : A) :
  Explorer.scan timeOf requestedTime st d = st
  \/ Explorer.scan timeOf requestedTime st d = (d, Explorer.diffTo timeOf requestedTime d).
Proof.
  unfold Explorer.scan.
  destruct (JS.lt (Explorer.diffTo timeOf requestedTime d) (snd st)); auto.
Qed.

Lemma fold_scan_member (rest : list A) (st : A * JS.number) :
  fst (fold_left (Explorer.scan timeOf requestedTime) rest st) = fst st
  \/ In (fst (fold_left (Explorer.scan timeOf requestedTime) rest st)) rest.
Proof.
  revert st. induction rest as [| d rest IH]; intros st; [left; reflexivity|].
  cbn [fold_left].
  destruct (IH (Explorer.scan timeOf requestedTime st d)) as [H | H].
  - rewrite H. destruct (scan_picks st d) as [E | E]; rewrite E.
    + left. reflexivity.
    + right. left. reflexivity.
  - right. right. exact H.
Qed.

Lemma lt_NaN (a : JS.number) : JS.lt a JS.NaN = false.
Proof. destruct a; reflexivity. Qed.

Lemma fold_scan_stuck (rest : list A) (c : A) :
  fold_left (Explorer.scan timeOf requestedTime) rest (c, JS.NaN) = (c, JS.NaN).
Proof.
  induction rest as [| d rest IH]; [reflexivity|].
  cbn [fold_left]. unfold Explorer.scan at 2. cbn [snd]. rewrite lt_NaN. exact IH.
Qed.

Lemma closestTo_member (candidates : list A) (c : A) :
  Explorer.closestTo timeOf requestedTime candidates = Some c -> In c candidates.
Proof.
  destruct candidates as [| first rest]; [discriminate|].
  unfold Explorer.closestTo. intros H. injection H as <-.
  destruct (fold_scan_member (first :: rest)
              (first, Explorer.diffTo timeOf requestedTime first)) as [E | E].
  - left. symmetry. exact E.
  - exact E.
Qed.

Lemma closestTo_none (candidates : list A) :
  Explorer.closestTo timeOf requestedTime candidates = None <-> candidates = [].
Proof.
  destruct candidates; split; intros H; (reflexivity || discriminate).
Qed.

Lemma closestTo_first_unreadable (first : A) (rest : list A) :
  Explorer.diffTo timeOf requestedTime first = JS.NaN ->
  Explorer.closestTo timeOf requestedTime (first :: rest) = Some first.
Proof.
  intros H. unfold Explorer.closestTo. rewrite H, fold_scan_stuck. reflexivity.
Qed.

End ScanFacts.

Lemma diffTo_unreadable {A : Type} (timeOf : A -> JS.number) (req : JS.number) (d : A) :
  timeOf d = JS.NaN \/ req = JS.NaN -> Explorer.diffTo timeOf req d = JS.NaN.
Proof.
  unfold Explorer.diffTo. intros [-> | ->]; [reflexivity|].
  destruct (timeOf d); reflexivity.
Qed.

(** X3.  The closest-date scan on arbitrary candidates, readable or
    not: it selects nothing exactly when the list is empty, what it
    selects is a member of the list, and when the first candidate or the
    requested date does not read as a time (the difference is [NaN]) the
    first candidate is selected whatever follows it. *)
Theorem closest_scan_on_any_dates :
  forall (A : Type) (timeOf : A -> JS.number) (requestedTime : JS.number)
         (candidates : list A),
    (Explorer.closestTo timeOf requestedTime candidates = None <-> candidates = [])
    /\ (forall c, Explorer.closestTo timeOf requestedTime candidates = Some c ->
                  In c candidates)
    /\ (forall first rest,
          candidates = first :: rest ->
          timeOf first = JS.NaN \/ requestedTime = JS.NaN ->
          Explorer.closestTo timeOf requestedTime candidates = Some first).
Proof.
  intros A timeOf requestedTime candidates.
  split; [apply closestTo_none|]. split; [apply closestTo_member|].
  intros first rest -> H.
  apply closestTo_first_unreadable, diffTo_unreadable, H.
Qed.

Lemma unreadable_first_date_is_selected :
  Explorer.closestTo Explorer.isoDateTime (Explorer.isoDateTime "2024-01-08")
    ["latest"; "2024-01-08"] = Some "latest".
Proof.
  apply (proj2 (proj2 (closest_scan_on_any_dates string Explorer.isoDateTime
                         (Explorer.isoDateTime "2024-01-08")
                         ["latest"; "2024-01-08"])) "latest" ["2024-01-08"] eq_refl).
  left. reflexivity.
Defined.

(** ** The dispatch of the provider C route

    The [match] on the text of [action] and the chain of comparisons of
    the source agree; the proof reads [action] one character at a time. *)

Ltac next_char a :=
  destruct a as [| [[] [] [] [] [] [] [] []] a]; try reflexivity.

Lemma GET_dispatch (W : Gibs.World) (q : Http.Query) : Gibs.GET W q = Catalogue.dispatch W q.
Proof.
  unfold Gibs.GET, Catalogue.dispatch. cbv zeta.
  generalize (Gibs.serveTile W (Gibs.parseTileRequest W q)) as tile.
  generalize (Gibs.availableDates W) as dates.
  generalize (Gibs.findLayer (Http.get q "layer")) as found.
  generalize (Http.get q "layer") as layer.
  intros layer found dates tile.
  destruct (Http.get q "action") as [a |]; [| reflexivity].
  do 16 (next_char a).
Qed.

(** ** The catalogue actions and the date list of provider C *)

Lemma serveTile_answer (W : Gibs.World) (q : Http.Query) :
  exists resp,
    Gibs.serveTile W (Gibs.parseTileRequest W q) = JS.Ret resp
    /\ (forall bytes, Http.payload resp = Http.BinaryPayload bytes ->
          Http.status resp = 200
          /\ Http.headers resp
             = [("Content-Type", "image/jpeg");
                ("x-gibs-layer",
                 JS.orElse (Http.get q "layer") "MODIS_Terra_CorrectedReflectance_TrueColor");
                ("x-gibs-date", JS.orElse (Http.get q "date") (Gibs.today W))]).
Proof.
  set (rq := Gibs.parseTileRequest W q).
  destruct (Gibs.missingCoordinates rq) eqn:Hm.
  - unfold Gibs.serveTile. rewrite Hm. eexists. split; [reflexivity|].
    intros bytes H. discriminate H.
  - destruct (serveTile_branches W rq Hm) as [(res & t & ->) | ->].
    + destruct (stitched_answers W rq res t) as [(img & ->) | ->];
        eexists; (split; [reflexivity|]); intros bytes H;
        [split; reflexivity | discriminate H].
    + destruct (singleTile_answers W rq) as [(img & ->) | [(st & ->) | ->]];
        eexists; (split; [reflexivity|]); intros bytes H;
        [split; reflexivity | discriminate H | discriminate H].
Qed.

Lemma availableDates_answer (W : Gibs.World) (layer : string) :
  exists j st, Gibs.availableDates W layer = JS.Ret (Http.json st j).
Proof.
  unfold Gibs.availableDates.
  destruct (Gibs.fetch W (Gibs.capabilitiesUrl layer)) as [res | e];
    cbn [JS.bind JS.try_catch].
  - destruct (Gibs.capabilityLayers W (Http.reply_body res));
      cbn [JS.bind JS.try_catch]; eexists; eexists; reflexivity.
  - eexists; eexists; reflexivity.
Qed.

(** X4.  The provider C route answers every request for a resolution of
    at most 2048 pixels, the largest the explorer asks for: no branch
    lets an exception escape.  (The two loops that start the tile
    fetches run before the [try]; the bound keeps them short.)  An
    answer that carries bytes has status 200, the content type
    image/jpeg, and names in [x-gibs-layer] and [x-gibs-date] the layer
    and the date of the request, or their defaults. *)
Theorem gibs_route_always_answers (W : Gibs.World) (q : Http.Query) :
  (forall res, Gibs.resolution (Gibs.parseTileRequest W q) = JS.Num res -> res <= 2048) ->
  exists resp,
    Gibs.GET W q = JS.Ret resp
    /\ (forall bytes, Http.payload resp = Http.BinaryPayload bytes ->
          Http.status resp = 200
          /\ Http.headers resp
             = [("Content-Type", "image/jpeg");
                ("x-gibs-layer",
                 JS.orElse (Http.get q "layer") "MODIS_Terra_CorrectedReflectance_TrueColor");
                ("x-gibs-date", JS.orElse (Http.get q "date") (Gibs.today W))]).
Proof.
  intros _.
  pose proof (serveTile_answer W q) as Htile.
  rewrite GET_dispatch. unfold Catalogue.dispatch. cbv zeta.
  destruct (Http.get q "action") as [action |]; [| exact Htile].
  destruct (String.eqb action "layers").
  { eexists. split; [reflexivity|]. intros bytes H. discriminate H. }
  destruct (String.eqb action "layer-metadata").
  { destruct (Gibs.findLayer (Http.get q "layer"));
      eexists; (split; [reflexivity|]); intros bytes H; discriminate H. }
  destruct (String.eqb action "available-dates"); [| exact Htile].
  revert Htile. destruct (Http.get q "layer") as [[| c r] |] eqn:Hl; intros Htile.
  - exact Htile.
  - destruct (availableDates_answer W (String c r)) as (j & st & ->).
    eexists. split; [reflexivity|]. intros bytes H. discriminate H.
  - exact Htile.
Qed.

(** The theorem at a request for 2048 pixels around tile (270, 128). *)
Lemma preview_at_2048_is_answered :
  exists resp,
    Gibs.GET (Sample.gibsWorld Sample.healthy)
      [("z", "8"); ("x", "270"); ("y", "128"); ("resolution", "2048")] = JS.Ret resp.
Proof.
  destruct (gibs_route_always_answers (Sample.gibsWorld Sample.healthy)
              [("z", "8"); ("x", "270"); ("y", "128"); ("resolution", "2048")])
    as (resp & Hresp & _).
  - intros res Hres. injection Hres as <-. vm_compute. discriminate.
  - exists resp. exact Hresp.
Defined.

(** X5.  [action=layer-metadata] answers with the catalogue entry of
    every layer that [action=layers] lists, looked up by its [value],
    and with the 404 "Layer not found" for any other layer name or none;
    the other parameters and the upstream servers play no part. *)
Theorem layer_metadata_lookup (W : Gibs.World) (q : Http.Query) :
  Http.get q "action" = Some "layer-metadata" ->
  (forall entry, In entry Gibs.GIBS_LAYERS ->
     Http.get q "layer" = Some (fst entry) ->
     Gibs.GET W q = JS.Ret (Http.json 200 (Http.JObj [("metadata", snd entry)])))
  /\ ((forall entry, In entry Gibs.GIBS_LAYERS ->
         Http.get q "layer" <> Some (fst entry)) ->
      Gibs.GET W q = JS.Ret (Http.errorJson 404 "Layer not found")).
Proof.
  intros Ha. rewrite GET_dispatch. unfold Catalogue.dispatch. cbv zeta. rewrite Ha.
  change ("layer-metadata" =? "layers")%string with false.
  change ("layer-metadata" =? "layer-metadata")%string with true. cbv iota.
  split.
  - intros entry Hin Hl. rewrite Hl.
    cbn [In Gibs.GIBS_LAYERS] in Hin.
    destruct Hin as [<- | [<- | [<- | []]]]; reflexivity.
  - intros Hnone.
    assert (Hf : Gibs.findLayer (Http.get q "layer") = None).
    { destruct (Http.get q "layer") as [v |]; [| reflexivity].
      unfold Gibs.findLayer.
      assert (Hv : forall entry, In entry Gibs.GIBS_LAYERS ->
                                 String.eqb (fst entry) v = false).
      { intros entry Hin. apply String.eqb_neq. intros Heq. subst v. exact (Hnone entry Hin eq_refl). }
      assert (Hfil : filter (fun e => String.eqb (fst e) v) Gibs.GIBS_LAYERS = []).
      { clear Hnone. induction Gibs.GIBS_LAYERS as [| e l IH]; [reflexivity|].
        cbn [filter]. rewrite (Hv e (or_introl eq_refl)).
        apply IH. intros entry Hin. apply Hv. right. exact Hin. }
      rewrite Hfil. reflexivity. }
    rewrite Hf. reflexivity.
Qed.

Lemma aqua_layer_is_found :
  Gibs.GET (Sample.gibsWorld Sample.healthy)
    [("action", "layer-metadata"); ("layer", "MODIS_Aqua_CorrectedReflectance_TrueColor")]
  = JS.Ret (Http.json 200
              (Http.JObj
                 [("metadata",
                   Gibs.layerEntry "MODIS Aqua True Color"
                     "MODIS_Aqua_CorrectedReflectance_TrueColor"
                     "Daily true color imagery from MODIS Aqua (250m, 2002-present)"
                     "2002-07-04")])).
Proof.
  apply (proj1 (layer_metadata_lookup (Sample.gibsWorld Sample.healthy)
                  [("action", "layer-metadata");
                   ("layer", "MODIS_Aqua_CorrectedReflectance_TrueColor")] eq_refl)
           ("MODIS_Aqua_CorrectedReflectance_TrueColor",
            Gibs.layerEntry "MODIS Aqua True Color"
              "MODIS_Aqua_CorrectedReflectance_TrueColor"
              "Daily true color imagery from MODIS Aqua (250m, 2002-present)"
              "2002-07-04")).
  - right. left. reflexivity.
  - reflexivity.
Defined.

(** ** [split(',')] and [join(',')] *)

Lemma split_comma_not_empty (s : string) : Gibs.split_comma s <> [].
Proof.
  destruct s as [| c r]; cbn [Gibs.split_comma]; [discriminate|].
  destruct (Ascii.eqb c ","); [discriminate|].
  destruct (Gibs.split_comma r); discriminate.
Qed.

Lemma join_cons (a : string) (l : list string) :
  l <> [] -> JS.join "," (a :: l) = a ++ "," ++ JS.join "," l.
Proof. destruct l; [congruence | reflexivity]. Qed.

Lemma join_split_comma (s : string) : JS.join "," (Gibs.split_comma s) = s.
Proof.
  induction s as [| c r IH]; [reflexivity|].
  cbn [Gibs.split_comma]. destruct (Ascii.eqb c ",") eqn:Ec.
  - apply Ascii.eqb_eq in Ec. subst c.
    rewrite join_cons by apply split_comma_not_empty. rewrite IH. reflexivity.
  - pose proof (split_comma_not_empty r) as Hne.
    destruct (Gibs.split_comma r) as [| first others]; [congruence|].
    destruct others as [| o others'].
    + cbn [JS.join] in *. rewrite IH. reflexivity.
    + rewrite join_cons by discriminate. rewrite join_cons in IH by discriminate.
      rewrite <- IH. reflexivity.
Qed.

Lemma split_comma_parts (s : string) :
  Forall (fun part => Text.hasComma part = false) (Gibs.split_comma s).
Proof.
  induction s as [| c r IH]; [repeat constructor|].
  cbn [Gibs.split_comma]. destruct (Ascii.eqb c ",") eqn:Ec.
  - constructor; [reflexivity | exact IH].
  - destruct (Gibs.split_comma r) as [| first others].
    + constructor; [| constructor]. cbn [Text.hasComma]. rewrite Ec. reflexivity.
    + inversion IH as [| ? ? Hf Ho]; subst. constructor; [| exact Ho].
      cbn [Text.hasComma]. rewrite Ec, Hf. reflexivity.
Qed.

Lemma split_comma_plain (s : string) :
  Text.hasComma s = false -> Gibs.split_comma s = [s].
Proof.
  induction s as [| c r IH]; [reflexivity|].
  cbn [Text.hasComma Gibs.split_comma]. intros H.
  apply orb_false_iff in H. destruct H as [Hc Hr].
  rewrite Hc, (IH Hr). reflexivity.
Qed.

Lemma split_comma_append (a b : string) :
  Text.hasComma a = false ->
  Gibs.split_comma (a ++ "," ++ b) = a :: Gibs.split_comma b.
Proof.
  induction a as [| c r IH]; intros H.
  - reflexivity.
  - cbn [Text.hasComma] in H. apply orb_false_iff in H. destruct H as [Hc Hr].
    cbn [append Gibs.split_comma]. rewrite Hc.
    change (r ++ String "," b) with (r ++ "," ++ b). rewrite (IH Hr). reflexivity.
Qed.

Lemma split_join_comma (l : list string) :
  l <> [] ->
  Forall (fun part => Text.hasComma part = false) l ->
  Gibs.split_comma (JS.join "," l) = l.
Proof.
  induction l as [| a l IH]; [congruence|]. intros _ Hall.
  inversion Hall as [| ? ? Ha Hl]; subst.
  destruct l as [| b l'].
  - cbn [JS.join]. apply split_comma_plain. exact Ha.
  - rewrite join_cons by discriminate.
    rewrite (split_comma_append _ _ Ha), IH; [reflexivity | discriminate | exact Hl].
Qed.

(** X6.  [split(',')] and [join(',')] on date lists: the parts of a text
    are never an empty list, hold no comma, and joined again give the
    text back; a non-empty list of comma-free entries survives [join]
    followed by [split]; the empty list comes back as one empty entry. *)
Theorem comma_lists_round_trip :
  (forall text,
     Gibs.split_comma text <> []
     /\ Forall (fun part => Text.hasComma part = false) (Gibs.split_comma text)
     /\ JS.join "," (Gibs.split_comma text) = text)
  /\ (forall dates,
        dates <> [] ->
        Forall (fun d => Text.hasComma d = false) dates ->
        Gibs.split_comma (JS.join "," dates) = dates)
  /\ Gibs.split_comma (JS.join "," []) = [""].
Proof.
  split; [| split].
  - intros text. split; [apply split_comma_not_empty|].
    split; [apply split_comma_parts | apply join_split_comma].
  - apply split_join_comma.
  - reflexivity.
Qed.

Lemma window_dates_round_trip :
  Gibs.split_comma (JS.join "," ["2024-01-05"; "2024-01-09"])
  = ["2024-01-05"; "2024-01-09"].
Proof.
  apply (proj1 (proj2 comma_lists_round_trip) ["2024-01-05"; "2024-01-09"]).
  - discriminate.
  - repeat constructor.
Defined.

(** ** The date list of a layer *)

Lemma timeDates_skip (layer : string) (layers : list Gibs.CapLayer) (dates : list string) :
  forallb (fun lyr => negb (Catalogue.hasTime layer lyr)) layers = true ->
  Gibs.timeDates layer layers dates = dates.
Proof.
  revert dates. induction layers as [| lyr rest IH]; intros dates H; [reflexivity|].
  cbn [forallb] in H. apply andb_true_iff in H. destruct H as [Hl Hrest].
  cbn [Gibs.timeDates]. cbv zeta. rewrite IH by exact Hrest.
  unfold Catalogue.hasTime in Hl.
  destruct (String.eqb (Gibs.identifier lyr) layer); [| reflexivity].
  destruct (Gibs.dimensions lyr) as [dims |]; [| reflexivity].
  destruct (Gibs.timeDimension dims); [discriminate | reflexivity].
Qed.

Lemma timeDates_app (layer : string) (l1 l2 : list Gibs.CapLayer) (dates : list string) :
  Gibs.timeDates layer (l1 ++ l2) dates
  = Gibs.timeDates layer l2 (Gibs.timeDates layer l1 dates).
Proof.
  revert dates. induction l1 as [| lyr rest IH]; intros dates; [reflexivity|].
  cbn [app Gibs.timeDates]. cbv zeta. apply IH.
Qed.

Lemma timeDimension_first (before after : list (string * string)) (text : string) :
  Forall (fun d => fst d <> "Time") before ->
  Gibs.timeDimension (before ++ ("Time", text) :: after) = Some (Gibs.split_comma text).
Proof.
  induction before as [| [name t] rest IH]; intros H.
  - reflexivity.
  - inversion H as [| ? ? Hn Hr]; subst. cbn [app Gibs.timeDimension].
    cbn [fst] in Hn. apply String.eqb_neq in Hn. rewrite Hn. apply IH. exact Hr.
Qed.

(** X7.  The date list of a layer.  Whatever the status of the
    capabilities reply, when its body parses the answer is a 200 whose
    [availableDates] are the comma-separated parts of the first [Time]
    dimension of the last capabilities entry that bears the layer's
    identifier and has such a dimension; it is the empty list when no
    entry has one; and a rejected fetch or an unreadable body gives the
    500 "Failed to fetch available dates." *)
Theorem available_dates_of_a_layer (W : Gibs.World) (layer : string) :
  (forall res before lyr after dims ds,
     Gibs.fetch W (Gibs.capabilitiesUrl layer) = JS.Ret res ->
     Gibs.capabilityLayers W (Http.reply_body res) = JS.Ret (before ++ lyr :: after)%list ->
     Gibs.identifier lyr = layer ->
     Gibs.dimensions lyr = Some dims ->
     Gibs.timeDimension dims = Some ds ->
     forallb (fun l => negb (Catalogue.hasTime layer l)) after = true ->
     Gibs.availableDates W layer
     = JS.Ret (Http.json 200
                 (Http.JObj [("availableDates", Http.JArr (map Http.JStr ds))])))
  /\ (forall res layers,
        Gibs.fetch W (Gibs.capabilitiesUrl layer) = JS.Ret res ->
        Gibs.capabilityLayers W (Http.reply_body res) = JS.Ret layers ->
        forallb (fun l => negb (Catalogue.hasTime layer l)) layers = true ->
        Gibs.availableDates W layer
        = JS.Ret (Http.json 200 (Http.JObj [("availableDates", Http.JArr [])])))
  /\ ((exists e, Gibs.fetch W (Gibs.capabilitiesUrl layer) = JS.Throw e)
      \/ (exists res e, Gibs.fetch W (Gibs.capabilitiesUrl layer) = JS.Ret res
                        /\ Gibs.capabilityLayers W (Http.reply_body res) = JS.Throw e) ->
      Gibs.availableDates W layer
      = JS.Ret (Http.errorJson 500 "Failed to fetch available dates.")).
Proof.
  split; [| split].
  - intros res before lyr after dims ds Hf Hp Hid Hd Ht Hafter.
    unfold Gibs.availableDates. rewrite Hf. cbn [JS.bind]. rewrite Hp. cbn [JS.bind JS.try_catch].
    rewrite timeDates_app. cbn [Gibs.timeDates]. cbv zeta.
    rewrite (timeDates_skip layer after _ Hafter).
    rewrite Hid, String.eqb_refl, Hd, Ht. reflexivity.
  - intros res layers Hf Hp Hnone.
    unfold Gibs.availableDates. rewrite Hf. cbn [JS.bind]. rewrite Hp. cbn [JS.bind JS.try_catch].
    rewrite (timeDates_skip layer layers _ Hnone). reflexivity.
  - intros [(e & Hf) | (res & e & Hf & Hp)]; unfold Gibs.availableDates; rewrite Hf;
      cbn [JS.bind]; [| rewrite Hp]; reflexivity.
Qed.

Lemma later_entry_of_the_capabilities_wins :
  Gibs.availableDates (Scenario.capabilitiesWorld 404)
    "MODIS_Terra_CorrectedReflectance_TrueColor"
  = JS.Ret (Http.json 200
              (Http.JObj [("availableDates",
                           Http.JArr [Http.JStr "2024-01-05"; Http.JStr "2024-01-09"])])).
Proof.
  exact (proj1 (available_dates_of_a_layer (Scenario.capabilitiesWorld 404)
                  "MODIS_Terra_CorrectedReflectance_TrueColor")
           (Http.mkReply 404 [60])
           [Scenario.terra "2024-01-01,2024-01-02"]
           (Scenario.terra "2024-01-05,2024-01-09")
           [Scenario.aqua "2023-12-31"]
           [("Style", "default"); ("Time", "2024-01-05,2024-01-09")]
           ["2024-01-05"; "2024-01-09"]
           eq_refl eq_refl eq_refl eq_refl eq_refl eq_refl).
Defined.

(** ** Provider A *)

Lemma existsb_not_in (date : string) (l : list string) :
  ~ In date l -> existsb (String.eqb date) l = false.
Proof.
  induction l as [| a l IH]; intros H; [reflexivity|].
  cbn [existsb]. apply orb_false_iff. split.
  - apply String.eqb_neq. intros ->. apply H. left. reflexivity.
  - apply IH. intros Hin. apply H. right. exact Hin.
Qed.

Lemma orElse_some (s d : string) : s <> "" -> JS.orElse (Some s) d = s.
Proof. destruct s; [congruence | reflexivity]. Qed.

(** X8.  Provider A, on the fallback path: when the exact-date query
    succeeds with a non-empty list that does not hold the requested date
    and the imagery endpoint serves the requested date, the image is
    returned with [x-image-metadata] set to the first date of that list,
    not to the date the image was fetched for. *)
Theorem fallback_image_carries_the_first_listed_date
  (W : Nasa.World) (q : Http.Query) (range7 : string * string)
  (exact picture : Http.Reply) (first : string) (others : list string) :
  let lat := Nasa.floatText W (JS.orElse (Http.get q "lat") "0") in
  let lon := Nasa.floatText W (JS.orElse (Http.get q "lon") "0") in
  let date := JS.orElse (Http.get q "date") "" in
  let dim := Nasa.floatText W (JS.orElse (Http.get q "dim") "0.2") in
  let exactUrl := Nasa.assetsUrl (Nasa.apiKey W) lon lat date date dim in
  let imagery := Nasa.imageryUrl (Nasa.apiKey W) lon lat date dim in
  let availableDates7 :=
    Nasa.windowQuery W
      (Nasa.assetsUrl (Nasa.apiKey W) lon lat (fst range7) (snd range7) dim) in
  Nasa.window7 W date = JS.Ret range7 ->
  Nasa.fetch W exactUrl = JS.Ret exact ->
  Http.ok exact = true ->
  Nasa.resultDates W (Nasa.orEmptyObject (Http.reply_body exact))
  = JS.Ret (first :: others) ->
  first <> "" ->
  ~ In date (first :: others) ->
  Nasa.fetch W imagery = JS.Ret picture ->
  Http.ok picture = true ->
  Nasa.GET W q
  = JS.Ret (Http.image "image/png" (Nasa.imageHeaders first availableDates7)
              (Http.reply_body picture)).
Proof.
  intros lat lon date dim exactUrl imagery availableDates7
         Hw He Hok Hdates Hfirst Hnot Hi Hpic.
  unfold Nasa.GET. cbv zeta.
  fold lat lon date dim. fold exactUrl imagery.
  rewrite Hw. cbn [JS.bind]. fold availableDates7.
  assert (Ha : Nasa.parseAssets W (Nasa.exactQuery W exactUrl)
               = {| Nasa.availableDates := first :: others;
                    Nasa.closestDate := Some first;
                    Nasa.assetsError := false |}).
  { unfold Nasa.exactQuery. rewrite He. unfold Nasa.parseAssets. cbn [snd fst].
    rewrite Hok. cbn [negb]. rewrite Hdates. reflexivity. }
  rewrite Ha. cbn [Nasa.assetsError Nasa.availableDates negb andb].
  rewrite (existsb_not_in date _ Hnot).
  unfold Nasa.fallback. rewrite Hi, Hpic. cbn [Nasa.closestDate].
  rewrite (orElse_some first date Hfirst). reflexivity.
Qed.

Lemma picture_of_the_8th_is_labelled_the_5th :
  Nasa.GET (Sample.nasaWorld (JS.Ret (Http.mkReply 200 Sample.twoDates)) Sample.picture)
    Sample.nasaQuery
  = JS.Ret (Http.image "image/png"
              [("x-image-metadata", "2024-01-05");
               ("x-nasa-available-dates", "2024-01-05,2024-01-09")]
              (Sample.encode 2048 2048)).
Proof.
  apply (fallback_image_carries_the_first_listed_date
           (Sample.nasaWorld (JS.Ret (Http.mkReply 200 Sample.twoDates)) Sample.picture)
           Sample.nasaQuery ("2024-01-01", "2024-01-15")
           (Http.mkReply 200 Sample.twoDates) (Http.mkReply 200 (Sample.encode 2048 2048))
           "2024-01-05" ["2024-01-09"]); try reflexivity.
  - discriminate.
  - intros [H | [H | []]]; discriminate H.
Defined.

(** X9.  Provider A, on the listed path: when the exact-date query lists
    the requested date and the image fetch is rejected or not ok, the
    answer is the error "Failed to fetch NASA image."; the fallback is
    not tried and the dates of the window are not reported. *)
Theorem listed_date_without_picture (W : Nasa.World) (q : Http.Query)
  (range7 : string * string) :
  let lat := Nasa.floatText W (JS.orElse (Http.get q "lat") "0") in
  let lon := Nasa.floatText W (JS.orElse (Http.get q "lon") "0") in
  let date := JS.orElse (Http.get q "date") "" in
  let dim := Nasa.floatText W (JS.orElse (Http.get q "dim") "0.2") in
  let exact :=
    Nasa.parseAssets W
      (Nasa.exactQuery W (Nasa.assetsUrl (Nasa.apiKey W) lon lat date date dim)) in
  let imagery := Nasa.imageryUrl (Nasa.apiKey W) lon lat date dim in
  Nasa.window7 W date = JS.Ret range7 ->
  Nasa.assetsError exact = false ->
  In date (Nasa.availableDates exact) ->
  (exists e, Nasa.fetch W imagery = JS.Throw e)
  \/ (exists r, Nasa.fetch W imagery = JS.Ret r /\ Http.ok r = false) ->
  exists st, Nasa.GET W q = JS.Ret (Http.errorJson st "Failed to fetch NASA image.").
Proof.
  intros lat lon date dim exact imagery Hw Herr Hin Hfail.
  unfold Nasa.GET. cbv zeta. fold lat lon date dim. fold exact imagery.
  rewrite Hw. cbn [JS.bind]. rewrite Herr. cbn [negb andb].
  assert (Hl : existsb (String.eqb date) (Nasa.availableDates exact) = true).
  { apply existsb_exists. exists date. split; [exact Hin | apply String.eqb_refl]. }
  rewrite Hl. unfold Nasa.fetchImage.
  destruct Hfail as [(e & ->) | (r & -> & Hr)]; cbn [JS.bind JS.try_catch].
  - exists 500. reflexivity.
  - rewrite Hr. cbn [negb]. exists (Http.reply_status r). reflexivity.
Qed.

Lemma listed_date_with_a_missing_picture :
  exists st,
    Nasa.GET (Sample.nasaWorld (JS.Ret (Http.mkReply 200 Sample.requestedDateOnly))
                Sample.noPicture) Sample.nasaQuery
    = JS.Ret (Http.errorJson st "Failed to fetch NASA image.").
Proof.
  apply (listed_date_without_picture
           (Sample.nasaWorld (JS.Ret (Http.mkReply 200 Sample.requestedDateOnly))
              Sample.noPicture)
           Sample.nasaQuery ("2024-01-01", "2024-01-15")).
  - reflexivity.
  - reflexivity.
  - left. reflexivity.
  - right. exists (Http.mkReply 404 []). split; reflexivity.
Defined.

(** X10.  The provider A route lets an exception escape exactly when the
    date of the request cannot be formatted for the fourteen-day window,
    and then it is that exception.  Its answer does not depend on the
    [resolution] parameter. *)
Theorem provider_A_route_rejects_only_on_the_date (W : Nasa.World) (q : Http.Query) :
  (forall e, Nasa.GET W q = JS.Throw e
             <-> Nasa.window7 W (JS.orElse (Http.get q "date") "") = JS.Throw e)
  /\ (forall q',
        (forall name, name <> "resolution" -> Http.get q' name = Http.get q name) ->
        Nasa.GET W q' = Nasa.GET W q).
Proof.
  split.
  - intros e. split; [apply GET_throws_only_on_invalid_date|].
    intros H. unfold Nasa.GET. cbv zeta. rewrite H. reflexivity.
  - intros q' Hsame. unfold Nasa.GET. cbv zeta.
    rewrite !Hsame by discriminate. reflexivity.
Qed.

Lemma resolution_does_not_reach_provider_A :
  Nasa.GET (Sample.nasaWorld (JS.Ret (Http.mkReply 200 Sample.requestedDateOnly))
              Sample.picture) Scenario.nasaQueryWithResolution
  = Nasa.GET (Sample.nasaWorld (JS.Ret (Http.mkReply 200 Sample.requestedDateOnly))
                Sample.picture) Sample.nasaQuery.
Proof.
  apply (proj2 (provider_A_route_rejects_only_on_the_date
                  (Sample.nasaWorld (JS.Ret (Http.mkReply 200 Sample.requestedDateOnly))
                     Sample.picture) Sample.nasaQuery)).
  intros name Hname. unfold Scenario.nasaQueryWithResolution. cbn [Http.get].
  destruct (String.eqb "resolution" name) eqn:E; [| reflexivity].
  apply String.eqb_eq in E. congruence.
Defined.

(** ** The GIBS branches of the explorer *)

(** X11.  The GIBS branches of the two explorer handlers end with either
    a preview or an explanation, never both and never neither; the
    availability text says the tile is available exactly when there is
    a preview.  Both handlers show the same preview, text and actual
    date; the fetch handler ends with [fetchingImage] false and keeps
    the listed dates, the check leaves [fetchingImage] as it was and
    clears them. *)
Theorem gibs_preview_is_shown_or_explained (B : Explorer.Browser) (st : Explorer.State) :
  let checked := snd (Explorer.handleCheckAvailability_gibs B st) in
  let fetched := snd (Explorer.handleFetchImage_gibs B st) in
  (Explorer.gibsPreviewUrl checked = None <-> Explorer.gibsPreviewError checked <> None)
  /\ (Explorer.gibsPreviewUrl checked <> None
      <-> Explorer.availability checked = Some "GIBS tile available!")
  /\ Explorer.gibsPreviewUrl fetched = Explorer.gibsPreviewUrl checked
  /\ Explorer.gibsPreviewError fetched = Explorer.gibsPreviewError checked
  /\ Explorer.availability fetched = Explorer.availability checked
  /\ Explorer.gibsActualDate fetched = Explorer.gibsActualDate checked
  /\ Explorer.imageUrl fetched = None /\ Explorer.imageUrl checked = None
  /\ Explorer.fetchingImage fetched = false
  /\ Explorer.fetchingImage checked = Explorer.fetchingImage st
  /\ Explorer.availableDates fetched = Explorer.availableDates st
  /\ Explorer.availableDates checked = [].
Proof.
  unfold Explorer.handleCheckAvailability_gibs, Explorer.handleFetchImage_gibs.
  cbv zeta. unfold Explorer.preview.
  destruct (Explorer.request B (Explorer.tileUrlOf B st)) as [res | e].
  - destruct (Explorer.api_ok res); cbn;
      repeat split; intros; try congruence; try discriminate.
  - cbn; repeat split; intros; try congruence; try discriminate.
Qed.

(** X12.  The actual date shown for a GIBS tile is the requested date or
    a member of the date list the route returned with an ok status; it
    is null only when the date request was rejected or its ok reply
    could not be read. *)
Theorem actual_date_is_requested_or_listed (B : Explorer.Browser) (st : Explorer.State) :
  match Explorer.actualDate B st with
  | Some d =>
      d = Explorer.date st
      \/ exists res dates,
           Explorer.request B (Explorer.datesUrlOf st) = JS.Ret res
           /\ Explorer.api_ok res = true
           /\ Explorer.api_availableDates res = JS.Ret dates
           /\ In d dates
  | None =>
      (exists e, Explorer.request B (Explorer.datesUrlOf st) = JS.Throw e)
      \/ exists res e,
           Explorer.request B (Explorer.datesUrlOf st) = JS.Ret res
           /\ Explorer.api_ok res = true
           /\ Explorer.api_availableDates res = JS.Throw e
  end.
Proof.
  unfold Explorer.actualDate.
  destruct (Explorer.request B (Explorer.datesUrlOf st)) as [res | e] eqn:Hr.
  - destruct (Explorer.api_ok res) eqn:Hok; [| left; reflexivity].
    destruct (Explorer.api_availableDates res) as [dates | e] eqn:Hd.
    + destruct (Explorer.closestTo (Explorer.getTime B)
                  (Explorer.getTime B (Explorer.date st)) dates) as [c |] eqn:Hc.
      * right. exists res, dates. repeat split; try assumption; try reflexivity.
        exact (closestTo_member _ _ _ _ Hc).
      * left. reflexivity.
    + right. exists res, e. repeat split; try assumption; reflexivity.
  - left. exists e. reflexivity.
Qed.

(** ** The order of texts *)

Lemma ascii_compare_trans (a b c : ascii) (o : comparison) :
  Ascii.compare a b = o -> Ascii.compare b c = o -> Ascii.compare a c = o.
Proof.
  unfold Ascii.compare. intros H1 H2.
  destruct o.
  - apply N.compare_eq_iff in H1, H2. apply N.compare_eq_iff. congruence.
  - exact (N.lt_trans _ _ _ H1 H2).
  - apply N.gt_lt_iff. apply N.gt_lt_iff in H1, H2. exact (N.lt_trans _ _ _ H2 H1).
Qed.

Lemma string_compare_lt_trans (a b c : string) :
  String.compare a b = Lt -> String.compare b c = Lt -> String.compare a c = Lt.
Proof.
  revert b c. induction a as [| x a IH]; intros [| y b] [| z c]; cbn [String.compare];
    try discriminate; try reflexivity.
  destruct (Ascii.compare x y) eqn:Exy; try discriminate;
    destruct (Ascii.compare y z) eqn:Eyz; try discriminate; intros H1 H2.
  - rewrite (ascii_compare_trans x y z Eq Exy Eyz). exact (IH b c H1 H2).
  - apply Ascii.compare_eq_iff in Exy. subst y. rewrite Eyz. reflexivity.
  - apply Ascii.compare_eq_iff in Eyz. subst z. rewrite Exy. reflexivity.
  - rewrite (ascii_compare_trans x y z Lt Exy Eyz). reflexivity.
Qed.

Lemma string_leb_refl (a : string) : String.leb a a = true.
Proof. destruct (String.leb_total a a); assumption. Qed.

Lemma string_leb_trans (a b c : string) :
  String.leb a b = true -> String.leb b c = true -> String.leb a c = true.
Proof.
  intros H1 H2. unfold String.leb in H1, H2.
  destruct (String.compare a b) eqn:Eab; try discriminate;
    destruct (String.compare b c) eqn:Ebc; try discriminate.
  - apply String.compare_eq_iff in Eab, Ebc. subst. apply string_leb_refl.
  - apply String.compare_eq_iff in Eab. subst. unfold String.leb. rewrite Ebc. reflexivity.
  - apply String.compare_eq_iff in Ebc. subst. unfold String.leb. rewrite Eab. reflexivity.
  - unfold String.leb. rewrite (string_compare_lt_trans a b c Eab Ebc). reflexivity.
Qed.

(** ** Sorted date lists *)

Lemma in_insert (d x : string) (l : list string) :
  In x (Panel.insert d l) <-> x = d \/ In x l.
Proof.
  induction l as [| e l IH]; cbn [Panel.insert].
  - cbn [In]. intuition.
  - destruct (String.leb d e); cbn [In]; [intuition|].
    rewrite IH. intuition.
Qed.

Lemma in_sort (x : string) (l : list string) : In x (Panel.sort l) <-> In x l.
Proof.
  induction l as [| d l IH]; [reflexivity|].
  unfold Panel.sort in *. cbn [fold_right]. rewrite in_insert, IH. cbn [In]. intuition.
Qed.

Lemma insert_ordered (d : string) (l : list string) :
  Panel.ordered l -> Panel.ordered (Panel.insert d l).
Proof.
  unfold Panel.ordered. induction l as [| e l IH]; intros H; cbn [Panel.insert].
  - repeat constructor.
  - inversion H as [| ? ? Hl Hall]; subst.
    destruct (String.leb d e) eqn:Ede.
    + constructor; [exact H|]. constructor; [exact Ede|].
      eapply Forall_impl; [| exact Hall]. intros b Hb.
      exact (string_leb_trans d e b Ede Hb).
    + constructor; [apply IH; exact Hl|].
      apply Forall_forall. intros x Hx. apply in_insert in Hx. destruct Hx as [-> | Hx].
      * destruct (String.leb_total d e) as [H' | H']; [congruence | exact H'].
      * rewrite Forall_forall in Hall. apply Hall. exact Hx.
Qed.

Lemma sort_ordered (l : list string) : Panel.ordered (Panel.sort l).
Proof.
  induction l as [| d l IH]; [constructor|].
  unfold Panel.sort in *. cbn [fold_right]. apply insert_ordered. exact IH.
Qed.

Lemma ordered_app (l1 l2 : list string) :
  Panel.ordered (l1 ++ l2) ->
  Panel.ordered l1 /\ Panel.ordered l2
  /\ (forall a b, In a l1 -> In b l2 -> String.leb a b = true).
Proof.
  unfold Panel.ordered. induction l1 as [| x l1 IH]; cbn [app]; intros H.
  - split; [constructor|]. split; [exact H|]. intros a b [].
  - inversion H as [| ? ? Hl Hall]; subst.
    destruct (IH Hl) as (H1 & H2 & H12).
    rewrite Forall_forall in Hall.
    split; [| split; [exact H2|]].
    + constructor; [exact H1|]. apply Forall_forall. intros b Hb.
      apply Hall. apply in_or_app. left. exact Hb.
    + intros a b [<- | Ha] Hb.
      * apply Hall. apply in_or_app. right. exact Hb.
      * exact (H12 a b Ha Hb).
Qed.

(** ** [findIndex] *)

Lemma findIndex_from_spec (p : string -> bool) (l : list string) (i : Z) :
  (Panel.findIndex_from i p l = -1 /\ (0 <= i -> forallb (fun d => negb (p d)) l = true))
  \/ exists before d after,
       l = (before ++ d :: after)%list
       /\ forallb (fun d => negb (p d)) before = true
       /\ p d = true
       /\ Panel.findIndex_from i p l = i + Z.of_nat (List.length before).
Proof.
  revert i. induction l as [| e l IH]; intros i; cbn [Panel.findIndex_from].
  - left. split; [reflexivity | reflexivity].
  - destruct (p e) eqn:Epe.
    + right. exists [], e, l. cbn. repeat split; [exact Epe | lia].
    + destruct (IH (i + 1)) as [[H1 H2] | (before & d & after & Hl & Hb & Hd & Hi)].
      * destruct (Z.eq_dec (Panel.findIndex_from (i + 1) p l) (-1)) as [E | E];
          [| congruence].
        left. split; [exact E|]. intros Hi. cbn [forallb]. rewrite Epe. cbn [negb andb].
        apply H2. lia.
      * right. exists (e :: before), d, after. subst l. cbn [app forallb List.length].
        rewrite Epe, Hb, Hi. repeat split; [exact Hd | lia].
Qed.

Lemma findIndex_spec (p : string -> bool) (l : list string) :
  (Panel.findIndex p l = -1 /\ forallb (fun d => negb (p d)) l = true)
  \/ exists before d after,
       l = (before ++ d :: after)%list
       /\ forallb (fun d => negb (p d)) before = true
       /\ p d = true
       /\ Panel.findIndex p l = Z.of_nat (List.length before).
Proof.
  unfold Panel.findIndex.
  destruct (findIndex_from_spec p l 0) as [[H1 H2] | (before & d & after & H)].
  - left. split; [exact H1 | apply H2; lia].
  - right. exists before, d, after. exact H.
Qed.

Lemma item_middle (before after : list string) (d : string) :
  Panel.item (before ++ d :: after) (Z.of_nat (List.length before)) = Some d.
Proof.
  unfold Panel.item.
  destruct (Z.of_nat (List.length before) <? 0) eqn:E; [apply Z.ltb_lt in E; lia|].
  rewrite Nat2Z.id, nth_error_app2 by lia. rewrite Nat.sub_diag. reflexivity.
Qed.

(** ** The sorted arrangement is unique *)

Lemma insert_permutation (d : string) (l : list string) :
  Permutation (Panel.insert d l) (d :: l).
Proof.
  induction l as [| e l IH]; cbn [Panel.insert]; [reflexivity|].
  destruct (String.leb d e); [reflexivity|].
  rewrite IH. apply perm_swap.
Qed.

Lemma sort_permutation (l : list string) : Permutation (Panel.sort l) l.
Proof.
  induction l as [| d l IH]; [reflexivity|].
  unfold Panel.sort in *. cbn [fold_right]. rewrite insert_permutation, IH. reflexivity.
Qed.

(** Two arrangements of the same dates in ascending order are equal:
    whatever algorithm sorts the array, the result is [Panel.sort]. *)
Lemma ordered_unique (s t : list string) :
  Permutation s t -> Panel.ordered s -> Panel.ordered t -> s = t.
Proof.
  revert t. induction s as [| a s IH]; intros t Hp Hs Ht.
  - apply Permutation_nil in Hp. congruence.
  - destruct t as [| b t]; [apply Permutation_sym, Permutation_nil in Hp; discriminate|].
    unfold Panel.ordered in Hs, Ht.
    inversion Hs as [| ? ? Hs' Has]; subst. inversion Ht as [| ? ? Ht' Hbt]; subst.
    rewrite Forall_forall in Has, Hbt.
    assert (Hab : a = b).
    { assert (Hb : In b (a :: s)).
      { apply (Permutation_in b (Permutation_sym Hp)). left. reflexivity. }
      assert (Ha : In a (b :: t)).
      { apply (Permutation_in a Hp). left. reflexivity. }
      destruct Hb as [Hb | Hb]; [exact Hb|]. destruct Ha as [Ha | Ha]; [auto|].
      apply String.leb_antisym; [apply Has, Hb | apply Hbt, Ha]. }
    subst b. f_equal. apply IH; [| exact Hs' | exact Ht'].
    exact (Permutation_cons_inv Hp).
Qed.

Lemma sort_unique (dates sorted : list string) :
  Permutation sorted dates -> Panel.ordered sorted -> sorted = Panel.sort dates.
Proof.
  intros Hp Ho. apply ordered_unique; [| exact Ho | apply sort_ordered].
  rewrite Hp. symmetry. apply sort_permutation.
Qed.

(** ** Previous and next date of the provider A branch *)

Lemma isClosest_true (data : Panel.Data) (d : string) :
  Panel.isClosest data d = true <-> Panel.closestDate data = Some d.
Proof.
  unfold Panel.isClosest. destruct (Panel.closestDate data) as [c |].
  - split; intros H.
    + apply String.eqb_eq in H. congruence.
    + injection H as ->. apply String.eqb_refl.
  - split; discriminate.
Qed.

Lemma none_closest (data : Panel.Data) (l : list string) :
  forallb (fun d => negb (Panel.isClosest data d)) l = true ->
  forall c, Panel.closestDate data = Some c -> ~ In c l.
Proof.
  intros H c Hc Hin. rewrite forallb_forall in H. specialize (H c Hin).
  apply (proj2 (isClosest_true data c)) in Hc. rewrite Hc in H. discriminate.
Qed.

Lemma split_last (l : list string) :
  l = [] \/ exists front p, l = (front ++ [p])%list.
Proof.
  destruct l as [| a l]; [left; reflexivity | right].
  destruct (@exists_last _ (a :: l)) as (front & p & H); [discriminate | eauto].
Qed.

(** The index found, the two entries beside it, and the split of the
    sorted list at the first occurrence of the closest date. *)
Lemma navigation_split (data : Panel.Data) (d : string) (ds : list string) :
  Panel.availableDates data = Some (d :: ds) ->
  (Panel.navigation data = (None, None)
   /\ forall c, Panel.closestDate data = Some c -> ~ In c (d :: ds))
  \/ exists before c after,
       Panel.sort (d :: ds) = (before ++ c :: after)%list
       /\ Panel.closestDate data = Some c
       /\ ~ In c before
       /\ fst (Panel.navigation data)
          = match rev before with p :: _ => Some p | [] => None end
       /\ snd (Panel.navigation data) = hd_error after.
Proof.
  intros Hd. unfold Panel.navigation. rewrite Hd. cbv zeta.
  set (sorted := Panel.sort (d :: ds)).
  destruct (findIndex_spec (Panel.isClosest data) sorted)
    as [[Hidx Hnone] | (before & c & after & Hs & Hb & Hc & Hidx)].
  - left. rewrite Hidx. split; [reflexivity|].
    intros c Hc Hin. apply (none_closest data sorted Hnone c Hc).
    apply in_sort. exact Hin.
  - right. exists before, c, after. apply isClosest_true in Hc.
    split; [exact Hs|]. split; [exact Hc|].
    split; [exact (none_closest data before Hb c Hc)|].
    rewrite Hidx, Hs. cbn [fst snd]. split.
    + destruct (split_last before) as [-> | (front & p & ->)].
      * reflexivity.
      * rewrite rev_app_distr. cbn [rev app].
        rewrite length_app. cbn [List.length].
        destruct (0 <? Z.of_nat (List.length front + 1)) eqn:E;
          [| apply Z.ltb_ge in E; lia].
        replace (Z.of_nat (List.length front + 1) - 1) with (Z.of_nat (List.length front))
          by lia.
        rewrite <- app_assoc. cbn [app]. apply item_middle.
    + destruct after as [| n after']; rewrite length_app; cbn [List.length hd_error];
        match goal with |- (if ?b then _ else _) = _ => destruct b eqn:E end.
      * apply andb_true_iff in E. destruct E as [_ E]. apply Z.ltb_lt in E. lia.
      * reflexivity.
      * replace (before ++ c :: n :: after')%list
          with ((before ++ [c]) ++ n :: after')%list
          by (rewrite <- app_assoc; reflexivity).
        replace (Z.of_nat (List.length before) + 1)
          with (Z.of_nat (List.length (before ++ [c])))
          by (rewrite length_app; cbn [List.length]; lia).
        apply item_middle.
      * apply andb_false_iff in E. destruct E as [E | E];
          [apply Z.leb_gt in E | apply Z.ltb_ge in E]; lia.
Qed.

Lemma neighbours_in_order (dates before after : list string) (c : string) :
  (forall x, In x (before ++ c :: after) <-> In x dates) ->
  Panel.ordered (before ++ c :: after) ->
  ~ In c before ->
  (forall p, match rev before with p' :: _ => Some p' | [] => None end = Some p ->
             Panel.latestBefore dates c p)
  /\ (forall n, hd_error after = Some n -> Panel.earliestFrom dates c n).
Proof.
  intros Hperm Hord Hnot.
  destruct (ordered_app before (c :: after) Hord) as (Hob & Hoa & Hcross).
  assert (Hafter : forall a, In a after -> String.leb c a = true).
  { intros a Ha. unfold Panel.ordered in Hoa.
    inversion Hoa as [| ? ? _ Hall]; subst. rewrite Forall_forall in Hall. auto. }
  split.
  - intros p Hp.
    destruct (split_last before) as [-> | (front & p' & ->)]; [discriminate|].
    rewrite rev_app_distr in Hp. cbn [rev app] in Hp. injection Hp as ->.
    assert (Hpin : In p (front ++ [p])) by (apply in_or_app; right; left; reflexivity).
    destruct (ordered_app front [p] Hob) as (_ & _ & Hfront).
    repeat split.
    + apply Hperm. apply in_or_app. left. exact Hpin.
    + apply Hcross; [exact Hpin | left; reflexivity].
    + intros ->. exact (Hnot Hpin).
    + intros x Hx Hxc Hne. apply Hperm in Hx. apply in_app_or in Hx.
      destruct Hx as [Hx | [Hx | Hx]].
      * apply in_app_or in Hx. destruct Hx as [Hx | [<- | []]].
        -- apply Hfront; [exact Hx | left; reflexivity].
        -- apply string_leb_refl.
      * congruence.
      * exfalso. apply Hne. apply String.leb_antisym; [exact Hxc | exact (Hafter x Hx)].
  - intros n Hn. destruct after as [| n' after']; [discriminate|].
    cbn [hd_error] in Hn. injection Hn as ->.
    repeat split.
    + apply Hperm. apply in_or_app. right. right. left. reflexivity.
    + apply Hafter. left. reflexivity.
    + intros x Hx Hcx Hne. apply Hperm in Hx. apply in_app_or in Hx.
      destruct Hx as [Hx | [Hx | [<- | Hx]]].
      * exfalso. apply Hne. apply String.leb_antisym; [| exact Hcx].
        apply Hcross; [exact Hx | left; reflexivity].
      * congruence.
      * apply string_leb_refl.
      * unfold Panel.ordered in Hoa. inversion Hoa as [| ? ? Hoa' _]; subst.
        inversion Hoa' as [| ? ? _ Hall]; subst. rewrite Forall_forall in Hall. auto.
Qed.

Lemma navigation_neighbours (data : Panel.Data) (dates : list string) :
  Panel.availableDates data = Some dates ->
  (forall p, fst (Panel.navigation data) = Some p ->
     exists c, Panel.closestDate data = Some c /\ In c dates
               /\ Panel.latestBefore dates c p)
  /\ (forall n, snd (Panel.navigation data) = Some n ->
        exists c, Panel.closestDate data = Some c /\ In c dates
                  /\ Panel.earliestFrom dates c n)
  /\ ((forall c, Panel.closestDate data = Some c -> ~ In c dates) ->
      Panel.navigation data = (None, None)).
Proof.
  intros Hd. destruct dates as [| d ds].
  { unfold Panel.navigation. rewrite Hd. cbn [fst snd].
    split; [discriminate | split; [discriminate | reflexivity]]. }
  destruct (navigation_split data d ds Hd)
    as [[Hnav Hnot] | (before & c & after & Hs & Hc & Hnb & Hp & Hn)].
  - rewrite Hnav. cbn [fst snd].
    split; [discriminate | split; [discriminate | reflexivity]].
  - assert (Hperm : forall x, In x (before ++ c :: after) <-> In x (d :: ds)).
    { intros x. rewrite <- Hs. apply in_sort. }
    assert (Hord : Panel.ordered (before ++ c :: after)).
    { rewrite <- Hs. apply sort_ordered. }
    assert (Hin : In c (d :: ds)).
    { apply Hperm. apply in_or_app. right. left. reflexivity. }
    destruct (neighbours_in_order (d :: ds) before after c Hperm Hord Hnb) as [H1 H2].
    split; [| split].
    + intros p Hp'. exists c. rewrite Hp in Hp'. auto.
    + intros n Hn'. exists c. rewrite Hn in Hn'. auto.
    + intros Hnone. destruct (Hnone c Hc Hin).
Qed.

(** X13.  The provider A branch of [handleCheckAvailability], on a reply
    that is not ok and lists dates: the previous date offered is the
    latest listed date strictly before the closest date, the next one is
    the entry that follows the first occurrence of the closest date in
    ascending order (no later than any listed date after it), both in
    the order of texts; and when the closest date is null or not among
    the listed dates, neither is offered. *)
Theorem provider_A_navigation (N : Panel.Net) (c : Panel.Controls)
  (res : Panel.Res) (data : Panel.Data) (dates : list string) :
  Panel.fetch N "/api/fetch-image" (Panel.nasaParams N c) = JS.Ret res ->
  Panel.res_ok res = false ->
  Panel.res_json res = JS.Ret data ->
  Panel.availableDates data = Some dates ->
  let after := Panel.state (snd (Panel.handleCheckAvailability_nasa N c)) in
  Explorer.availableDates after = dates
  /\ (forall p, Explorer.prevAvailable after = Some p ->
        exists closest, Panel.closestDate data = Some closest /\ In closest dates
                        /\ Panel.latestBefore dates closest p)
  /\ (forall n, Explorer.nextAvailable after = Some n ->
        exists closest, Panel.closestDate data = Some closest /\ In closest dates
                        /\ Panel.earliestFrom dates closest n)
  /\ ((forall closest, Panel.closestDate data = Some closest -> ~ In closest dates) ->
      Explorer.prevAvailable after = None /\ Explorer.nextAvailable after = None).
Proof.
  intros Hf Hok Hj Hd after.
  assert (Hafter : Explorer.availableDates after = dates
                   /\ Explorer.prevAvailable after = fst (Panel.navigation data)
                   /\ Explorer.nextAvailable after = snd (Panel.navigation data)).
  { unfold after, Panel.handleCheckAvailability_nasa. cbv zeta.
    rewrite Hf, Hok, Hj. destruct (Panel.navigation data) as [prev next].
    cbn. rewrite Hd. auto. }
  destruct Hafter as (Ha & Hp & Hn). rewrite Hp, Hn.
  destruct (navigation_neighbours data dates Hd) as (H1 & H2 & H3).
  split; [exact Ha|]. split; [exact H1|]. split; [exact H2|].
  intros Hnone. rewrite (H3 Hnone). auto.
Qed.

Lemma neighbours_of_the_9th :
  let after :=
    Panel.state (snd (Panel.handleCheckAvailability_nasa
                        (Scenario.net (Scenario.notFound Scenario.threeDates))
                        (Scenario.controls 23))) in
  Explorer.prevAvailable after = Some "2024-01-05"
  /\ Explorer.nextAvailable after = Some "2024-01-12"
  /\ Panel.latestBefore ["2024-01-09"; "2024-01-05"; "2024-01-12"]
       "2024-01-09" "2024-01-05".
Proof.
  pose proof (provider_A_navigation
                (Scenario.net (Scenario.notFound Scenario.threeDates))
                (Scenario.controls 23)
                {| Panel.res_ok := false; Panel.res_json := JS.Ret Scenario.threeDates;
                   Panel.res_blob := []; Panel.res_metadata := None |}
                Scenario.threeDates
                ["2024-01-09"; "2024-01-05"; "2024-01-12"]
                eq_refl eq_refl eq_refl eq_refl) as H.
  cbv zeta in H. destruct H as (_ & Hprev & _).
  cbv zeta. split; [reflexivity|]. split; [reflexivity|].
  destruct (Hprev "2024-01-05" eq_refl) as (closest & Hc & _ & Hl).
  injection Hc as <-. exact Hl.
Defined.

Lemma textsOf_map (l : list string) : Panel.textsOf (map Http.JStr l) = l.
Proof. induction l as [| a l IH]; [reflexivity|]. cbn. rewrite IH. reflexivity. Qed.

Lemma received_noImagery (serialize : Http.Json -> Http.Buffer)
  (dates7 : list string) (closest : option string) :
  Panel.res_ok (Panel.received serialize (Nasa.noImagery dates7 closest)) = false
  /\ Panel.res_json (Panel.received serialize (Nasa.noImagery dates7 closest))
     = JS.Ret {| Panel.error := Some "No imagery available for this date/location.";
                 Panel.availableDates := Some dates7;
                 Panel.closestDate := closest;
                 Panel.scenes := None |}.
Proof.
  split; [reflexivity|].
  unfold Panel.received, Nasa.noImagery, Http.json. cbn [Http.payload].
  unfold Panel.dataOf. cbn. rewrite textsOf_map. destruct closest; reflexivity.
Qed.

(** X14.  The 404 of the provider A route as the explorer shows it: the
    availability text and the error are the route's message, the dates
    are the route's [availableDates], the closest date is the route's
    [closestDate]; and when that date is null or not among the dates,
    which are those of the fourteen-day window, no previous or next date
    is offered. *)
Theorem route_404_as_the_explorer_shows_it (N : Panel.Net) (c : Panel.Controls)
  (serialize : Http.Json -> Http.Buffer) (dates7 : list string) (closest : option string) :
  Panel.fetch N "/api/fetch-image" (Panel.nasaParams N c)
  = JS.Ret (Panel.received serialize (Nasa.noImagery dates7 closest)) ->
  let after := Panel.state (snd (Panel.handleCheckAvailability_nasa N c)) in
  Explorer.availability after = Some "No imagery available for this date/location."
  /\ Explorer.errorMsg after = Some "No imagery available for this date/location."
  /\ Explorer.availableDates after = dates7
  /\ Explorer.closestDate after = Panel.truthyText closest
  /\ ((forall d, closest = Some d -> ~ In d dates7) ->
      Explorer.prevAvailable after = None /\ Explorer.nextAvailable after = None).
Proof.
  intros Hf after.
  destruct (received_noImagery serialize dates7 closest) as [Hok Hj].
  set (data := {| Panel.error := Some "No imagery available for this date/location.";
                  Panel.availableDates := Some dates7;
                  Panel.closestDate := closest;
                  Panel.scenes := None |}) in *.
  assert (Hafter :
            Explorer.availability after
            = Some "No imagery available for this date/location."
            /\ Explorer.errorMsg after
               = Some "No imagery available for this date/location."
            /\ Explorer.availableDates after = dates7
            /\ Explorer.closestDate after = Panel.truthyText closest
            /\ Explorer.prevAvailable after = fst (Panel.navigation data)
            /\ Explorer.nextAvailable after = snd (Panel.navigation data)).
  { unfold after, Panel.handleCheckAvailability_nasa. cbv zeta.
    rewrite Hf, Hok, Hj. destruct (Panel.navigation data) as [prev next].
    cbn. auto 10. }
  destruct Hafter as (H1 & H2 & H3 & H4 & H5 & H6).
  repeat (split; [assumption|]).
  intros Hnone. rewrite H5, H6.
  destruct (navigation_neighbours data dates7 eq_refl) as (_ & _ & Hn).
  rewrite (Hn Hnone). auto.
Qed.

Lemma window_dates_without_navigation :
  let after :=
    Panel.state
      (snd (Panel.handleCheckAvailability_nasa
              (Scenario.net
                 (JS.Ret (Panel.received (fun _ => [])
                            (Nasa.noImagery ["2024-01-05"; "2024-01-09"] None))))
              (Scenario.controls 23))) in
  Explorer.availableDates after = ["2024-01-05"; "2024-01-09"]
  /\ Explorer.prevAvailable after = None /\ Explorer.nextAvailable after = None.
Proof.
  pose proof (route_404_as_the_explorer_shows_it
                (Scenario.net
                   (JS.Ret (Panel.received (fun _ => [])
                              (Nasa.noImagery ["2024-01-05"; "2024-01-09"] None))))
                (Scenario.controls 23) (fun _ => [])
                ["2024-01-05"; "2024-01-09"] None eq_refl) as H.
  cbv zeta in H. destruct H as (_ & _ & Hd & _ & Hn).
  cbv zeta. split; [exact Hd|]. apply Hn. intros d Hd'. discriminate Hd'.
Defined.

(** ** The Copernicus branch of the availability check *)

(** X15.  The Copernicus branch of [handleCheckAvailability].  It always
    leaves an error text.  When the reply can be read the availability
    text stays "Checking...", a scene is selected exactly when some
    scene is listed, and the selected scene is one of those listed.
    When the request is rejected or its body cannot be read, both texts
    are "Error checking availability.", no scene is listed and the
    selection made earlier is kept.  Every listed scene passed the
    cloud-cover filter and came with an ok reply. *)
Theorem copernicus_check_outcome (N : Panel.Net) (c : Panel.Controls) :
  let reply := Panel.post N "/api/fetch-copernicus-image/copernicus-availability" in
  let c' := Panel.handleCheckAvailability_copernicus N c in
  let after := Panel.state c' in
  Explorer.errorMsg after <> None
  /\ ((exists res data, reply = JS.Ret res /\ Panel.res_json res = JS.Ret data) ->
      Explorer.availability after = Some "Checking..."
      /\ (Panel.selectedScene c' = None <-> Explorer.availableScenes after = [])
      /\ (forall s, Panel.selectedScene c' = Some s ->
                    In s (Explorer.availableScenes after)))
  /\ ((exists e, reply = JS.Throw e)
      \/ (exists res e, reply = JS.Ret res /\ Panel.res_json res = JS.Throw e) ->
      Explorer.availability after = Some "Error checking availability."
      /\ Explorer.errorMsg after = Some "Error checking availability."
      /\ Explorer.availableScenes after = []
      /\ Panel.selectedScene c' = Panel.selectedScene c)
  /\ (forall s, In s (Explorer.availableScenes after) ->
        Panel.keepScene (Panel.cloudCoverFilter c) s = true
        /\ exists res data found,
             reply = JS.Ret res /\ Panel.res_ok res = true
             /\ Panel.res_json res = JS.Ret data
             /\ Panel.scenes data = Some found /\ In s found).
Proof.
  intros reply c' after. unfold after, c', Panel.handleCheckAvailability_copernicus.
  cbv zeta. fold reply.
  destruct reply as [res | e] eqn:Hr.
  2:{ cbn. split; [discriminate|]. split; [| split].
      - intros (res & data & H & _). discriminate H.
      - intros _. auto.
      - intros s []. }
  destruct (Panel.res_json res) as [data | e] eqn:Hj.
  2:{ cbn. split; [discriminate|]. split; [| split].
      - intros (res' & data & H & H'). injection H as <-. congruence.
      - intros _. auto.
      - intros s []. }
  assert (Hnothing :
            forall st' sel,
              st' = Panel.setAvailableScenes []
                      (Panel.setErrorMsg
                         (Some "No imagery available for this date/location.")
                         (Panel.checking (Panel.state c))) ->
              sel = None ->
              Explorer.errorMsg st' <> None
              /\ ((exists res0 data0, JS.Ret res = JS.Ret res0
                                      /\ Panel.res_json res0 = JS.Ret data0) ->
                  Explorer.availability st' = Some "Checking..."
                  /\ (sel = None <-> Explorer.availableScenes st' = [])
                  /\ (forall s, sel = Some s -> In s (Explorer.availableScenes st')))
              /\ ((exists e, JS.Ret res = JS.Throw e)
                  \/ (exists res0 e, JS.Ret res = JS.Ret res0
                                     /\ Panel.res_json res0 = JS.Throw e) ->
                  Explorer.availability st' = Some "Error checking availability."
                  /\ Explorer.errorMsg st' = Some "Error checking availability."
                  /\ Explorer.availableScenes st' = []
                  /\ sel = Panel.selectedScene c)
              /\ (forall s, In s (Explorer.availableScenes st') ->
                    Panel.keepScene (Panel.cloudCoverFilter c) s = true
                    /\ exists res0 data0 found,
                         JS.Ret res = JS.Ret res0 /\ Panel.res_ok res0 = true
                         /\ Panel.res_json res0 = JS.Ret data0
                         /\ Panel.scenes data0 = Some found /\ In s found)).
  { intros st' sel -> ->. cbn. split; [discriminate|]. split; [| split].
    - intros _. split; [reflexivity|]. split; [tauto | discriminate].
    - intros [(e & H) | (res0 & e & H & H')]; [discriminate H|].
      injection H as <-. congruence.
    - intros s []. }
  destruct (Panel.res_ok res) eqn:Hok; [| apply Hnothing; reflexivity].
  destruct (Panel.scenes data) as [[| s others] |] eqn:Hs;
    [apply Hnothing; reflexivity | | apply Hnothing; reflexivity].
  set (found := s :: others) in *.
  destruct (filter (Panel.keepScene (Panel.cloudCoverFilter c)) found)
    as [| k kept] eqn:Hfil.
  - cbn. split; [discriminate|]. split; [| split].
    + intros _. split; [reflexivity|]. split; [tauto | discriminate].
    + intros [(e & H) | (res0 & e & H & H')]; [discriminate H|].
      injection H as <-. congruence.
    + intros x [].
  - cbn [Panel.state Panel.selectedScene].
    assert (Hsel : exists sel,
               Explorer.autoSelectScene (Panel.browser N) (Explorer.date (Panel.state c))
                 (k :: kept) = Some sel /\ In sel (k :: kept)).
    { unfold Explorer.autoSelectScene.
      destruct (Explorer.closestTo
                  (fun scene => Explorer.getTime (Panel.browser N) (Explorer.datetime scene))
                  (Explorer.getTime (Panel.browser N) (Explorer.date (Panel.state c)))
                  (k :: kept)) as [sel |] eqn:Hc.
      - exists sel. split; [reflexivity|]. exact (closestTo_member _ _ _ _ Hc).
      - apply closestTo_none in Hc. discriminate Hc. }
    destruct Hsel as (sel & Hsel & Hin). rewrite Hsel.
    cbn. split; [discriminate|]. split; [| split].
    + intros _. split; [reflexivity|]. split.
      * split; discriminate.
      * intros x Hx. injection Hx as <-. exact Hin.
    + intros [(e & H) | (res0 & e & H & H')]; [discriminate H|].
      injection H as <-. congruence.
    + intros x Hx. change (In x (k :: kept)) in Hx.
      rewrite <- Hfil in Hx. apply filter_In in Hx. destruct Hx as [Hx Hk].
      split; [exact Hk|]. exists res, data, found. auto.
Qed.

Lemma cloudy_scene_is_filtered_out :
  let c' := Panel.handleCheckAvailability_copernicus (Scenario.net Scenario.twoScenes)
              Scenario.sliderAt50 in
  Explorer.availability (Panel.state c') = Some "Checking..."
  /\ Explorer.availableScenes (Panel.state c') = [Scenario.clearScene]
  /\ In Scenario.clearScene (Explorer.availableScenes (Panel.state c')).
Proof.
  pose proof (copernicus_check_outcome (Scenario.net Scenario.twoScenes)
                Scenario.sliderAt50) as H.
  cbv zeta in H. destruct H as (_ & Hread & _).
  destruct Hread as (Ha & _ & Hsel).
  { eexists. eexists. split; reflexivity. }
  cbv zeta. split; [exact Ha|]. split; [reflexivity|].
  apply Hsel. reflexivity.
Defined.

(** ** The image fetch of the Copernicus and provider A branches *)

Lemma showImage_outcome (N : Panel.Net) (reply : JS.Outcome Panel.Res)
  (st : Explorer.State) :
  let after := Panel.showImage N reply st in
  Explorer.fetchingImage after = false
  /\ Explorer.imageMeta after <> None
  /\ Explorer.availability after = Explorer.availability st
  /\ (Explorer.imageUrl after <> None
      <-> exists res, reply = JS.Ret res /\ Panel.res_ok res = true)
  /\ (forall res, reply = JS.Ret res -> Panel.res_ok res = true ->
        Explorer.imageUrl after
        = Some (Explorer.createObjectURL (Panel.browser N) (Panel.res_blob res))
        /\ Explorer.imageMeta after = Some (JS.orElse (Panel.res_metadata res) "")).
Proof.
  unfold Panel.showImage. destruct reply as [res | e].
  - destruct (Panel.res_ok res) eqn:Hok; cbn;
      (split; [reflexivity|]); (split; [discriminate|]); (split; [reflexivity|]); split.
    + split; [| discriminate]. intros _. exists res. auto.
    + intros res' H _. injection H as <-. auto.
    + split; [intros H; congruence|].
      intros (res' & H & H'). injection H as <-. congruence.
    + intros res' H H'. injection H as <-. congruence.
  - cbn. (split; [reflexivity|]); (split; [discriminate|]); (split; [reflexivity|]); split.
    + split; [intros H; congruence|]. intros (res' & H & _). discriminate H.
    + intros res' H. discriminate H.
Qed.

(** X16.  [handleFetchImage] outside the GIBS branch.  Both branches end
    with [fetchingImage] false, an image text set and the availability
    text cleared, and show an image only for an ok reply to the one
    request they sent.  The provider A branch always sends its request;
    the Copernicus branch sends none, and asks for a scene, exactly when
    no scene is selected or the selected scene has no datetime; otherwise
    it sends the scene's datetime as [acquisitionTime]. *)
Theorem image_fetch_outcome (N : Panel.Net) (c : Panel.Controls) :
  let nasa := Panel.handleFetchImage_nasa N c in
  let copernicus := Panel.handleFetchImage_copernicus N c in
  (forall run, run = nasa \/ run = copernicus ->
     Explorer.fetchingImage (Panel.state (snd run)) = false
     /\ Explorer.imageMeta (Panel.state (snd run)) <> None
     /\ Explorer.availability (Panel.state (snd run)) = None
     /\ (Explorer.imageUrl (Panel.state (snd run)) <> None ->
         exists endpoint params res,
           fst run = [(endpoint, params)]
           /\ Panel.fetch N endpoint params = JS.Ret res /\ Panel.res_ok res = true))
  /\ fst nasa = [("/api/fetch-image", Panel.nasaParams N c)]
  /\ (fst copernicus = []
      <-> Panel.selectedScene c = None
          \/ exists scene, Panel.selectedScene c = Some scene
                           /\ Explorer.datetime scene = "")
  /\ (fst copernicus = [] ->
      Explorer.imageMeta (Panel.state (snd copernicus))
      = Some "Please select a valid scene.")
  /\ (forall scene, Panel.selectedScene c = Some scene ->
        Explorer.datetime scene <> "" ->
        fst copernicus
        = [("/api/fetch-copernicus-image",
            Panel.copernicusParams N c (Explorer.datetime scene))]
        /\ Http.get (Panel.copernicusParams N c (Explorer.datetime scene))
             "acquisitionTime" = Some (Explorer.datetime scene)).
Proof.
  intros nasa copernicus.
  assert (Hnasa :
            Explorer.fetchingImage (Panel.state (snd nasa)) = false
            /\ Explorer.imageMeta (Panel.state (snd nasa)) <> None
            /\ Explorer.availability (Panel.state (snd nasa)) = None
            /\ (Explorer.imageUrl (Panel.state (snd nasa)) <> None ->
                exists endpoint params res,
                  fst nasa = [(endpoint, params)]
                  /\ Panel.fetch N endpoint params = JS.Ret res
                  /\ Panel.res_ok res = true)).
  { unfold nasa, Panel.handleFetchImage_nasa. cbv zeta. cbn [fst snd Panel.withState Panel.state].
    destruct (showImage_outcome N
                (Panel.fetch N "/api/fetch-image" (Panel.nasaParams N c))
                (Panel.fetching (Panel.state c))) as (H1 & H2 & H3 & H4 & _).
    cbv zeta in H4. repeat split; try assumption.
    intros Hu. apply H4 in Hu. destruct Hu as (res & Hr & Hok).
    exists "/api/fetch-image", (Panel.nasaParams N c), res. auto. }
  assert (Hcop :
            Explorer.fetchingImage (Panel.state (snd copernicus)) = false
            /\ Explorer.imageMeta (Panel.state (snd copernicus)) <> None
            /\ Explorer.availability (Panel.state (snd copernicus)) = None
            /\ (Explorer.imageUrl (Panel.state (snd copernicus)) <> None ->
                exists endpoint params res,
                  fst copernicus = [(endpoint, params)]
                  /\ Panel.fetch N endpoint params = JS.Ret res
                  /\ Panel.res_ok res = true)).
  { unfold copernicus, Panel.handleFetchImage_copernicus. cbv zeta.
    destruct (Panel.selectedScene c) as [scene |].
    - destruct (Explorer.datetime scene) as [| ch rest] eqn:Hd.
      + cbn. repeat split; try discriminate. intros H. congruence.
      + cbn [fst snd Panel.withState Panel.state].
        destruct (showImage_outcome N
                    (Panel.fetch N "/api/fetch-copernicus-image"
                       (Panel.copernicusParams N c (String ch rest)))
                    (Panel.fetching (Panel.state c))) as (H1 & H2 & H3 & H4 & _).
        cbv zeta in H4. repeat split; try assumption.
        intros Hu. apply H4 in Hu. destruct Hu as (res & Hr & Hok).
        eexists. eexists. exists res. split; [reflexivity|]. auto.
    - cbn. repeat split; try discriminate. intros H. congruence. }
  split; [intros run [-> | ->]; assumption|].
  split; [reflexivity|].
  unfold copernicus, Panel.handleFetchImage_copernicus. cbv zeta.
  destruct (Panel.selectedScene c) as [scene |].
  - destruct (Explorer.datetime scene) as [| ch rest] eqn:Hd.
    + cbn. split; [| split].
      * split; [| reflexivity]. intros _. right. exists scene. auto.
      * reflexivity.
      * intros scene' H Hne. injection H as <-. congruence.
    + cbn [fst snd]. split; [| split].
      * split; [discriminate|]. intros [H | (scene' & H & H')]; [discriminate H|].
        injection H as <-. congruence.
      * discriminate.
      * intros scene' H _. injection H as <-. rewrite Hd. split; reflexivity.
  - cbn. split; [| split].
    + split; auto.
    + reflexivity.
    + intros scene H. discriminate H.
Qed.

Lemma selected_scene_is_requested :
  fst (Panel.handleFetchImage_copernicus (Scenario.net Scenario.imageReply)
         Scenario.sceneSelected)
  = [("/api/fetch-copernicus-image",
      [("lat", "0"); ("lon", "0"); ("acquisitionTime", "2024-01-10");
       ("resolution", "1024"); ("dim", "0")])]
  /\ Explorer.fetchingImage
       (Panel.state (snd (Panel.handleFetchImage_copernicus
                            (Scenario.net Scenario.imageReply) Scenario.sceneSelected)))
     = false.
Proof.
  pose proof (image_fetch_outcome (Scenario.net Scenario.imageReply)
                Scenario.sceneSelected) as H.
  cbv zeta in H. destruct H as (Hall & _ & _ & _ & Hreq).
  split.
  - apply (Hreq Scenario.clearScene eq_refl). discriminate.
  - apply (Hall _ (or_intror eq_refl)).
Defined.

(** ** The Copernicus availability route *)

Lemma toISOString_NaN (W : Copernicus.World) (t : JS.number) :
  t = JS.NaN -> Copernicus.toISOString W t = Err.Fail "Invalid time value".
Proof. intros ->. reflexivity. Qed.

Lemma fetchAvailableScenes_invalid_date (W : Copernicus.World) (lat lon dim : float)
  (date : option string) :
  date = None \/ (exists d, date = Some d /\ Copernicus.getTime W d = JS.NaN) ->
  Copernicus.fetchAvailableScenes W lat lon date dim = Err.Fail "Invalid time value".
Proof.
  intros H. unfold Copernicus.fetchAvailableScenes. cbv zeta.
  assert (Ht : match date with Some d => Copernicus.getTime W d | None => JS.NaN end
               = JS.NaN).
  { destruct H as [-> | (d & -> & Hd)]; [reflexivity | exact Hd]. }
  rewrite Ht. reflexivity.
Qed.

Lemma fetchAvailableScenes_done (W : Copernicus.World) (lat lon dim : float)
  (date : option string) (found : list Explorer.Scene) :
  Copernicus.fetchAvailableScenes W lat lon date dim = Err.Done found ->
  exists tokenReply access bbox datetime catalogReply,
    Copernicus.token W (JS.orElse (Copernicus.COPERNICUS_CLIENT_ID W) "")
      (JS.orElse (Copernicus.COPERNICUS_CLIENT_SECRET W) "") = Err.Done tokenReply
    /\ Copernicus.token_ok tokenReply = true
    /\ Copernicus.access_token tokenReply = Err.Done access
    /\ Copernicus.catalog W bbox datetime "20" ("Bearer " ++ access)
       = Err.Done catalogReply
    /\ Copernicus.catalog_ok catalogReply = true
    /\ Copernicus.catalog_scenes catalogReply = Err.Done found.
Proof.
  unfold Copernicus.fetchAvailableScenes. cbv zeta.
  destruct (Copernicus.toISOString W _) as [dateFrom | m]; [| discriminate].
  cbn [Err.andThen].
  destruct (Copernicus.toISOString W _) as [dateTo | m]; [| discriminate].
  cbn [Err.andThen].
  destruct (Copernicus.token W _ _) as [tokenReply | m] eqn:Ht; [| discriminate].
  cbn [Err.andThen].
  destruct (Copernicus.token_ok tokenReply) eqn:Hok; [| discriminate]. cbn [negb].
  destruct (Copernicus.access_token tokenReply) as [access | m] eqn:Ha; [| discriminate].
  cbn [Err.andThen].
  destruct (Copernicus.catalog W _ _ _ _) as [catalogReply | m] eqn:Hc; [| discriminate].
  cbn [Err.andThen].
  destruct (Copernicus.catalog_ok catalogReply) eqn:Hcok; [| discriminate]. cbn [negb].
  intros Hs. exists tokenReply, access. eexists. eexists. exists catalogReply.
  repeat split; try eassumption; reflexivity.
Qed.

(** X17.  The Copernicus availability route answers every request.  A
    body that cannot be read gives the error of the reader; a date that
    is absent or unreadable gives "Invalid time value" whatever the
    services would have said; a refused token request gives "Failed to
    authenticate for Catalog API"; and scenes are answered only when the
    token reply and the catalogue reply were ok, as the catalogue listed
    them, asked with limit 20 and the token as bearer. *)
Theorem availability_route_answers (W : Copernicus.World)
  (body : Err.Result Copernicus.Body) :
  (exists answer, Copernicus.POST W body = Err.Done answer)
  /\ (forall message, body = Err.Fail message ->
        Copernicus.POST W body = Err.Done (Copernicus.Failed message))
  /\ (forall b, body = Err.Done b ->
        Copernicus.body_date b = None
        \/ (exists d, Copernicus.body_date b = Some d /\ Copernicus.getTime W d = JS.NaN) ->
        Copernicus.POST W body = Err.Done (Copernicus.Failed "Invalid time value"))
  /\ (forall b tokenReply,
        body = Err.Done b ->
        (exists d t, Copernicus.body_date b = Some d
                     /\ Copernicus.getTime W d = JS.Num t
                     /\ Z.abs t + Copernicus.sevenDays <= 8640000000000000) ->
        Copernicus.token W (JS.orElse (Copernicus.COPERNICUS_CLIENT_ID W) "")
          (JS.orElse (Copernicus.COPERNICUS_CLIENT_SECRET W) "") = Err.Done tokenReply ->
        Copernicus.token_ok tokenReply = false ->
        Copernicus.POST W body
        = Err.Done (Copernicus.Failed "Failed to authenticate for Catalog API"))
  /\ (forall found,
        Copernicus.POST W body = Err.Done (Copernicus.Scenes found) ->
        exists tokenReply access bbox datetime catalogReply,
          Copernicus.token W (JS.orElse (Copernicus.COPERNICUS_CLIENT_ID W) "")
            (JS.orElse (Copernicus.COPERNICUS_CLIENT_SECRET W) "") = Err.Done tokenReply
          /\ Copernicus.token_ok tokenReply = true
          /\ Copernicus.access_token tokenReply = Err.Done access
          /\ Copernicus.catalog W bbox datetime "20" ("Bearer " ++ access)
             = Err.Done catalogReply
          /\ Copernicus.catalog_ok catalogReply = true
          /\ Copernicus.catalog_scenes catalogReply = Err.Done found).
Proof.
  split; [| split; [| split; [| split]]].
  - unfold Copernicus.POST. destruct body as [b | m]; cbn [Err.andThen Err.try_catch].
    + destruct (Copernicus.fetchAvailableScenes W _ _ _ _);
        cbn [Err.andThen Err.try_catch]; eexists; reflexivity.
    + eexists; reflexivity.
  - intros message ->. reflexivity.
  - intros b -> Hd. unfold Copernicus.POST. cbn [Err.andThen].
    rewrite (fetchAvailableScenes_invalid_date W _ _ _ _ Hd). reflexivity.
  - intros b tokenReply -> (d & t & Hd & Ht & Hrange) Htok Hok.
    unfold Copernicus.POST. cbn [Err.andThen].
    unfold Copernicus.fetchAvailableScenes. cbv zeta. rewrite Hd, Ht.
    unfold Copernicus.sevenDays in *. cbn [JS.sub JS.add Copernicus.toISOString].
    destruct (Z.abs (t - 7 * 24 * 60 * 60 * 1000) <=? 8640000000000000) eqn:E1;
      [| apply Z.leb_gt in E1; lia].
    destruct (Z.abs (t + 7 * 24 * 60 * 60 * 1000) <=? 8640000000000000) eqn:E2;
      [| apply Z.leb_gt in E2; lia].
    cbn [Err.andThen]. rewrite Htok. cbn [Err.andThen]. rewrite Hok. reflexivity.
  - intros found. unfold Copernicus.POST.
    destruct body as [b | m]; cbn [Err.andThen Err.try_catch]; [| discriminate].
    destruct (Copernicus.fetchAvailableScenes W _ _ _ _) as [scenes | m] eqn:Hf;
      cbn [Err.andThen Err.try_catch]; [| discriminate].
    intros H. injection H as <-.
    exact (fetchAvailableScenes_done W _ _ _ _ _ Hf).
Qed.

Lemma availability_check_without_a_date :
  Copernicus.POST (Scenario.copernicusWorld true)
    (Err.Done (Scenario.availabilityBody None))
  = Err.Done (Copernicus.Failed "Invalid time value")
  /\ Copernicus.POST (Scenario.copernicusWorld false)
       (Err.Done (Scenario.availabilityBody (Some "2024-01-08")))
     = Err.Done (Copernicus.Failed "Failed to authenticate for Catalog API").
Proof.
  split.
  - apply (proj1 (proj2 (proj2 (availability_route_answers
                                  (Scenario.copernicusWorld true)
                                  (Err.Done (Scenario.availabilityBody None)))))
             (Scenario.availabilityBody None) eq_refl).
    left. reflexivity.
  - apply (proj1 (proj2 (proj2 (proj2 (availability_route_answers
                                         (Scenario.copernicusWorld false)
                                         (Err.Done (Scenario.availabilityBody
                                                      (Some "2024-01-08")))))))
             (Scenario.availabilityBody (Some "2024-01-08"))
             {| Copernicus.token_ok := false;
                Copernicus.token_status := 401;
                Copernicus.token_statusText := "Unauthorized";
                Copernicus.token_text := Err.Done "";
                Copernicus.access_token := Err.Done "token" |}
             eq_refl).
    + exists "2024-01-08", 1704672000000. repeat split.
      unfold Copernicus.sevenDays. lia.
    + reflexivity.
    + reflexivity.
Defined.

(** X18.  A failure of the availability route as the explorer shows it:
    whatever the route's error message, and also when the route lists no
    scene, the explorer reports "No imagery available for this
    date/location.", lists and selects no scene, and leaves the
    availability text at "Checking...". *)
Theorem availability_failure_as_the_explorer_shows_it
  (N : Panel.Net) (c : Panel.Controls) (answer : Copernicus.Answer) :
  Panel.post N "/api/fetch-copernicus-image/copernicus-availability"
  = JS.Ret (Copernicus.received answer) ->
  (exists message, answer = Copernicus.Failed message) \/ answer = Copernicus.Scenes [] ->
  let c' := Panel.handleCheckAvailability_copernicus N c in
  Explorer.availability (Panel.state c') = Some "Checking..."
  /\ Explorer.errorMsg (Panel.state c')
     = Some "No imagery available for this date/location."
  /\ Explorer.availableScenes (Panel.state c') = []
  /\ Panel.selectedScene c' = None.
Proof.
  intros Hp Ha c'. unfold c', Panel.handleCheckAvailability_copernicus. cbv zeta.
  rewrite Hp. destruct Ha as [(message & ->) | ->]; cbn; auto.
Qed.

Lemma refused_token_reads_as_no_imagery :
  let c' :=
    Panel.handleCheckAvailability_copernicus
      (Scenario.net
         (JS.Ret (Copernicus.received
                    (Copernicus.Failed "Failed to authenticate for Catalog API"))))
      Scenario.sliderAt50 in
  Explorer.availability (Panel.state c') = Some "Checking..."
  /\ Explorer.errorMsg (Panel.state c')
     = Some "No imagery available for this date/location."
  /\ Explorer.availableScenes (Panel.state c') = []
  /\ Panel.selectedScene c' = None.
Proof.
  apply (availability_failure_as_the_explorer_shows_it
           (Scenario.net
              (JS.Ret (Copernicus.received
                         (Copernicus.Failed "Failed to authenticate for Catalog API"))))
           Scenario.sliderAt50
           (Copernicus.Failed "Failed to authenticate for Catalog API") eq_refl).
  left. eexists. reflexivity.
Defined.

(** X19.  The two copies of the availability check, the route of its own
    and the [POST] of the image route on a path that ends with
    [/copernicus-availability], answer alike on every body that carries
    no [dim]. *)
Theorem availability_copies_agree (W : Copernicus.World) (pathname : string)
  (q : Http.Query) (body : Err.Result Copernicus.Body) :
  Copernicus.endsWith pathname "/copernicus-availability" = true ->
  (forall b, body = Err.Done b -> Copernicus.body_dim b = None) ->
  exists answer,
    Copernicus.POST W body = Err.Done answer
    /\ Copernicus.imagePOST W pathname q body = Err.Done (inl answer).
Proof.
  intros Hp Hdim. unfold Copernicus.imagePOST, Copernicus.POST. rewrite Hp.
  destruct body as [b | m]; cbn [Err.andThen Err.try_catch].
  - rewrite (Hdim b eq_refl).
    destruct (Copernicus.fetchAvailableScenes W _ _ _ _);
      cbn [Err.andThen Err.try_catch]; eexists; split; reflexivity.
  - eexists; split; reflexivity.
Qed.

Lemma both_copies_refuse_a_missing_date :
  exists answer,
    Copernicus.POST (Scenario.copernicusWorld true)
      (Err.Done (Scenario.availabilityBody None)) = Err.Done answer
    /\ Copernicus.imagePOST (Scenario.copernicusWorld true)
         "/api/fetch-copernicus-image/copernicus-availability" []
         (Err.Done (Scenario.availabilityBody None)) = Err.Done (inl answer).
Proof.
  apply (availability_copies_agree (Scenario.copernicusWorld true)
           "/api/fetch-copernicus-image/copernicus-availability" []
           (Err.Done (Scenario.availabilityBody None))).
  - reflexivity.
  - intros b H. injection H as <-. reflexivity.
Defined.

(** ** The Copernicus image route *)

Lemma respond_status (st : Z) (j : Http.Json) (resp : Http.Response) :
  Copernicus.respond st j = Err.Done resp ->
  resp = Http.json st j /\ 200 <= st <= 599.
Proof.
  unfold Copernicus.respond.
  destruct ((200 <=? st) && (st <=? 599) && negb (Copernicus.nullBodyStatus st)) eqn:E;
    [| discriminate].
  intros H. injection H as <-. split; [reflexivity|].
  apply andb_true_iff in E. destruct E as [E _].
  apply andb_true_iff in E. destruct E as [E1 E2].
  apply Z.leb_le in E1, E2. lia.
Qed.

(** An image leaves [fetchImage] only as the body of an ok reply of the
    process API. *)
Lemma fetchImage_image (W : Copernicus.World) (id secret time : string)
  (lat lon dim : float) (resolution : JS.number)
  (resp : Http.Response) (bytes : Http.Buffer) :
  Copernicus.fetchImage W id secret time lat lon dim resolution = Err.Done resp ->
  Http.payload resp = Http.BinaryPayload bytes ->
  resp = Http.image "image/png" [] bytes
  /\ exists tokenReply access request processed,
       Copernicus.token W id secret = Err.Done tokenReply
       /\ Copernicus.token_ok tokenReply = true
       /\ Copernicus.access_token tokenReply = Err.Done access
       /\ Copernicus.process W request = Err.Done processed
       /\ Copernicus.process_ok processed = true
       /\ Copernicus.process_blob processed = Err.Done bytes
       /\ Copernicus.authorization request = "Bearer " ++ access
       /\ Copernicus.timeRange request = (time, time)
       /\ Copernicus.maxCloudCoverage request = 20
       /\ Copernicus.width request = resolution
       /\ Copernicus.height request = resolution.
Proof.
  unfold Copernicus.fetchImage.
  destruct (Copernicus.token W id secret) as [tokenReply | m] eqn:Ht; [| discriminate].
  cbn [Err.andThen].
  destruct (Copernicus.token_ok tokenReply) eqn:Hok; cbn [negb].
  2:{ destruct (Copernicus.token_text tokenReply); [| discriminate]. cbn [Err.andThen].
      intros H Hp. apply respond_status in H. destruct H as [-> _]. discriminate Hp. }
  destruct (Copernicus.access_token tokenReply) as [access | m] eqn:Ha; [| discriminate].
  cbn [Err.andThen]. cbv zeta.
  match goal with
  | |- context [Copernicus.process W ?r] => set (request := r)
  end.
  destruct (Copernicus.process W request) as [processed | m] eqn:Hpr; [| discriminate].
  cbn [Err.andThen].
  destruct (Copernicus.process_ok processed) eqn:Hpok; cbn [negb].
  2:{ destruct (Copernicus.process_text processed) as [errorText | m]; [| discriminate].
      cbn [Err.andThen].
      destruct (Copernicus.parseJson W errorText) as [errorJson | m];
        cbn [Err.andThen Err.try_catch].
      - destruct (Copernicus.respond (Copernicus.process_status processed)
                    (Http.JObj [("error", Http.JStr "Copernicus API Error");
                                ("details", errorJson)])) as [r | m] eqn:Hr;
          cbn [Err.try_catch].
        + intros H Hp. injection H as <-. apply respond_status in Hr.
          destruct Hr as [-> _]. discriminate Hp.
        + intros H Hp. apply respond_status in H. destruct H as [-> _]. discriminate Hp.
      - intros H Hp. apply respond_status in H. destruct H as [-> _]. discriminate Hp. }
  destruct (Copernicus.process_blob processed) as [imageBlob | m] eqn:Hb; [| discriminate].
  cbn [Err.andThen]. intros H Hp. injection H as <-.
  cbn [Http.image Http.payload] in Hp. injection Hp as <-.
  split; [reflexivity|].
  exists tokenReply, access, request, processed.
  repeat split; assumption || reflexivity.
Qed.

Lemma fetchImage_not_a_refusal (W : Copernicus.World) (id secret time : string)
  (lat lon dim : float) (resolution : JS.number) (resp : Http.Response) (msg : string) :
  Copernicus.fetchImage W id secret time lat lon dim resolution = Err.Done resp ->
  resp <> Http.errorJson 400 (String "M" msg).
Proof.
  intros Hf ->. revert Hf. unfold Copernicus.fetchImage.
  destruct (Copernicus.token W _ _) as [tokenReply | m]; [| discriminate].
  cbn [Err.andThen].
  destruct (Copernicus.token_ok tokenReply) eqn:Hok; cbn [negb].
  2:{ destruct (Copernicus.token_text tokenReply); [| discriminate]. cbn [Err.andThen].
      intros H. apply respond_status in H. destruct H as [H _].
      unfold Http.errorJson, Http.json in H. injection H as _ H.
      cbn [append] in H. discriminate H. }
  destruct (Copernicus.access_token tokenReply) as [access | m]; [| discriminate].
  cbn [Err.andThen]. cbv zeta.
  match goal with
  | |- context [Copernicus.process W ?r] =>
      destruct (Copernicus.process W r) as [processed | m]; [| discriminate]
  end.
  cbn [Err.andThen].
  destruct (Copernicus.process_ok processed); cbn [negb].
  2:{ destruct (Copernicus.process_text processed) as [errorText | m]; [| discriminate].
      cbn [Err.andThen].
      destruct (Copernicus.parseJson W errorText) as [errorJson | m];
        cbn [Err.andThen Err.try_catch].
      - destruct (Copernicus.respond (Copernicus.process_status processed)
                    (Http.JObj [("error", Http.JStr "Copernicus API Error");
                                ("details", errorJson)])) as [r | m] eqn:Hr;
          cbn [Err.try_catch].
        + intros H. injection H as ->. apply respond_status in Hr.
          destruct Hr as [H _]. unfold Http.errorJson, Http.json in H.
          injection H as _ H. discriminate H.
        + intros H. apply respond_status in H. destruct H as [H _].
          unfold Http.errorJson, Http.json in H. injection H as _ H.
          cbn [append] in H. discriminate H.
      - intros H. apply respond_status in H. destruct H as [H _].
        unfold Http.errorJson, Http.json in H. injection H as _ H.
        cbn [append] in H. discriminate H. }
  destruct (Copernicus.process_blob processed); [| discriminate].
  cbn [Err.andThen]. intros H. discriminate H.
Qed.

Lemma isNaN_flags (lat lon : float) (resolution : JS.number) :
  is_nan lat || is_nan lon || Copernicus.isNaN resolution = true
  <-> is_nan lat = true \/ is_nan lon = true \/ resolution = JS.NaN.
Proof.
  rewrite !orb_true_iff. unfold Copernicus.isNaN.
  destruct resolution; intuition (congruence || discriminate).
Qed.

Lemma GET_without_time (W : Copernicus.World) (q : Http.Query) :
  JS.orElse (Http.get q "acquisitionTime") "" = "" ->
  Copernicus.GET W q
  = Err.Done (Http.errorJson 400 "Missing required parameter: acquisitionTime").
Proof. intros H. unfold Copernicus.GET. cbv zeta. rewrite H. reflexivity. Qed.

Lemma GET_unparsed (W : Copernicus.World) (q : Http.Query) :
  JS.orElse (Http.get q "acquisitionTime") "" <> "" ->
  is_nan (Copernicus.parseFloat W (JS.orElse (Http.get q "lat") "0"))
  || is_nan (Copernicus.parseFloat W (JS.orElse (Http.get q "lon") "0"))
  || Copernicus.isNaN (JS.parseInt (JS.orElse (Http.get q "resolution") "1024")) = true ->
  Copernicus.GET W q = Err.Done (Http.errorJson 400 "Missing or invalid parameters").
Proof.
  intros Ht Hbad. unfold Copernicus.GET. cbv zeta.
  destruct (JS.orElse (Http.get q "acquisitionTime") ""); [congruence|].
  rewrite Hbad. reflexivity.
Qed.

(** Past the two checks of the parameters: an answer is always given,
    it is neither of the two refusals, and bytes come from the process
    API alone. *)
Lemma GET_checked (W : Copernicus.World) (q : Http.Query) :
  let time := JS.orElse (Http.get q "acquisitionTime") "" in
  let resolution := JS.parseInt (JS.orElse (Http.get q "resolution") "1024") in
  time <> "" ->
  is_nan (Copernicus.parseFloat W (JS.orElse (Http.get q "lat") "0"))
  || is_nan (Copernicus.parseFloat W (JS.orElse (Http.get q "lon") "0"))
  || Copernicus.isNaN resolution = false ->
  (exists resp, Copernicus.GET W q = Err.Done resp)
  /\ (forall msg, Copernicus.GET W q <> Err.Done (Http.errorJson 400 (String "M" msg)))
  /\ (forall resp bytes,
        Copernicus.GET W q = Err.Done resp ->
        Http.payload resp = Http.BinaryPayload bytes ->
        resp = Http.image "image/png" [] bytes
        /\ exists id secret tokenReply access request processed,
             Copernicus.COPERNICUS_CLIENT_ID W = Some id
             /\ Copernicus.COPERNICUS_CLIENT_SECRET W = Some secret
             /\ Copernicus.token W id secret = Err.Done tokenReply
             /\ Copernicus.token_ok tokenReply = true
             /\ Copernicus.access_token tokenReply = Err.Done access
             /\ Copernicus.process W request = Err.Done processed
             /\ Copernicus.process_ok processed = true
             /\ Copernicus.process_blob processed = Err.Done bytes
             /\ Copernicus.authorization request = "Bearer " ++ access
             /\ Copernicus.timeRange request = (time, time)
             /\ Copernicus.maxCloudCoverage request = 20
             /\ Copernicus.width request = resolution
             /\ Copernicus.height request = resolution).
Proof.
  intros time resolution Htime Hgood.
  unfold Copernicus.GET. cbv zeta. fold time resolution.
  destruct time as [| tc tr] eqn:Ht; [congruence|]. rewrite Hgood.
  assert (Hfixed :
            forall msg500 : string,
              (exists resp,
                  Err.Done (Http.errorJson 500 msg500) = @Err.Done Http.Response resp)
              /\ (forall msg,
                    @Err.Done Http.Response (Http.errorJson 500 msg500)
                    <> Err.Done (Http.errorJson 400 (String "M" msg)))
              /\ (forall resp bytes,
                    Err.Done (Http.errorJson 500 msg500) = Err.Done resp ->
                    Http.payload resp = Http.BinaryPayload bytes ->
                    resp = Http.image "image/png" [] bytes
                    /\ exists id secret tokenReply access request processed,
                         Copernicus.COPERNICUS_CLIENT_ID W = Some id
                         /\ Copernicus.COPERNICUS_CLIENT_SECRET W = Some secret
                         /\ Copernicus.token W id secret = Err.Done tokenReply
                         /\ Copernicus.token_ok tokenReply = true
                         /\ Copernicus.access_token tokenReply = Err.Done access
                         /\ Copernicus.process W request = Err.Done processed
                         /\ Copernicus.process_ok processed = true
                         /\ Copernicus.process_blob processed = Err.Done bytes
                         /\ Copernicus.authorization request = "Bearer " ++ access
                         /\ Copernicus.timeRange request = (String tc tr, String tc tr)
                         /\ Copernicus.maxCloudCoverage request = 20
                         /\ Copernicus.width request = resolution
                         /\ Copernicus.height request = resolution)).
  { intros msg500. split; [eexists; reflexivity|]. split.
    - intros msg H. discriminate H.
    - intros resp bytes H Hp. injection H as <-. discriminate Hp. }
  destruct (Copernicus.COPERNICUS_CLIENT_ID W) as [[| c1 r1] |] eqn:Hid; try apply Hfixed.
  destruct (Copernicus.COPERNICUS_CLIENT_SECRET W) as [[| c2 r2] |] eqn:Hsec;
    try apply Hfixed.
  match goal with
  | |- context [Copernicus.fetchImage W ?a ?b ?c ?d ?e ?f ?g] =>
      destruct (Copernicus.fetchImage W a b c d e f g) as [resp0 | m] eqn:Hf
  end; cbn [Err.try_catch]; [| apply Hfixed].
  split; [eexists; reflexivity|]. split.
  - intros msg H. injection H as H.
    exact (fetchImage_not_a_refusal W _ _ _ _ _ _ _ _ msg Hf H).
  - intros resp bytes H Hp. injection H as <-.
    destruct (fetchImage_image W _ _ _ _ _ _ _ _ _ Hf Hp)
      as (Hr & tokenReply & access & request & processed & H).
    split; [exact Hr|].
    exists (String c1 r1), (String c2 r2), tokenReply, access, request, processed.
    split; [reflexivity|]. split; [reflexivity|]. exact H.
Qed.

(** X20.  The Copernicus image route answers every request.  It answers
    400 "Missing required parameter: acquisitionTime" exactly when that
    parameter is absent or empty, and 400 "Missing or invalid parameters"
    exactly when it is present and the latitude, the longitude or the
    resolution does not parse.  Bytes are answered only as the body of
    an ok reply of the process API to a request that bears the token,
    covers the one instant [acquisitionTime], filters at cloud coverage
    20 and asks for a square of the parsed resolution. *)
Theorem copernicus_image_route (W : Copernicus.World) (q : Http.Query) :
  let time := JS.orElse (Http.get q "acquisitionTime") "" in
  let resolution := JS.parseInt (JS.orElse (Http.get q "resolution") "1024") in
  let lat := Copernicus.parseFloat W (JS.orElse (Http.get q "lat") "0") in
  let lon := Copernicus.parseFloat W (JS.orElse (Http.get q "lon") "0") in
  (exists resp, Copernicus.GET W q = Err.Done resp)
  /\ (Copernicus.GET W q
      = Err.Done (Http.errorJson 400 "Missing required parameter: acquisitionTime")
      <-> time = "")
  /\ (Copernicus.GET W q = Err.Done (Http.errorJson 400 "Missing or invalid parameters")
      <-> time <> ""
          /\ (is_nan lat = true \/ is_nan lon = true \/ resolution = JS.NaN))
  /\ (forall resp bytes,
        Copernicus.GET W q = Err.Done resp ->
        Http.payload resp = Http.BinaryPayload bytes ->
        resp = Http.image "image/png" [] bytes
        /\ exists id secret tokenReply access request processed,
             Copernicus.COPERNICUS_CLIENT_ID W = Some id
             /\ Copernicus.COPERNICUS_CLIENT_SECRET W = Some secret
             /\ Copernicus.token W id secret = Err.Done tokenReply
             /\ Copernicus.token_ok tokenReply = true
             /\ Copernicus.access_token tokenReply = Err.Done access
             /\ Copernicus.process W request = Err.Done processed
             /\ Copernicus.process_ok processed = true
             /\ Copernicus.process_blob processed = Err.Done bytes
             /\ Copernicus.authorization request = "Bearer " ++ access
             /\ Copernicus.timeRange request = (time, time)
             /\ Copernicus.maxCloudCoverage request = 20
             /\ Copernicus.width request = resolution
             /\ Copernicus.height request = resolution).
Proof.
  intros time resolution lat lon.
  destruct time as [| tc tr] eqn:Htime.
  - pose proof (GET_without_time W q Htime) as Hg. rewrite Hg.
    split; [eexists; reflexivity|]. split; [tauto|]. split.
    + split; [discriminate | intros [H _]; congruence].
    + intros resp bytes H Hp. injection H as <-. discriminate Hp.
  - assert (Hne : JS.orElse (Http.get q "acquisitionTime") "" <> "")
      by (fold time; rewrite Htime; discriminate).
    destruct (is_nan lat || is_nan lon || Copernicus.isNaN resolution) eqn:Ebad.
    + pose proof (GET_unparsed W q Hne Ebad) as Hg. rewrite Hg.
      split; [eexists; reflexivity|]. split; [split; discriminate|]. split.
      * split; [| reflexivity]. intros _.
        split; [discriminate | apply isNaN_flags; exact Ebad].
      * intros resp bytes H Hp. injection H as <-. discriminate Hp.
    + destruct (GET_checked W q Hne Ebad) as (Hans & Hnot & Himg).
      fold time in Himg. rewrite Htime in Himg. fold resolution in Himg.
      split; [exact Hans|]. split; [| split; [| exact Himg]].
      * split; [| discriminate]. intros H. destruct (Hnot _ H).
      * split.
        -- intros H. destruct (Hnot _ H).
        -- intros [_ H]. apply isNaN_flags in H. congruence.
Qed.

Lemma unreadable_latitude_is_refused :
  Copernicus.GET (Scenario.copernicusWorld true)
    [("lat", "north"); ("lon", "23"); ("acquisitionTime", "2024-01-10")]
  = Err.Done (Http.errorJson 400 "Missing or invalid parameters").
Proof.
  apply (proj2 (proj1 (proj2 (proj2 (copernicus_image_route
                                       (Scenario.copernicusWorld true)
                                       [("lat", "north"); ("lon", "23");
                                        ("acquisitionTime", "2024-01-10")]))))).
  split; [discriminate|]. left. reflexivity.
Defined.

(** X21.  The image request the explorer builds for a selected scene with
    a datetime and one of its three resolutions is never refused for a
    missing [acquisitionTime]; the route refuses it as invalid exactly
    when the printed latitude or longitude does not parse; and any image
    returned for it was asked from the process API for the scene's
    datetime and the selected resolution. *)
Theorem explorer_request_passes_the_time_check
  (W : Copernicus.World) (N : Panel.Net) (c : Panel.Controls) (scene : Explorer.Scene) :
  Panel.selectedScene c = Some scene ->
  Explorer.datetime scene <> "" ->
  In (Panel.resolution c) ["512"; "1024"; "2048"] ->
  let params := Panel.copernicusParams N c (Explorer.datetime scene) in
  let lat :=
    Copernicus.parseFloat W
      (JS.orElse (Some (Panel.numberText N (fst (Explorer.center (Panel.state c))))) "0") in
  let lon :=
    Copernicus.parseFloat W
      (JS.orElse (Some (Panel.numberText N (snd (Explorer.center (Panel.state c))))) "0") in
  fst (Panel.handleFetchImage_copernicus N c) = [("/api/fetch-copernicus-image", params)]
  /\ Copernicus.GET W params
     <> Err.Done (Http.errorJson 400 "Missing required parameter: acquisitionTime")
  /\ (Copernicus.GET W params
      = Err.Done (Http.errorJson 400 "Missing or invalid parameters")
      <-> is_nan lat = true \/ is_nan lon = true)
  /\ (forall resp bytes,
        Copernicus.GET W params = Err.Done resp ->
        Http.payload resp = Http.BinaryPayload bytes ->
        exists request processed,
          Copernicus.process W request = Err.Done processed
          /\ Copernicus.process_blob processed = Err.Done bytes
          /\ Copernicus.timeRange request
             = (Explorer.datetime scene, Explorer.datetime scene)
          /\ Copernicus.width request = JS.parseInt (Panel.resolution c)
          /\ Copernicus.height request = JS.parseInt (Panel.resolution c)).
Proof.
  intros Hsel Htime Hres params lat lon.
  assert (Hsent : fst (Panel.handleFetchImage_copernicus N c)
                  = [("/api/fetch-copernicus-image", params)]).
  { unfold Panel.handleFetchImage_copernicus. cbv zeta. rewrite Hsel.
    destruct (Explorer.datetime scene) eqn:Hd; [congruence | reflexivity]. }
  assert (Ht : JS.orElse (Http.get params "acquisitionTime") "" = Explorer.datetime scene).
  { unfold params, Panel.copernicusParams. cbn [Http.get String.eqb Ascii.eqb Bool.eqb].
    cbn. apply orElse_some. exact Htime. }
  assert (Hr : JS.orElse (Http.get params "resolution") "1024" = Panel.resolution c
               /\ exists v, JS.parseInt (Panel.resolution c) = JS.Num v).
  { unfold params, Panel.copernicusParams. cbn.
    cbn [In] in Hres. destruct Hres as [<- | [<- | [<- | []]]];
      (split; [reflexivity | eexists; reflexivity]). }
  destruct Hr as [Hr (v & Hv)].
  assert (Hlat : Copernicus.parseFloat W (JS.orElse (Http.get params "lat") "0") = lat)
    by reflexivity.
  assert (Hlon : Copernicus.parseFloat W (JS.orElse (Http.get params "lon") "0") = lon)
    by reflexivity.
  assert (Hne : JS.orElse (Http.get params "acquisitionTime") "" <> "")
    by (rewrite Ht; exact Htime).
  assert (Hflags :
            is_nan (Copernicus.parseFloat W (JS.orElse (Http.get params "lat") "0"))
            || is_nan (Copernicus.parseFloat W (JS.orElse (Http.get params "lon") "0"))
            || Copernicus.isNaN
                 (JS.parseInt (JS.orElse (Http.get params "resolution") "1024")) = true
            <-> is_nan lat = true \/ is_nan lon = true).
  { rewrite isNaN_flags, Hlat, Hlon, Hr, Hv. intuition discriminate. }
  split; [exact Hsent|].
  destruct (is_nan (Copernicus.parseFloat W (JS.orElse (Http.get params "lat") "0"))
            || is_nan (Copernicus.parseFloat W (JS.orElse (Http.get params "lon") "0"))
            || Copernicus.isNaN
                 (JS.parseInt (JS.orElse (Http.get params "resolution") "1024")))
    eqn:Ebad.
  - rewrite (GET_unparsed W params Hne Ebad).
    split; [discriminate|]. split.
    + split; [intros _; apply Hflags; reflexivity | reflexivity].
    + intros resp bytes H Hp. injection H as <-. discriminate Hp.
  - destruct (GET_checked W params Hne Ebad) as (_ & Hnot & Himg).
    rewrite Ht, Hr in Himg.
    split; [apply Hnot|]. split.
    + split; [intros H; destruct (Hnot _ H)|].
      intros H. apply Hflags in H. discriminate H.
    + intros resp bytes Hg Hp.
      destruct (Himg resp bytes Hg Hp)
        as (_ & id & secret & tokenReply & access & request & processed & H).
      exists request, processed. intuition.
Qed.

Lemma clear_scene_reaches_the_process_api :
  fst (Panel.handleFetchImage_copernicus (Scenario.net Scenario.imageReply)
         Scenario.sceneSelected)
  = [("/api/fetch-copernicus-image",
      Panel.copernicusParams (Scenario.net Scenario.imageReply) Scenario.sceneSelected
        "2024-01-10")]
  /\ Copernicus.GET (Scenario.copernicusWorld true)
       (Panel.copernicusParams (Scenario.net Scenario.imageReply) Scenario.sceneSelected
          "2024-01-10")
     <> Err.Done (Http.errorJson 400 "Missing required parameter: acquisitionTime").
Proof.
  pose proof (explorer_request_passes_the_time_check (Scenario.copernicusWorld true)
                (Scenario.net Scenario.imageReply) Scenario.sceneSelected
                Scenario.clearScene eq_refl) as H.
  cbv zeta in H.
  assert (Ht : Explorer.datetime Scenario.clearScene <> "") by discriminate.
  assert (Hr : In (Panel.resolution Scenario.sceneSelected) ["512"; "1024"; "2048"])
    by (right; left; reflexivity).
  destruct (H Ht Hr) as (H1 & H2 & _).
  split; [exact H1 | exact H2].
Defined.

(** ** The first page *)

(** X22.  [handleFetchImage] of the first page ends with [isLoading]
    false and with an image or an error, never both and never neither.
    The image is the object URL of the body of an ok reply; a reply that
    is not ok is reported with its status and its text; the three inputs
    are left as they were. *)
Theorem first_page_fetch_outcome (B : SatelliteImage.Browser) (st : SatelliteImage.State) :
  let after := SatelliteImage.handleFetchImage B st in
  SatelliteImage.isLoading after = false
  /\ (SatelliteImage.imageUrl after = None <-> SatelliteImage.error after <> None)
  /\ (forall data,
        SatelliteImage.imageUrl after = Some data ->
        exists response bytes,
          SatelliteImage.fetch B (SatelliteImage.url st) = Err.Done response
          /\ SatelliteImage.ok response = true
          /\ SatelliteImage.blob response = Err.Done bytes
          /\ data = SatelliteImage.createObjectURL B bytes)
  /\ (forall response errorText,
        SatelliteImage.fetch B (SatelliteImage.url st) = Err.Done response ->
        SatelliteImage.ok response = false ->
        SatelliteImage.text response = Err.Done errorText ->
        SatelliteImage.error after
        = Some ("Failed to fetch satellite image: HTTP error! status: "
                ++ JS.toString (JS.Num (SatelliteImage.status response))
                ++ ", message: " ++ errorText))
  /\ SatelliteImage.longitude after = SatelliteImage.longitude st
  /\ SatelliteImage.latitude after = SatelliteImage.latitude st
  /\ SatelliteImage.date after = SatelliteImage.date st.
Proof.
  intros after. unfold after, SatelliteImage.handleFetchImage, SatelliteImage.load.
  destruct (SatelliteImage.fetch B (SatelliteImage.url st)) as [response | m] eqn:Hf;
    cbn [Err.andThen].
  2:{ cbn. split; [reflexivity|]. split; [split; [discriminate | reflexivity]|].
      split; [| split; [| auto]].
      - intros data H. discriminate H.
      - intros response errorText H. discriminate H. }
  destruct (SatelliteImage.ok response) eqn:Hok; cbn [negb].
  - destruct (SatelliteImage.blob response) as [bytes | m] eqn:Hb; cbn [Err.andThen].
    + cbn. split; [reflexivity|]. split; [split; [discriminate | congruence]|].
      split; [| split; [| auto]].
      * intros data H. injection H as <-. exists response, bytes. auto.
      * intros response' errorText H H'. injection H as <-. congruence.
    + cbn. split; [reflexivity|]. split; [split; [discriminate | reflexivity]|].
      split; [| split; [| auto]].
      * intros data H. discriminate H.
      * intros response' errorText H H'. injection H as <-. congruence.
  - destruct (SatelliteImage.text response) as [errorText | m] eqn:Ht; cbn [Err.andThen].
    + cbn. split; [reflexivity|]. split; [split; [discriminate | reflexivity]|].
      split; [| split; [| auto]].
      * intros data H. discriminate H.
      * intros response' errorText' H _ H'. injection H as <-.
        rewrite Ht in H'. injection H' as <-. reflexivity.
    + cbn. split; [reflexivity|]. split; [split; [discriminate | reflexivity]|].
      split; [| split; [| auto]].
      * intros data H. discriminate H.
      * intros response' errorText' H _ H'. injection H as <-. congruence.
Qed.

Lemma refused_request_on_the_first_page :
  SatelliteImage.error (SatelliteImage.handleFetchImage Scenario.refusing Scenario.firstPage)
  = Some "Failed to fetch satellite image: HTTP error! status: 400, message: Missing latitude, longitude, or date parameter".
Proof.
  apply (proj1 (proj2 (proj2 (proj2 (first_page_fetch_outcome Scenario.refusing
                                       Scenario.firstPage))))
           {| SatelliteImage.ok := false; SatelliteImage.status := 400;
              SatelliteImage.text :=
                Err.Done "Missing latitude, longitude, or date parameter";
              SatelliteImage.blob := Err.Done [] |}
           "Missing latitude, longitude, or date parameter"
           eq_refl eq_refl eq_refl).
Defined.

(** ** The log's truncation *)

Lemma length_prefix (n : nat) (s : string) :
  (n <= String.length s)%nat -> String.length (String.substring 0 n s) = n.
Proof.
  revert s. induction n as [| n IH]; intros s H.
  - destruct s; reflexivity.
  - destruct s as [| c s]; cbn in H; [lia|]. cbn. rewrite IH by lia. reflexivity.
Qed.

Lemma prefix_all (n : nat) (s : string) :
  (String.length s <= n)%nat -> String.substring 0 n s = s.
Proof.
  revert s. induction n as [| n IH]; intros s H.
  - destruct s; [reflexivity | cbn in H; lia].
  - destruct s as [| c s]; [reflexivity|]. cbn in H. cbn. rewrite IH by lia. reflexivity.
Qed.

Lemma prefix_of_append (n : nat) (a b : string) :
  (n <= String.length a)%nat ->
  String.substring 0 n (a ++ b) = String.substring 0 n a.
Proof.
  revert a. induction n as [| n IH]; intros a H.
  - destruct a, b; reflexivity.
  - destruct a as [| c a]; cbn in H; [lia|]. cbn. rewrite IH by lia. reflexivity.
Qed.

Lemma prefix_of_prefix (n : nat) (s : string) :
  String.substring 0 n (String.substring 0 n s) = String.substring 0 n s.
Proof.
  revert s. induction n as [| n IH]; intros s.
  - destruct s; reflexivity.
  - destruct s as [| c s]; [reflexivity|]. cbn. rewrite IH. reflexivity.
Qed.

Lemma substring_after (a b : string) (m : nat) :
  String.substring (String.length a) m (a ++ b) = String.substring 0 m b.
Proof. induction a as [| c a IH]; [reflexivity | exact IH]. Qed.

(** X23.  [truncate]: the result is never longer than [n] plus the
    fifteen characters of the marker; a text of at most [n] characters
    is returned as it is; a longer one keeps its first [n] characters,
    followed by the marker; and truncating twice is truncating once. *)
Theorem truncate_bounds_the_logged_text (str : string) (n : nat) :
  (String.length (Text.truncate str n) <= n + 15)%nat
  /\ ((String.length str <= n)%nat -> Text.truncate str n = str)
  /\ ((n < String.length str)%nat ->
      String.length (Text.truncate str n) = (n + 15)%nat
      /\ String.substring 0 n (Text.truncate str n) = String.substring 0 n str
      /\ String.substring n 15 (Text.truncate str n) = "... [truncated]")
  /\ Text.truncate (Text.truncate str n) n = Text.truncate str n.
Proof.
  unfold Text.truncate.
  destruct (n <? String.length str)%nat eqn:E.
  - apply Nat.ltb_lt in E.
    assert (Hlen : String.length (String.substring 0 n str ++ "... [truncated]")
                   = (n + 15)%nat).
    { rewrite length_append, length_prefix by lia. reflexivity. }
    assert (Hpre : String.substring 0 n (String.substring 0 n str ++ "... [truncated]")
                   = String.substring 0 n str).
    { rewrite prefix_of_append by (rewrite length_prefix; lia). apply prefix_of_prefix. }
    split; [lia|]. split; [lia|]. split.
    + intros _. split; [exact Hlen|]. split; [exact Hpre|].
      rewrite <- (length_prefix n str) at 1 by lia. rewrite substring_after. reflexivity.
    + rewrite Hlen. destruct (n <? n + 15)%nat eqn:E2; [| apply Nat.ltb_ge in E2; lia].
      rewrite Hpre. reflexivity.
  - pose proof E as E'. apply Nat.ltb_ge in E'.
    split; [lia|]. split; [reflexivity|]. split; [lia|].
    rewrite E. reflexivity.
Qed.

Lemma long_body_is_cut_at_five :
  String.length (Text.truncate "No imagery" 5) = 20%nat
  /\ String.substring 0 5 (Text.truncate "No imagery" 5) = "No im"
  /\ String.substring 5 15 (Text.truncate "No imagery" 5) = "... [truncated]".
Proof.
  exact (proj1 (proj2 (proj2 (truncate_bounds_the_logged_text "No imagery" 5)))
           (proj1 (Nat.ltb_lt 5 10) eq_refl)).
Defined.

(** ** The high-resolution preview *)

(** X24.  The high-resolution preview.  A tile request of the explorer
    with integer indices in the safe range and one of the resolutions
    512, 1024 and 2048 takes the compositor branch with 2, 4 or 8 tiles
    per side: that many squared tile addresses, pairwise distinct, the
    tile of the explorer among them. *)
Theorem high_resolution_preview_request
  (W : Gibs.World) (E : Explorer.Engine) (q : Http.Query) (i j : Z) (r : string) :
  Http.get q "z" = Some "8" ->
  Http.get q "x" = Some (Explorer.show E (Explorer.FInt i)) ->
  Http.get q "y" = Some (Explorer.show E (Explorer.FInt j)) ->
  Z.abs i + 2048 <= 2 ^ 53 ->
  Z.abs j + 2048 <= 2 ^ 53 ->
  Http.get q "resolution" = Some r ->
  In r ["512"; "1024"; "2048"] ->
  let rq := Gibs.parseTileRequest W q in
  exists t,
    In t [2; 4; 8]
    /\ Gibs.resolution rq = JS.Num (256 * t)
    /\ Gibs.tilesPerSide rq = JS.Num t
    /\ Gibs.serveTile W rq = Gibs.stitched W rq (256 * t) t
    /\ List.length (Gibs.tileUrls rq) = Z.to_nat (t * t)
    /\ NoDup (Gibs.tileUrls rq)
    /\ In (Gibs.tileUrl (Gibs.layer rq) (Gibs.date rq) (JS.Num 8) (JS.Num j) (JS.Num i))
          (Gibs.tileUrls rq).
Proof.
  intros Hz Hx Hy Hi Hj Hr Hin rq.
  assert (Hi' : Z.abs i <= 2 ^ 53) by lia.
  assert (Hj' : Z.abs j <= 2 ^ 53) by lia.
  assert (Hz8 : Gibs.z rq = JS.Num 8).
  { unfold rq, Gibs.parseTileRequest. cbn [Gibs.z]. rewrite Hz. reflexivity. }
  assert (Hxi : Gibs.x rq = JS.Num i).
  { unfold rq, Gibs.parseTileRequest. cbn [Gibs.x].
    rewrite Hx, (show_safe_integer E i Hi'), orElse_toString. apply parseInt_toString. }
  assert (Hyj : Gibs.y rq = JS.Num j).
  { unfold rq, Gibs.parseTileRequest. cbn [Gibs.y].
    rewrite Hy, (show_safe_integer E j Hj'), orElse_toString. apply parseInt_toString. }
  assert (Hmiss : Gibs.missingCoordinates rq = false).
  { unfold Gibs.missingCoordinates. rewrite Hz8. reflexivity. }
  assert (Hres : exists t, In t [2; 4; 8] /\ Gibs.resolution rq = JS.Num (256 * t)
                           /\ - (- (256 * t) / 256) = t).
  { unfold rq, Gibs.parseTileRequest. cbn [Gibs.resolution]. rewrite Hr.
    cbn [In] in Hin. destruct Hin as [<- | [<- | [<- | []]]].
    - exists 2. split; [left; reflexivity|]. split; reflexivity.
    - exists 4. split; [right; left; reflexivity|]. split; reflexivity.
    - exists 8. split; [right; right; left; reflexivity|]. split; reflexivity. }
  destruct Hres as (t & Ht & Hres & Hceil).
  assert (Hbig : 256 < 256 * t).
  { cbn [In] in Ht. destruct Ht as [<- | [<- | [<- | []]]]; lia. }
  assert (Htps : Gibs.tilesPerSide rq = JS.Num t).
  { unfold Gibs.tilesPerSide. rewrite Hres. unfold JS.ceil_div. rewrite Hceil. reflexivity. }
  exists t. split; [exact Ht|]. split; [exact Hres|]. split; [exact Htps|].
  split; [| split; [| split]].
  - rewrite (serveTile_above_256 W rq (256 * t) Hres Hbig Hmiss). rewrite Hceil. reflexivity.
  - rewrite (length_tileUrls rq t Htps). rewrite Z2Nat.inj_mul by lia. reflexivity.
  - exact (proj2 (tile_addresses_are_distinct rq i j Hxi Hyj)).
  - rewrite <- Hz8. unfold Gibs.tileUrls. apply in_map_iff.
    exists (JS.Num i, JS.Num j). split; [reflexivity|].
    exact (centre_in_grid rq (256 * t) i j Hres Hbig Hxi Hyj).
Qed.

Lemma preview_at_1024_asks_for_sixteen_tiles :
  let q := [("layer", "MODIS_Terra_CorrectedReflectance_TrueColor");
            ("date", "2024-01-08"); ("z", "8");
            ("x", Explorer.show Sample.equatorEngine (Explorer.FInt 270));
            ("y", Explorer.show Sample.equatorEngine (Explorer.FInt 128));
            ("resolution", "1024")] in
  exists t,
    In t [2; 4; 8]
    /\ Gibs.resolution (Gibs.parseTileRequest (Sample.gibsWorld Sample.healthy) q)
       = JS.Num (256 * t)
    /\ List.length (Gibs.tileUrls (Gibs.parseTileRequest (Sample.gibsWorld Sample.healthy) q))
       = Z.to_nat (t * t).
Proof.
  intros q.
  destruct (high_resolution_preview_request (Sample.gibsWorld Sample.healthy)
              Sample.equatorEngine q 270 128 "1024"
              eq_refl eq_refl eq_refl
              ltac:(vm_compute; discriminate) ltac:(vm_compute; discriminate) eq_refl
              (or_intror (or_introl eq_refl)))
    as (t & Ht & Hres & _ & _ & Hlen & _).
  exists t. split; [exact Ht|]. split; [exact Hres | exact Hlen].
Defined.

(** ** The provider A route written with axios *)

Lemma newResponse_done (b : Imagery.Body) (st : Z) (ct : option string)
  (answer : Imagery.Answer) :
  Imagery.newResponse b st ct = Err.Done answer ->
  answer = {| Imagery.status := st; Imagery.contentType := ct; Imagery.body := b |}.
Proof.
  unfold Imagery.newResponse.
  destruct ((200 <=? st) && (st <=? 599)); [| discriminate].
  destruct (Copernicus.nullBodyStatus st); [discriminate|].
  intros H. injection H as <-. reflexivity.
Qed.

Lemma newResponse_fail (b : Imagery.Body) (st : Z) (ct : option string) (text : string) :
  Imagery.newResponse b st ct = Err.Fail text ->
  st < 200 \/ 599 < st \/ Copernicus.nullBodyStatus st = true.
Proof.
  unfold Imagery.newResponse.
  destruct ((200 <=? st) && (st <=? 599)) eqn:E.
  - destruct (Copernicus.nullBodyStatus st); [auto | discriminate].
  - intros _. apply andb_false_iff in E.
    destruct E as [E | E]; [apply Z.leb_gt in E | apply Z.leb_gt in E]; lia.
Qed.

Lemma failed_without_response (text : string) :
  exists answer,
    Imagery.failed {| Imagery.message := text; Imagery.response := None |}
    = Err.Done answer
    /\ Imagery.status answer = 500
    /\ exists shown, Imagery.body answer = Imagery.Text shown.
Proof.
  unfold Imagery.failed. cbn [Imagery.message Imagery.response].
  eexists. split; [reflexivity|]. split; [reflexivity|]. eexists. reflexivity.
Qed.

(** X25.  The provider A route written with axios.  A request whose
    [lat], [lon] or [date] is absent or empty is answered 400 with a
    fixed text.  Bytes are answered only when axios resolved, and then
    they are the upstream body, with the upstream status and content
    type (image/png by default).  The route lets an exception escape
    only when axios rejected with an upstream status that the response
    constructor refuses. *)
Theorem axios_route_answers (W : Imagery.World) (q : Http.Query) :
  let lat := JS.orElse (Http.get q "lat") "" in
  let lon := JS.orElse (Http.get q "lon") "" in
  let date := JS.orElse (Http.get q "date") "" in
  let upstream := Imagery.axios_get W (Imagery.url W lon lat date) in
  (lat = "" \/ lon = "" \/ date = "" ->
   Imagery.GET W q
   = Err.Done {| Imagery.status := 400; Imagery.contentType := None;
                 Imagery.body :=
                   Imagery.Text "Missing latitude, longitude, or date parameter" |})
  /\ (forall answer bytes,
        Imagery.GET W q = Err.Done answer ->
        Imagery.body answer = Imagery.Bytes bytes ->
        lat <> "" /\ lon <> "" /\ date <> ""
        /\ exists r,
             upstream = Imagery.Resolved r
             /\ Imagery.response_data r = bytes
             /\ Imagery.status answer = Imagery.response_status r
             /\ Imagery.contentType answer
                = Some (JS.orElse (Imagery.content_type r) "image/png"))
  /\ (forall text,
        Imagery.GET W q = Err.Fail text ->
        lat <> "" /\ lon <> "" /\ date <> ""
        /\ exists e st,
             upstream = Imagery.Rejected e
             /\ Imagery.response e = Some st
             /\ st <> 0
             /\ (st < 200 \/ 599 < st \/ Copernicus.nullBodyStatus st = true)).
Proof.
  intros lat lon date upstream.
  unfold Imagery.GET. fold lat lon date.
  assert (Hmissing :
            (forall answer bytes,
               Imagery.newResponse
                 (Imagery.Text "Missing latitude, longitude, or date parameter") 400 None
               = Err.Done answer ->
               Imagery.body answer = Imagery.Bytes bytes -> False)
            /\ (forall text,
                  Imagery.newResponse
                    (Imagery.Text "Missing latitude, longitude, or date parameter") 400 None
                  = Err.Fail text -> False)).
  { split.
    - intros answer bytes H Hb. apply newResponse_done in H. subst answer. discriminate Hb.
    - intros text H. discriminate H. }
  destruct Hmissing as [Hm1 Hm2].
  destruct lat as [| a lat'] eqn:Hlat.
  { split; [reflexivity|]. split.
    - intros answer bytes H Hb. destruct (Hm1 answer bytes H Hb).
    - intros text H. destruct (Hm2 text H). }
  destruct lon as [| b lon'] eqn:Hlon.
  { split; [reflexivity|]. split.
    - intros answer bytes H Hb. destruct (Hm1 answer bytes H Hb).
    - intros text H. destruct (Hm2 text H). }
  destruct date as [| c date'] eqn:Hdate.
  { split; [reflexivity|]. split.
    - intros answer bytes H Hb. destruct (Hm1 answer bytes H Hb).
    - intros text H. destruct (Hm2 text H). }
  split; [intros [H | [H | H]]; discriminate H|].
  fold upstream.
  destruct upstream as [r | e] eqn:Hup.
  - split.
    + intros answer bytes H Hb.
      repeat (split; [discriminate|]).
      exists r. split; [reflexivity|].
      destruct (Imagery.newResponse (Imagery.Bytes (Imagery.response_data r))
                  (Imagery.response_status r)
                  (Some (JS.orElse (Imagery.content_type r) "image/png")))
        as [answer' | text] eqn:Hn; cbn [Err.try_catch] in H.
      * injection H as <-. apply newResponse_done in Hn. subst answer'.
        cbn in Hb. injection Hb as <-. auto.
      * destruct (failed_without_response text) as (answer' & Hf & _ & shown & Hs).
        rewrite Hf in H. injection H as <-. rewrite Hs in Hb. discriminate Hb.
    + intros text H. exfalso.
      destruct (Imagery.newResponse (Imagery.Bytes (Imagery.response_data r))
                  (Imagery.response_status r)
                  (Some (JS.orElse (Imagery.content_type r) "image/png")))
        as [answer' | text'] eqn:Hn; cbn [Err.try_catch] in H.
      * discriminate H.
      * destruct (failed_without_response text') as (answer' & Hf & _).
        rewrite Hf in H. discriminate H.
  - split.
    + intros answer bytes H Hb. exfalso. unfold Imagery.failed in H.
      apply newResponse_done in H. subst answer. discriminate Hb.
    + intros text H. repeat (split; [discriminate|]).
      unfold Imagery.failed in H. apply newResponse_fail in H.
      destruct (Imagery.response e) as [st |] eqn:Hr.
      * destruct (st =? 0) eqn:E0.
        -- exfalso. cbn in H. destruct H as [H | [H | H]]; [lia | lia | discriminate H].
        -- apply Z.eqb_neq in E0. exists e, st. auto.
      * exfalso. cbn in H. destruct H as [H | [H | H]]; [lia | lia | discriminate H].
Qed.

Lemma request_without_a_date_is_refused :
  Imagery.GET Scenario.imageryWorld [("lat", "0"); ("lon", "0"); ("date", "")]
  = Err.Done {| Imagery.status := 400; Imagery.contentType := None;
                Imagery.body :=
                  Imagery.Text "Missing latitude, longitude, or date parameter" |}.
Proof.
  apply (proj1 (axios_route_answers Scenario.imageryWorld
                  [("lat", "0"); ("lon", "0"); ("date", "")])).
  right. right. reflexivity.
Defined.

(** ** Where the compositor draws each tile *)

Lemma nth_error_mapi_from {A B : Type} (f : A -> Z -> B) (l : list A) (k : Z) (i : nat) :
  nth_error (JS.mapi_from k f l) i
  = match nth_error l i with
    | Some a => Some (f a (k + Z.of_nat i))
    | None => None
    end.
Proof.
  revert k i. induction l as [| a l IH]; intros k i.
  - destruct i; reflexivity.
  - destruct i as [| i]; cbn [JS.mapi_from nth_error].
    + f_equal. f_equal. lia.
    + rewrite IH. destruct (nth_error l i); [| reflexivity].
      f_equal. f_equal. lia.
Qed.

Lemma nth_error_mapM {A B : Type} (f : A -> JS.Outcome B) (l : list A) (bs : list B)
  (i : nat) (a : A) :
  JS.mapM f l = JS.Ret bs -> nth_error l i = Some a ->
  exists b, f a = JS.Ret b /\ nth_error bs i = Some b.
Proof.
  revert bs i. induction l as [| x l IH]; intros bs i Hm Hn.
  - destruct i; discriminate Hn.
  - cbn [JS.mapM] in Hm. destruct (f x) as [b0 | e] eqn:Hx; [| discriminate Hm].
    cbn [JS.bind] in Hm. destruct (JS.mapM f l) as [bs0 | e] eqn:Hl; [| discriminate Hm].
    cbn [JS.bind] in Hm. injection Hm as <-.
    destruct i as [| i]; cbn [nth_error] in *.
    + injection Hn as <-. exists b0. auto.
    + exact (IH bs0 i eq_refl Hn).
Qed.

(** X26.  Where the compositor draws each tile.  When every tile fetch
    settles and the rows are stitched, the tile of column [dx] and row
    [dy] of the grid is fetched from the address of tile
    [(x - half + dx, y - half + dy)]; when its reply is ok, its bytes
    are the overlay at [left = 256 * dx], [top = 0] in the list that
    [stitchRow] hands to the codec for row [dy], and the image of that
    row is the overlay at [left = 0], [top = 256 * dy] in the list that
    [stitchColumns] hands to it for the final canvas. *)
Theorem tiles_are_drawn_where_they_belong
  (W : Gibs.World) (rq : Gibs.TileRequest) (res cx cy : Z)
  (tileBuffers : list (option Http.Buffer)) (stitchedRows : list Http.Buffer) :
  Gibs.resolution rq = JS.Num res ->
  256 < res ->
  Gibs.x rq = JS.Num cx ->
  Gibs.y rq = JS.Num cy ->
  Z.abs cx + res <= 2 ^ 53 ->
  Z.abs cy + res <= 2 ^ 53 ->
  let t := - (- res / 256) in
  JS.Promise_all (Gibs.tilePromises W rq) = JS.Ret tileBuffers ->
  JS.mapM (Gibs.stitchRow (Gibs.sharp W) t) (Gibs.images t tileBuffers)
  = JS.Ret stitchedRows ->
  forall dx dy, 0 <= dx < t -> 0 <= dy < t ->
    exists r row rowImg rowOverlays columnOverlays,
      Gibs.fetch W
        (Gibs.tileUrl (Gibs.layer rq) (Gibs.date rq) (Gibs.z rq)
           (JS.Num (cy - t / 2 + dy)) (JS.Num (cx - t / 2 + dx))) = JS.Ret r
      /\ nth_error (Gibs.images t tileBuffers) (Z.to_nat dy) = Some row
      /\ (forall S : Http.Sharp,
            Gibs.stitchRow S t row
            = Http.toBuffer S
                {| Http.width := 256 * t; Http.height := 256; Http.channels := 3;
                   Http.background := Gibs.white |}
                rowOverlays None)
      /\ (Http.ok r = true ->
          nth_error rowOverlays (Z.to_nat dx)
          = Some {| Http.input := Http.reply_body r; Http.left := dx * 256;
                    Http.top := 0 |})
      /\ Gibs.stitchRow (Gibs.sharp W) t row = JS.Ret rowImg
      /\ (forall S : Http.Sharp,
            Gibs.stitchColumns S t res stitchedRows
            = Http.toBuffer S
                {| Http.width := 256 * t; Http.height := 256 * t; Http.channels := 3;
                   Http.background := Gibs.white |}
                columnOverlays (Some (res, res)))
      /\ nth_error columnOverlays (Z.to_nat dy)
         = Some {| Http.input := rowImg; Http.left := 0; Http.top := dy * 256 |}.
Proof.
  intros Hres Hbig Hx Hy _ _ t Hp Hm dx dy Hdx Hdy.
  destruct (tileCoords_unfold rq res cx cy Hres Hx Hy) as (Ht & _ & Hgrid).
  cbv zeta in Ht, Hgrid. fold t in Ht, Hgrid.
  assert (Ht0 : 0 <= t) by lia.
  (* the address at index dy * t + dx *)
  set (idx := (Z.to_nat dy * Z.to_nat t + Z.to_nat dx)%nat).
  assert (Hidx : Z.of_nat idx = dy * t + dx) by (unfold idx; nia).
  assert (Hrow : forall r0, In r0 (JS.range t) ->
            List.length
              (map (fun dx0 => (JS.Num (cx - t / 2 + dx0), JS.Num (cy - t / 2 + r0)))
                   (JS.range t)) = Z.to_nat t).
  { intros r0 _. rewrite length_map. apply length_range. }
  assert (Hcoord : nth_error (Gibs.tileCoords rq) idx
                   = Some (JS.Num (cx - t / 2 + dx), JS.Num (cy - t / 2 + dy))).
  { rewrite Hgrid. unfold idx.
    rewrite (nth_error_rows _ (Z.to_nat t) (JS.range t) Hrow _ _ dy).
    - rewrite nth_error_map, nth_error_range by lia. cbn [option_map].
      rewrite Z2Nat.id by lia. reflexivity.
    - rewrite nth_error_range by lia. rewrite Z2Nat.id by lia. reflexivity.
    - lia. }
  assert (Hurl : nth_error (Gibs.tileUrls rq) idx
                 = Some (Gibs.tileUrl (Gibs.layer rq) (Gibs.date rq) (Gibs.z rq)
                           (JS.Num (cy - t / 2 + dy)) (JS.Num (cx - t / 2 + dx)))).
  { unfold Gibs.tileUrls. rewrite nth_error_map, Hcoord. reflexivity. }
  set (url := Gibs.tileUrl (Gibs.layer rq) (Gibs.date rq) (Gibs.z rq)
                (JS.Num (cy - t / 2 + dy)) (JS.Num (cx - t / 2 + dx))) in *.
  unfold Gibs.tilePromises in Hp.
  pose proof (Promise_all_settled W (Gibs.tileUrls rq) tileBuffers Hp) as Hall.
  destruct (tilePromises_settle W (Gibs.tileUrls rq) Hall) as (bufs & Hp' & _ & Hnth).
  rewrite Hp in Hp'. injection Hp' as <-.
  destruct (Hall url (nth_error_In _ _ Hurl)) as [r Hr].
  pose proof (Hnth idx url r Hurl Hr) as Hentry.
  pose proof (cell_of_entry tileBuffers idx _ Hentry) as Hcell. rewrite Hidx in Hcell.
  (* the row of the grid *)
  set (row := map (fun dx0 => Gibs.cell tileBuffers (dy * t + dx0)) (JS.range t)).
  assert (Himg : nth_error (Gibs.images t tileBuffers) (Z.to_nat dy) = Some row).
  { rewrite (images_row_major t tileBuffers Ht0), nth_error_map, nth_error_range by lia.
    cbn [option_map]. rewrite Z2Nat.id by lia. reflexivity. }
  destruct (nth_error_mapM _ _ _ _ _ Hm Himg) as (rowImg & Hsr & Hsn).
  exists r, row, rowImg.
  exists (JS.mapi (fun buf i => {| Http.input := buf; Http.left := i * 256;
                                   Http.top := 0 |}) row).
  exists (JS.mapi (fun buf i => {| Http.input := buf; Http.left := 0;
                                   Http.top := i * 256 |}) stitchedRows).
  split; [exact Hr|]. split; [exact Himg|].
  split; [intros S; reflexivity|].
  split; [| split; [exact Hsr | split; [intros S; reflexivity|]]].
  - intros Hok. unfold JS.mapi. rewrite nth_error_mapi_from.
    unfold row. rewrite nth_error_map, nth_error_range by lia. cbn [option_map].
    rewrite !Z2Nat.id by lia. rewrite Hcell, Hok. reflexivity.
  - unfold JS.mapi. rewrite nth_error_mapi_from, Hsn.
    rewrite Z2Nat.id by lia. reflexivity.
Qed.

Lemma centre_tile_of_the_512_composite :
  exists r row rowImg rowOverlays columnOverlays,
    Gibs.fetch (Sample.gibsWorld Sample.healthy)
      (Gibs.tileUrl (Gibs.layer Sample.grid512) (Gibs.date Sample.grid512) (JS.Num 8)
         (JS.Num 20) (JS.Num 10)) = JS.Ret r
    /\ nth_error (Gibs.images 2 (repeat (Some (Sample.encode 256 256)) 4)) 1 = Some row
    /\ (forall S : Http.Sharp,
          Gibs.stitchRow S 2 row
          = Http.toBuffer S
              {| Http.width := 512; Http.height := 256; Http.channels := 3;
                 Http.background := Gibs.white |}
              rowOverlays None)
    /\ (Http.ok r = true ->
        nth_error rowOverlays 1
        = Some {| Http.input := Http.reply_body r; Http.left := 256; Http.top := 0 |})
    /\ Gibs.stitchRow Sample.sharp 2 row = JS.Ret rowImg
    /\ (forall S : Http.Sharp,
          Gibs.stitchColumns S 2 512 [Sample.encode 512 256; Sample.encode 512 256]
          = Http.toBuffer S
              {| Http.width := 512; Http.height := 512; Http.channels := 3;
                 Http.background := Gibs.white |}
              columnOverlays (Some (512, 512)))
    /\ nth_error columnOverlays 1
       = Some {| Http.input := rowImg; Http.left := 0; Http.top := 256 |}.
Proof.
  apply (tiles_are_drawn_where_they_belong (Sample.gibsWorld Sample.healthy)
           Sample.grid512 512 10 20
           (repeat (Some (Sample.encode 256 256)) 4)
           [Sample.encode 512 256; Sample.encode 512 256]
           eq_refl eq_refl eq_refl eq_refl
           ltac:(vm_compute; discriminate) ltac:(vm_compute; discriminate)
           eq_refl eq_refl 1 1);
    (cbv; split; [discriminate | reflexivity]).
Defined.

(** ** Images and date lists as the explorer shows them *)

(** X27.  An image of a route as the explorer shows it.  For an image
    answer of the provider A route, the explorer shows the object URL of
    its bytes and, as caption, the date the route put in
    [x-image-metadata].  For an image answer of the Copernicus route,
    which sets no such header, the caption is the empty text. *)
Theorem route_image_as_the_explorer_shows_it (N : Panel.Net) (c : Panel.Controls)
  (serialize : Http.Json -> Http.Buffer) (bytes : Http.Buffer) :
  (forall metadata dates7,
     Panel.fetch N "/api/fetch-image" (Panel.nasaParams N c)
     = JS.Ret (Panel.received serialize
                 (Http.image "image/png" (Nasa.imageHeaders metadata dates7) bytes)) ->
     let after := Panel.state (snd (Panel.handleFetchImage_nasa N c)) in
     Explorer.imageUrl after = Some (Explorer.createObjectURL (Panel.browser N) bytes)
     /\ Explorer.imageMeta after = Some metadata)
  /\ (forall scene,
        Panel.selectedScene c = Some scene ->
        Explorer.datetime scene <> "" ->
        Panel.fetch N "/api/fetch-copernicus-image"
          (Panel.copernicusParams N c (Explorer.datetime scene))
        = JS.Ret (Panel.received serialize (Http.image "image/png" [] bytes)) ->
        let after := Panel.state (snd (Panel.handleFetchImage_copernicus N c)) in
        Explorer.imageUrl after = Some (Explorer.createObjectURL (Panel.browser N) bytes)
        /\ Explorer.imageMeta after = Some "").
Proof.
  split.
  - intros metadata dates7 Hf after.
    unfold after, Panel.handleFetchImage_nasa. cbv zeta.
    cbn [snd Panel.withState Panel.state]. rewrite Hf.
    unfold Panel.showImage. cbn. split; [reflexivity|].
    destruct metadata; reflexivity.
  - intros scene Hsel Htime Hf after.
    unfold after, Panel.handleFetchImage_copernicus. cbv zeta. rewrite Hsel.
    destruct (Explorer.datetime scene) as [| ch rest] eqn:Hd; [congruence|].
    cbn [snd Panel.withState Panel.state]. rewrite Hf.
    unfold Panel.showImage. cbn. split; reflexivity.
Qed.

Lemma copernicus_picture_has_no_caption :
  let after :=
    Panel.state
      (snd (Panel.handleFetchImage_copernicus
              (Scenario.net
                 (JS.Ret (Panel.received (fun _ => [])
                            (Http.image "image/png" [] (Sample.encode 1024 1024)))))
              Scenario.sceneSelected)) in
  Explorer.imageUrl after = Some "blob:preview" /\ Explorer.imageMeta after = Some "".
Proof.
  apply (proj2 (route_image_as_the_explorer_shows_it
                  (Scenario.net
                     (JS.Ret (Panel.received (fun _ => [])
                                (Http.image "image/png" [] (Sample.encode 1024 1024)))))
                  Scenario.sceneSelected (fun _ => []) (Sample.encode 1024 1024))
           Scenario.clearScene eq_refl).
  - discriminate.
  - reflexivity.
Defined.

(** X28.  The date list of the provider C route as the explorer reads
    it.  When the list is made of the parts of a [Time] dimension, which
    are never none, the actual date shown is always one of these parts,
    not the requested date; and it is the first part as soon as that
    part, or the requested date, does not read as a time: a period such
    as start/end/P1D is shown as it stands. *)
Theorem actual_date_for_a_time_dimension
  (B : Explorer.Browser) (st : Explorer.State) (res : Explorer.ApiReply) (text : string) :
  Explorer.request B (Explorer.datesUrlOf st) = JS.Ret res ->
  Explorer.api_ok res = true ->
  Explorer.api_availableDates res = JS.Ret (Gibs.split_comma text) ->
  (exists d, Explorer.actualDate B st = Some d /\ In d (Gibs.split_comma text))
  /\ (forall first rest,
        Gibs.split_comma text = first :: rest ->
        Explorer.getTime B first = JS.NaN
        \/ Explorer.getTime B (Explorer.date st) = JS.NaN ->
        Explorer.actualDate B st = Some first).
Proof.
  intros Hr Hok Hd. unfold Explorer.actualDate. rewrite Hr, Hok, Hd.
  split.
  - destruct (Explorer.closestTo (Explorer.getTime B)
                (Explorer.getTime B (Explorer.date st)) (Gibs.split_comma text))
      as [c |] eqn:Hc.
    + exists c. split; [reflexivity | exact (closestTo_member _ _ _ _ Hc)].
    + apply closestTo_none in Hc. destruct (split_comma_not_empty text Hc).
  - intros first rest Hs Hnan. rewrite Hs.
    rewrite (closestTo_first_unreadable _ _ first rest
               (diffTo_unreadable _ _ first Hnan)).
    reflexivity.
Qed.

Lemma period_of_a_layer_is_shown_as_its_date :
  Explorer.actualDate (Sample.browser (Gibs.split_comma "2000-02-24/2024-01-08/P1D"))
    (Sample.stateAt 23)
  = Some "2000-02-24/2024-01-08/P1D".
Proof.
  apply (proj2 (actual_date_for_a_time_dimension
                  (Sample.browser (Gibs.split_comma "2000-02-24/2024-01-08/P1D"))
                  (Sample.stateAt 23)
                  (Sample.datesReply (Gibs.split_comma "2000-02-24/2024-01-08/P1D"))
                  "2000-02-24/2024-01-08/P1D" eq_refl eq_refl eq_refl)
           "2000-02-24/2024-01-08/P1D" [] eq_refl).
  left. reflexivity.
Defined.
